(** * javis-auth-challenge: session tokens, route guard and login rate limit

    A shallow embedding of the authentication core of the repository
    (src/lib/auth/*.ts, src/middleware.ts and the API route handlers) and
    the properties of its specification.

    Conventions of the embedding.
    - JavaScript strings are byte strings ([string]); JSON numbers are the
      integers ([Z]), which is what the token timestamps are.
    - Ambient state read by the code ([process.env], [Date.now()]) is the
      explicit [Runtime] argument of every function.
    - Built-ins of the platform and of the npm dependencies that the
      repository calls but does not define (atob, JSON.parse, base64url,
      HMAC, bcrypt, the zod e-mail test) are the fields of the [Platform]
      class; the general theorems hold for every platform. *)

From Stdlib Require Import ZArith QArith Qminmax Qround Lqa Lia String Ascii List Bool.
From stdpp Require Import base option gmap strings list.

Local Open Scope string_scope.
Local Open Scope Z_scope.

(** ** JavaScript values and string helpers *)

Module JS.

(** A function that may throw. *)
Inductive result (A : Type) : Type :=
| Ok (a : A)
| Throw (msg : string).
Arguments Ok {A} a.
Arguments Throw {A} msg.

Definition bind {A B} (r : result A) (k : A -> result B) : result B :=
  match r with
  | Ok a => k a
  | Throw m => Throw m
  end.

(** [try { ... } catch { return d }] *)
Definition catch {A} (r : result A) (d : A) : A :=
  match r with
  | Ok a => a
  | Throw _ => d
  end.

Definition of_option {A} (o : option A) (msg : string) : result A :=
  match o with
  | Some a => Ok a
  | None => Throw msg
  end.

(** What [JSON.parse] returns. *)
#[warnings="-register-all"]
Inductive json : Type :=
| JNull
| JBool (b : bool)
| JNum (n : Z)
| JStr (s : string)
| JArr (items : list json)
| JObj (fields : list (string * json)).

(** What a property read returns: [undefined], a JSON value, or a method
    inherited from a prototype (a function object). *)
Inductive value : Type :=
| Undefined
| Json (j : json)
| NativeFn (name : string).

(** ToBoolean. *)
Definition truthy (v : value) : bool :=
  match v with
  | Undefined => false
  | Json JNull => false
  | Json (JBool b) => b
  | Json (JNum n) => negb (n =? 0)
  | Json (JStr s) => negb (String.eqb s EmptyString)
  | Json (JArr _) => true
  | Json (JObj _) => true
  | NativeFn _ => true
  end.

(** [typeof v !== 'undefined'] and [typeof v === 'number']. *)
Definition is_defined (v : value) : bool :=
  match v with Undefined => false | _ => true end.

Definition is_number (v : value) : option Z :=
  match v with Json (JNum n) => Some n | _ => None end.

(** The members of an object literal in text order; a later member with the
    same key replaces an earlier one, as [JSON.parse] does. *)
Fixpoint assoc_last (k : string) (l : list (string * json)) : option json :=
  match l with
  | [] => None
  | (k', v) :: r =>
      match assoc_last k r with
      | Some v' => Some v'
      | None => if String.eqb k k' then Some v else None
      end
  end.

(** Legacy HTML methods of [String.prototype] that a property read on a
    string finds; of the names the code reads, only [sub] is one. *)
Definition string_method (k : string) : bool := String.eqb k "sub".

(** [o.k] for a value [o] returned by [JSON.parse]: reading a property of
    [null] throws a TypeError; primitives and arrays have none of the claim
    names as own properties. *)
Definition get_prop (o : json) (k : string) : result value :=
  match o with
  | JNull => Throw "TypeError: Cannot read properties of null"
  | JObj fields =>
      Ok (match assoc_last k fields with Some v => Json v | None => Undefined end)
  | JStr _ => Ok (if string_method k then NativeFn k else Undefined)
  | _ => Ok Undefined
  end.

(** ** Strings *)

Definition is_empty (s : string) : bool :=
  match s with EmptyString => true | _ => false end.

(** [s.split(sep)] for a one-character separator. *)
Fixpoint split (sep : ascii) (s : string) : list string :=
  match s with
  | EmptyString => [EmptyString]
  | String c r =>
      if Ascii.eqb c sep then EmptyString :: split sep r
      else match split sep r with
           | h :: t => String c h :: t
           | [] => [String c EmptyString]
           end
  end.

(** [s.startsWith(p)] *)
Fixpoint startsWith (p s : string) : bool :=
  match p, s with
  | EmptyString, _ => true
  | String a p', String b s' => Ascii.eqb a b && startsWith p' s'
  | String _ _, EmptyString => false
  end.

(** [s.substring(n)] *)
Fixpoint substring_from (n : nat) (s : string) : string :=
  match n, s with
  | O, _ => s
  | S n', String _ r => substring_from n' r
  | S _, EmptyString => EmptyString
  end.

(** White space of [trim] and [parseInt] among the byte values: TAB, LF, VT,
    FF, CR, SP and NBSP. *)
Definition is_space (c : ascii) : bool :=
  let n := nat_of_ascii c in
  ((9 <=? n)%nat && (n <=? 13)%nat) || (n =? 32)%nat || (n =? 160)%nat.

Fixpoint trim_start (s : string) : string :=
  match s with
  | String c r => if is_space c then trim_start r else s
  | EmptyString => EmptyString
  end.

Fixpoint trim_end (s : string) : string :=
  match s with
  | EmptyString => EmptyString
  | String c r =>
      match trim_end r with
      | EmptyString => if is_space c then EmptyString else String c EmptyString
      | r' => String c r'
      end
  end.

Definition trim (s : string) : string := trim_end (trim_start s).

Fixpoint map_chars (f : ascii -> ascii) (s : string) : string :=
  match s with
  | EmptyString => EmptyString
  | String c r => String (f c) (map_chars f r)
  end.

(** [s.replace(/a/g, b)] for single characters. *)
Definition replace_all (a b : ascii) (s : string) : string :=
  map_chars (fun c => if Ascii.eqb c a then b else c) s.

Fixpoint repeat_char (c : ascii) (n : nat) : string :=
  match n with
  | O => EmptyString
  | S n' => String c (repeat_char c n')
  end.

(** [s.padEnd(target, c)] *)
Definition padEnd (s : string) (target : nat) (c : ascii) : string :=
  s ++ repeat_char c (target - String.length s).

Definition to_lower_char (c : ascii) : ascii :=
  let n := nat_of_ascii c in
  if ((65 <=? n) && (n <=? 90))%nat then ascii_of_nat (n + 32) else c.

Definition toLowerCase (s : string) : string := map_chars to_lower_char s.

(** ** parseInt *)

Definition digit_value (radix : Z) (c : ascii) : option Z :=
  let n := Z.of_nat (nat_of_ascii c) in
  let d :=
    if (48 <=? n) && (n <=? 57) then Some (n - 48)
    else if (97 <=? n) && (n <=? 122) then Some (n - 87)
    else if (65 <=? n) && (n <=? 90) then Some (n - 55)
    else None in
  match d with
  | Some v => if v <? radix then Some v else None
  | None => None
  end.

(** The longest prefix of digits, most significant first; [None] when the
    prefix is empty. *)
Fixpoint parse_digits (radix : Z) (acc : option Z) (s : string) : option Z :=
  match s with
  | EmptyString => acc
  | String c r =>
      match digit_value radix c with
      | Some d =>
          parse_digits radix
            (Some (match acc with Some a => a * radix + d | None => d end)) r
      | None => acc
      end
  end.

(** [parseInt(s)] without a radix argument; [None] is NaN. *)
Definition parseInt (s : string) : option Z :=
  let s1 := trim_start s in
  let '(sign, s2) :=
    match s1 with
    | String "-" r => (-1, r)
    | String "+" r => (1, r)
    | _ => (1, s1)
    end in
  let '(radix, s3) :=
    if startsWith "0x" s2 || startsWith "0X" s2
    then (16, substring_from 2 s2) else (10, s2) in
  match parse_digits radix None s3 with
  | Some v => Some (sign * v)
  | None => None
  end.

End JS.

Import JS.

Notation "'let*' x := e 'in' k" := (JS.bind e (fun x => k))
  (at level 10, x name, e at level 100, k at level 200, only parsing).

(** ** The platform and the process *)

(** The three HMAC algorithms that [jsonwebtoken] accepts with a secret. *)
Inductive HsAlg : Type := HS256 | HS384 | HS512.

(** Built-ins that the repository calls and does not define.  A [None] from
    [atob] or [JSON_parse] is the exception they throw; a [None] from
    [StringToNumber] is NaN. *)
Class Platform : Type := {
  atob : string -> option string;
  JSON_parse : string -> option json;
  JSON_stringify : json -> string;
  (** [Buffer.from(s, 'base64').toString()], which never throws *)
  base64_decode : string -> string;
  (** unpadded base64url of a byte string *)
  base64url_encode : string -> string;
  (** [crypto.createHmac(alg, key).update(msg).digest()] *)
  hmac_digest : HsAlg -> string -> string -> string;
  StringToNumber : string -> option Z;
  (** the e-mail test of [z.string().email()] *)
  zod_isEmail : string -> bool;
  (** [bcrypt.compare(password, hash)] *)
  bcrypt_compare : string -> string -> bool
}.

(** [process.env] and the clock ([Date.now()], in milliseconds). *)
Record Runtime : Type := {
  env : gmap string string;
  now : Z
}.

(** [process.env.NAME || dflt] *)
Definition env_or (rt : Runtime) (name dflt : string) : string :=
  match env rt !! name with
  | Some s => if is_empty s then dflt else s
  | None => dflt
  end.

(** [Math.floor(Date.now() / 1000)] *)
Definition clock_seconds (rt : Runtime) : Z := now rt / 1000.

(** ** Number conversions of JavaScript *)

Module Coerce.

Definition digit_char (d : Z) : ascii := ascii_of_nat (Z.to_nat (48 + d)).

Fixpoint digits_of (fuel : nat) (n : Z) (acc : string) : string :=
  match fuel with
  | O => acc
  | S f =>
      let acc' := String (digit_char (n mod 10)) acc in
      if n <? 10 then acc' else digits_of f (n / 10) acc'
  end.

(** [String(n)] for an integer. *)
Definition Number_toString (n : Z) : string :=
  if n <? 0 then String "-" (digits_of (Z.to_nat (Z.log2 (- n)) + 1) (- n) EmptyString)
  else digits_of (Z.to_nat (Z.log2 n) + 1) n EmptyString.

(** [String(v)], as the [*] operator computes it for an array or object
    operand (ToPrimitive): the elements of an array joined by commas, with
    [null] elements empty. *)
Fixpoint toString (v : json) : string :=
  match v with
  | JNull => "null"
  | JBool true => "true"
  | JBool false => "false"
  | JNum n => Number_toString n
  | JStr s => s
  | JArr items =>
      (fix join (l : list json) : string :=
         match l with
         | [] => EmptyString
         | x :: r =>
             let sx := match x with JNull => EmptyString | _ => toString x end in
             match r with
             | [] => sx
             | _ :: _ => sx ++ "," ++ join r
             end
         end) items
  | JObj _ => "[object Object]"
  end.

Section WithPlatform.
Context `{Platform}.

(** ToNumber; [None] is NaN. *)
Definition toNumber (v : value) : option Z :=
  match v with
  | Undefined => None
  | NativeFn _ => None
  | Json JNull => Some 0
  | Json (JBool b) => Some (if b then 1 else 0)
  | Json (JNum n) => Some n
  | Json (JStr s) => StringToNumber s
  | Json j => StringToNumber (toString j)
  end.

End WithPlatform.
End Coerce.

(** ** lib/auth/jwt.ts (with the [jsonwebtoken] calls it makes) *)

Module Jwt.

(** [interface JWTPayload] *)
Record JWTPayload : Type := {
  sub : string;
  email : string;
  name : option string;
  iat : option Z;
  exp : option Z
}.

(** [HS_ALGS.indexOf(header.alg) !== -1] *)
Definition alg_of_value (v : value) : option HsAlg :=
  match v with
  | Json (JStr s) =>
      if String.eqb s "HS256" then Some HS256
      else if String.eqb s "HS384" then Some HS384
      else if String.eqb s "HS512" then Some HS512
      else None
  | _ => None
  end.

(** The character class [[a-zA-Z0-9\-_]] of the compact serialization. *)
Definition jws_char (c : ascii) : bool :=
  let n := nat_of_ascii c in
  (((48 <=? n) && (n <=? 57)) || ((65 <=? n) && (n <=? 90))
   || ((97 <=? n) && (n <=? 122)) || (n =? 45) || (n =? 95))%nat.

Fixpoint all_chars (f : ascii -> bool) (s : string) : bool :=
  match s with
  | EmptyString => true
  | String c r => f c && all_chars f r
  end.

(** Non-empty header and payload segments and a possibly empty signature
    segment, all over the base64url alphabet. *)
Definition jws_format (parts : list string) : bool :=
  match parts with
  | [h; p; s] =>
      negb (is_empty h) && all_chars jws_char h
      && negb (is_empty p) && all_chars jws_char p
      && all_chars jws_char s
  | _ => false
  end.

Section WithPlatform.
Context `{Platform}.

(** The claims object that [jwt.sign] serializes: the caller's fields, then
    [iat] and [exp]. *)
Definition claims_object (p : JWTPayload) (issued expires : Z) : json :=
  JObj ([("sub", JStr (sub p)); ("email", JStr (email p))]
        ++ match name p with Some n => [("name", JStr n)] | None => [] end
        ++ [("iat", JNum issued); ("exp", JNum expires)]).

Definition jose_header : json :=
  JObj [("alg", JStr "HS256"); ("typ", JStr "JWT")].

Definition signature_of (a : HsAlg) (secret signing_input : string) : string :=
  base64url_encode (hmac_digest a secret signing_input).

(** The compact serialization [header.payload.signature]. *)
Definition jws_sign (header payload : json) (secret : string) : string :=
  let h := base64url_encode (JSON_stringify header) in
  let p := base64url_encode (JSON_stringify payload) in
  h ++ "." ++ p ++ "." ++ signature_of HS256 secret (h ++ "." ++ p).

(** Modelled from the spec: [jwt.sign] of the npm package [jsonwebtoken],
    which jwt.ts imports and which is not among the repository's sources.
    As section 4.1 of the specification has it, the claims get
    [issuedAt = now] and [expiresAt = now + lifetime] and are serialized
    and signed with the secret, the HMAC binding every field.  This is
    [jwt.sign(payload, secret, { expiresIn })] for an object payload and a
    number (or NaN) as [expiresIn]: the package refuses an [exp] in the
    payload next to [expiresIn], refuses a NaN, and takes a non-zero [iat]
    of the payload as the time of issue. *)
Definition jwt_sign (rt : Runtime) (p : JWTPayload) (secret : string)
    (expiresIn : option Z) : result string :=
  if is_empty secret then Throw "secretOrPrivateKey must have a value"
  else
    match exp p with
    | Some _ => Throw "the payload already has an exp property"
    | None =>
        match expiresIn with
        | None => Throw "expiresIn should be a number of seconds"
        | Some span =>
            let timestamp :=
              match iat p with
              | Some i => if i =? 0 then clock_seconds rt else i
              | None => clock_seconds rt
              end in
            Ok (jws_sign jose_header
                  (claims_object p timestamp (timestamp + span)) secret)
        end
    end.

(** [jwt.decode(token, { complete: true })]: the header and the payload, or
    [null]. *)
Definition jwt_decode (token : string) : result (option (json * json)) :=
  let parts := split "." token in
  if negb (jws_format parts) then Ok None
  else
    match parts with
    | [h; p; _] =>
        match JSON_parse (base64_decode h) with
        | None => Ok None
        | Some header =>
            if negb (truthy (Json header)) then Ok None
            else
              let* typ := get_prop header "typ" in
              let raw := base64_decode p in
              let* payload :=
                match typ with
                | Json (JStr "JWT") => of_option (JSON_parse raw) "SyntaxError"
                | _ => Ok (JStr raw)
                end in
              Ok (Some (header,
                        match payload with
                        | JStr s =>
                            match JSON_parse s with
                            | Some (JObj f) => JObj f
                            | Some (JArr l) => JArr l
                            | _ => payload
                            end
                        | _ => payload
                        end))
        end
    | _ => Ok None
    end.

(** Modelled from the spec: [jwt.verify] of the same package.  As section
    4.1 has it, the signature is recomputed with the secret and a mismatch
    is refused, and so is a token with [now >= expiresAt].  This is
    [jwt.verify(token, secret)] with no options: the format, the algorithm
    of the header among HS256, HS384 and HS512, the signature, then the
    [nbf] and [exp] claims against the clock.  The package does not look
    at [sub] or [email]. *)
Definition jwt_verify (rt : Runtime) (token secret : string) : result json :=
  if is_empty token then Throw "jwt must be provided"
  else
    match split "." token with
    | [h; p; s] =>
        let* decoded := jwt_decode token in
        match decoded with
        | None => Throw "invalid token"
        | Some (header, payload) =>
            if is_empty (trim s) then Throw "jwt signature is required"
            else
              let* alg := get_prop header "alg" in
              match alg_of_value alg with
              | None => Throw "invalid algorithm"
              | Some a =>
                  if negb (String.eqb s (signature_of a secret (h ++ "." ++ p)))
                  then Throw "invalid signature"
                  else
                    let* nbf := get_prop payload "nbf" in
                    let* nbf_ok :=
                      (if is_defined nbf then
                         match is_number nbf with
                         | None => Throw "invalid nbf value"
                         | Some n =>
                             if n >? clock_seconds rt then Throw "jwt not active"
                             else Ok tt
                         end
                       else Ok tt) in
                    let* expiry := get_prop payload "exp" in
                    let* exp_ok :=
                      (if is_defined expiry then
                         match is_number expiry with
                         | None => Throw "invalid exp value"
                         | Some e =>
                             if clock_seconds rt >=? e then Throw "jwt expired"
                             else Ok tt
                         end
                       else Ok tt) in
                    Ok payload
              end
        end
    | _ => Throw "jwt malformed"
    end.

(** [createToken(payload)] *)
Definition createToken (rt : Runtime) (payload : JWTPayload) : result string :=
  let secret := env rt !! "JWT_SECRET" in
  let expiresIn := env_or rt "JWT_EXPIRES_IN" "86400" in
  match secret with
  | Some s =>
      if is_empty s
      then Throw "JWT_SECRET is not defined in environment variables"
      else jwt_sign rt payload s (parseInt expiresIn)
  | None => Throw "JWT_SECRET is not defined in environment variables"
  end.

(** [verifyToken(token)]: throws without a secret; otherwise the decoded
    payload, or [null] ([None]) for whatever [jwt.verify] throws. *)
Definition verifyToken (rt : Runtime) (token : string) : result (option json) :=
  let secret := env rt !! "JWT_SECRET" in
  match secret with
  | Some s =>
      if is_empty s
      then Throw "JWT_SECRET is not defined in environment variables"
      else
        Ok (catch (let* decoded := jwt_verify rt token s in Ok (Some decoded))
              None)
  | None => Throw "JWT_SECRET is not defined in environment variables"
  end.

End WithPlatform.
End Jwt.

(** ** lib/auth/edge-jwt.ts *)

Module EdgeJwt.

(** The object literal that [simpleVerifyToken] returns. *)
Record Claims : Type := {
  sub : value;
  email : value;
  name : value;
  iat : value;
  exp : value
}.

Section WithPlatform.
Context `{Platform}.

(** Lines 51-56: base64url to base64, padding, [atob], [JSON.parse]. *)
Definition decode_segment (seg : string) : result json :=
  let base64 := replace_all "_" "/" (replace_all "-" "+" seg) in
  let len := String.length base64 in
  let paddedBase64 := padEnd base64 (len + (4 - len mod 4) mod 4)%nat "=" in
  let* decoded := of_option (atob paddedBase64) "InvalidCharacterError" in
  of_option (JSON_parse decoded) "SyntaxError".

(** [Date.now() >= payload.exp * 1000]; a comparison with NaN is false. *)
Definition expired_at (rt : Runtime) (expiry : value) : bool :=
  match Coerce.toNumber expiry with
  | Some e => now rt >=? e * 1000
  | None => false
  end.

(** [simpleVerifyToken(token)] *)
Definition simpleVerifyToken (rt : Runtime) (token : string) : option Claims :=
  catch
    (let parts := split "." token in
     if negb (length parts =? 3)%nat then Ok None
     else
       match parts with
       | [_; seg; _] =>
           let* payload := decode_segment seg in
           let* p_sub := get_prop payload "sub" in
           let* p_email := get_prop payload "email" in
           if negb (truthy p_sub) || negb (truthy p_email) then Ok None
           else
             let* p_exp := get_prop payload "exp" in
             if truthy p_exp && expired_at rt p_exp then Ok None
             else
               let* p_name := get_prop payload "name" in
               let* p_iat := get_prop payload "iat" in
               Ok (Some {| sub := p_sub; email := p_email; name := p_name;
                           iat := p_iat; exp := p_exp |})
       | _ => Ok None
       end)
    None.

End WithPlatform.
End EdgeJwt.

(** ** Requests and responses (next/server) *)

Module Http.

Inductive SameSite : Type := Strict | Lax | NoneSite.

(** The attributes given to [response.cookies.set]; [maxAge] is [None]
    when the number is NaN. *)
Record CookieOptions : Type := {
  httpOnly : bool;
  secure : bool;
  maxAge : option Z;
  path : string;
  sameSite : SameSite
}.

Record Cookie : Type := {
  value : string;
  options : CookieOptions
}.

(** A problem reported by [safeParse]: a value of the wrong type at a path,
    or the failure of a check with its configured message. *)
Inductive Issue : Type :=
| InvalidType (at_path : string)
| Invalid (at_path msg : string).

(** The JSON bodies that the handlers send. *)
Inductive Body : Type :=
| ErrorBody (error : string)
| InvalidInput (details : list Issue)
| LoginOk (id email : string) (name : option string)
| AuthStatus (authenticated : bool) (userId email : JS.value)
| AuthStatusError (error : string)
| Profile (id email : string) (name : option string) (createdAt : Z).

Record Response : Type := {
  status : Z;
  body : Body;
  cookies : gmap string Cookie
}.

(** [NextResponse.json(body, { status })] *)
Definition json_response (b : Body) (code : Z) : Response :=
  {| status := code; body := b; cookies := ∅ |}.

(** [response.cookies.set({ name, ...attributes })] *)
Definition set_cookie (n : string) (c : Cookie) (r : Response) : Response :=
  {| status := status r; body := body r; cookies := <[n := c]> (cookies r) |}.

(** A request: the path of [nextUrl], the headers (names in lower case),
    the cookies, and the JSON body ([None] when [request.json()] rejects). *)
Record Request : Type := {
  pathname : string;
  headers : gmap string string;
  req_cookies : gmap string string;
  req_json : option json
}.

(** [request.headers.get(name)]: header names are case-insensitive. *)
Definition headers_get (r : Request) (n : string) : option string :=
  headers r !! toLowerCase n.

(** [if (s)] for a string that may be [null]. *)
Definition present (o : option string) : option string :=
  match o with
  | Some s => if is_empty s then None else Some s
  | None => None
  end.

End Http.

Import Http.

(** ** lib/auth/cookies.ts *)

Module Cookies.

Definition TOKEN_NAME : string := "auth_token".

(** [parseInt(process.env.JWT_EXPIRES_IN || '86400')] *)
Definition COOKIE_MAX_AGE (rt : Runtime) : option Z :=
  parseInt (env_or rt "JWT_EXPIRES_IN" "86400").

(** [process.env.NODE_ENV === 'production'] *)
Definition is_production (rt : Runtime) : bool :=
  match env rt !! "NODE_ENV" with
  | Some s => String.eqb s "production"
  | None => false
  end.

Definition COOKIE_OPTIONS (rt : Runtime) : CookieOptions :=
  {| httpOnly := true;
     secure := is_production rt;
     maxAge := COOKIE_MAX_AGE rt;
     path := "/";
     sameSite := Lax |}.

(** [setAuthCookie(token, response)]: the cookie
    [{ name: TOKEN_NAME, value: token, ...COOKIE_OPTIONS }] *)
Definition setAuthCookie (rt : Runtime) (token : string) (response : Response)
    : Response :=
  set_cookie TOKEN_NAME {| value := token; options := COOKIE_OPTIONS rt |}
    response.

(** [getAuthCookie(request)]: [cookies.get(TOKEN_NAME)?.value || null] *)
Definition getAuthCookie (request : Request) : option string :=
  present (req_cookies request !! TOKEN_NAME).

End Cookies.

(** ** lib/auth/middleware.ts *)

Module AuthMiddleware.

Definition TOKEN_NAME : string := "auth_token".

Definition getAuthCookie (request : Request) : option string :=
  present (req_cookies request !! TOKEN_NAME).

Section WithPlatform.
Context `{Platform}.

(** [isAuthenticated(request)]:
    [token ? !!simpleVerifyToken(token) : false] *)
Definition isAuthenticated (rt : Runtime) (request : Request) : bool :=
  match getAuthCookie request with
  | Some token =>
      match EdgeJwt.simpleVerifyToken rt token with
      | Some _ => true
      | None => false
      end
  | None => false
  end.

End WithPlatform.
End AuthMiddleware.

(** ** middleware.ts: the route guard *)

Module Middleware.

Definition protectedRoutes : list string := ["/dashboard"].

Definition authRoutes : list string := ["/"; "/signin"; "/signup"].

(** [NextResponse.next()] or [NextResponse.redirect(new URL(target, request.url))] *)
Inductive Outcome : Type :=
| Next
| Redirect (target : string).

(** [pathname === route || pathname.startsWith(`${route}/`)] *)
Definition matches (pathname route : string) : bool :=
  String.eqb pathname route || startsWith (route ++ "/") pathname.

(** [routes.some((route) => ...)] *)
Definition some_route (routes : list string) (pathname : string) : bool :=
  existsb (matches pathname) routes.

Section WithPlatform.
Context `{Platform}.

Definition middleware (rt : Runtime) (request : Request) : Outcome :=
  let pathname := pathname request in
  if startsWith "/api/" pathname then Next
  else
    let userIsAuthenticated := AuthMiddleware.isAuthenticated rt request in
    let isProtectedRoute := some_route protectedRoutes pathname in
    let isAuthRoute := some_route authRoutes pathname in
    if isAuthRoute && userIsAuthenticated then Redirect "/dashboard"
    else if isProtectedRoute && negb userIsAuthenticated then Redirect "/signin"
    else Next.

End WithPlatform.
End Middleware.

(** ** lib/auth/rate-limiter.ts (with the [limiter] class it instantiates) *)

Module RateLimit.

Definition ATTEMPTS_PER_MINUTE : Z := 5.
Definition WINDOW_SIZE_MS : Z := 60 * 1000.

Definition Qltb (a b : Q) : bool := negb (Qle_bool b a).

(** Modelled from the spec: the class [RateLimiter] of the npm package
    [limiter], which rate-limiter.ts imports and which is not among the
    repository's sources.  Section 4.4 of the specification describes its
    token bucket: on each call the bucket gains
    [elapsed * (capacity / window)] tokens, capped at the capacity, the
    refill time becomes the current time, and one token is taken if one is
    available.  Besides the bucket the class counts the tokens handed out
    in the current interval and, being constructed with
    [fireImmediately: true], answers [-1] at once when that count has
    reached the capacity.

    The options are those of [checkRateLimit] and never change, so they
    are the constants above: [tokensPerInterval] and the bucket size are
    [ATTEMPTS_PER_MINUTE] and [interval] is [WINDOW_SIZE_MS].  The mutable
    fields are the bucket's [content] and [lastDrip] and the limiter's
    [curIntervalStart] and [tokensThisInterval].  The content is a
    floating-point number in the package and a rational here.  The package
    reads a monotonic clock in milliseconds; only differences of times
    matter, so the clock of the process stands for it. *)
Record RateLimiter : Type := {
  content : Q;
  lastDrip : Z;
  curIntervalStart : Z;
  tokensThisInterval : Z
}.

(** [new RateLimiter({ tokensPerInterval, interval, fireImmediately })]:
    the bucket starts full. *)
Definition new_RateLimiter (now : Z) : RateLimiter :=
  {| content := inject_Z ATTEMPTS_PER_MINUTE;
     lastDrip := now;
     curIntervalStart := now;
     tokensThisInterval := 0 |}.

(** [TokenBucket.drip()] *)
Definition drip (now : Z) (l : RateLimiter) : RateLimiter :=
  let deltaMS := Z.max (now - lastDrip l) 0 in
  let dripAmount :=
    (inject_Z deltaMS
     * (inject_Z ATTEMPTS_PER_MINUTE / inject_Z WINDOW_SIZE_MS))%Q in
  {| content := Qmin (content l + dripAmount) (inject_Z ATTEMPTS_PER_MINUTE);
     lastDrip := now;
     curIntervalStart := curIntervalStart l;
     tokensThisInterval := tokensThisInterval l |}.

(** [TokenBucket.removeTokens(count)]: drip, then take the tokens, or sleep
    until the missing tokens have dripped and try again.  The result is
    the remaining content, the limiter and the time at which the promise
    settles; [None] when more than [retries] sleeps would be needed. *)
Fixpoint bucket_removeTokens (retries : nat) (count : Z) (now : Z)
    (l : RateLimiter) : option (Q * RateLimiter * Z) :=
  let l1 := drip now l in
  if Qltb (content l1) (inject_Z count) then
    match retries with
    | O => None
    | S r =>
        let waitMs :=
          Qceiling ((inject_Z count - content l1)
                    * (inject_Z WINDOW_SIZE_MS / inject_Z ATTEMPTS_PER_MINUTE))%Q in
        bucket_removeTokens r count (now + waitMs) l1
    end
  else
    let c := (content l1 - inject_Z count)%Q in
    Some (c,
          {| content := c;
             lastDrip := lastDrip l1;
             curIntervalStart := curIntervalStart l1;
             tokensThisInterval := tokensThisInterval l1 |},
          now).

(** [RateLimiter.removeTokens(count)] *)
Definition removeTokens (retries : nat) (count : Z) (now : Z) (l : RateLimiter)
    : option (result (Q * RateLimiter * Z)) :=
  if count >? ATTEMPTS_PER_MINUTE
  then Some (Throw "Requested tokens exceeds maximum tokens per interval")
  else
    let l1 :=
      if (now <? curIntervalStart l) || (now - curIntervalStart l >=? WINDOW_SIZE_MS)
      then {| content := content l;
              lastDrip := lastDrip l;
              curIntervalStart := now;
              tokensThisInterval := 0 |}
      else l in
    if count >? ATTEMPTS_PER_MINUTE - tokensThisInterval l1
    then Some (Ok ((-1)%Q, l1, now))
    else
      match bucket_removeTokens retries count now l1 with
      | None => None
      | Some (remainingTokens, l2, settled) =>
          Some (Ok (remainingTokens,
                    {| content := content l2;
                       lastDrip := lastDrip l2;
                       curIntervalStart := curIntervalStart l2;
                       tokensThisInterval := tokensThisInterval l2 + count |},
                    settled))
      end.

Definition too_many : Response :=
  json_response (ErrorBody "Too many login attempts. Please try again later.") 429.

(** [checkRateLimit(request, identifier)] on the module's [limiters] map:
    the response ([None] is [null], the request is allowed), the map after
    the call and the time at which the call settles. *)
Definition checkRateLimit (retries : nat) (now : Z)
    (limiters : gmap string RateLimiter) (identifier : string)
    : option (result (option Response) * gmap string RateLimiter * Z) :=
  let limiters1 :=
    match limiters !! identifier with
    | Some _ => limiters
    | None => <[identifier := new_RateLimiter now]> limiters
    end in
  match limiters1 !! identifier with
  | None => Some (Throw "TypeError: limiter is undefined", limiters1, now)
  | Some limiter =>
      match removeTokens retries 1 now limiter with
      | None => None
      | Some (Throw m) => Some (Throw m, limiters1, now)
      | Some (Ok (remainingRequests, limiter', settled)) =>
          let limiters2 := <[identifier := limiter']> limiters1 in
          if Qltb remainingRequests 0
          then Some (Ok (Some too_many), limiters2, settled)
          else Some (Ok None, limiters2, settled)
      end
  end.

(** [getClientIp(request)] of rate-limiter.ts *)
Definition getClientIp (request : Request) : string :=
  match present (headers_get request "x-forwarded-for") with
  | Some forwarded => trim (hd EmptyString (split "," forwarded))
  | None =>
      match present (headers_get request "cf-connecting-ip") with
      | Some cfConnectingIp => trim cfConnectingIp
      | None => "unknown"
      end
  end.

End RateLimit.

(** ** lib/auth/index.ts *)

Module AuthIndex.

(** [export * from './rate-limiter'] re-exports the names of
    rate-limiter.ts that index.ts does not export itself. *)
Definition checkRateLimit := RateLimit.checkRateLimit.

(** index.ts declares and exports its own [getClientIp]; a local export
    takes precedence over a name that [export *] would bring, so this is
    the function that [import { getClientIp } from '@/lib/auth'] yields. *)
Definition getClientIp (request : Request) : string :=
  match present (headers_get request "x-forwarded-for") with
  | Some forwarded => trim (hd EmptyString (split "," forwarded))
  | None => "unknown-ip"
  end.

End AuthIndex.

(** ** The user store (Prisma) and the state of the server process *)

Module Store.

Record User : Type := {
  id : string;
  email : string;
  name : option string;
  hashedPassword : string;
  createdAt : Z
}.

Inductive Lookup : Type :=
| ByEmail (email : string)
| ById (id : string).

(** The state that outlives a request: the [limiters] map of
    rate-limiter.ts and the user table, with the journal of the queries
    sent to it; [available] is false when the store fails its queries. *)
Record Server : Type := {
  limiters : gmap string RateLimit.RateLimiter;
  users : list User;
  available : bool;
  journal : list Lookup
}.

Definition with_limiters (st : Server) (l : gmap string RateLimit.RateLimiter)
    : Server :=
  {| limiters := l; users := users st; available := available st;
     journal := journal st |}.

Definition selects (q : Lookup) (u : User) : bool :=
  match q with
  | ByEmail e => String.eqb (email u) e
  | ById i => String.eqb (id u) i
  end.

(** [prisma.user.findUnique({ where })]: the query is recorded, and either
    fails or yields the matching user or [null]. *)
Definition findUnique (st : Server) (q : Lookup) : result (option User) * Server :=
  let st' := {| limiters := limiters st; users := users st;
                available := available st; journal := (journal st ++ [q])%list |} in
  (if available st then Ok (List.find (selects q) (users st))
   else Throw "PrismaClientKnownRequestError",
   st').

End Store.

Import Store.

(** ** app/api/auth/login/route.ts *)

Module Login.

Section WithPlatform.
Context `{Platform}.

(** [z.string().email('Invalid email address')] *)
Definition email_field (v : option json) : list Issue + string :=
  match v with
  | Some (JStr e) =>
      if zod_isEmail e then inr e
      else inl [Invalid "email" "Invalid email address"]
  | _ => inl [InvalidType "email"]
  end.

(** [z.string().min(1, 'Password is required')] *)
Definition password_field (v : option json) : list Issue + string :=
  match v with
  | Some (JStr p) =>
      if (1 <=? String.length p)%nat then inr p
      else inl [Invalid "password" "Password is required"]
  | _ => inl [InvalidType "password"]
  end.

Definition issues_of {A} (r : list Issue + A) : list Issue :=
  match r with inl l => l | inr _ => [] end.

(** [loginSchema.safeParse(body)]: the e-mail and the password, or the
    issues of both fields. *)
Definition loginSchema (body : json) : list Issue + (string * string) :=
  match body with
  | JObj fields =>
      let email := email_field (assoc_last "email" fields) in
      let password := password_field (assoc_last "password" fields) in
      match email, password with
      | inr e, inr p => inr (e, p)
      | _, _ => inl (issues_of email ++ issues_of password)%list
      end
  | _ => inl [InvalidType EmptyString]
  end.

Definition failed : Response :=
  json_response (ErrorBody "Authentication failed") 500.

Definition bad_credentials : Response :=
  json_response (ErrorBody "Invalid email or password") 401.

(** The cookie that the handler sets besides the token's, for the pages
    to tell the signed-in state. *)
Definition state_cookie (rt : Runtime) : Cookie :=
  {| value := "authenticated";
     options :=
       {| maxAge := parseInt (env_or rt "JWT_EXPIRES_IN" "86400");
          path := "/";
          sameSite := Lax;
          httpOnly := false;
          secure := Cookies.is_production rt |} |}.

(** Lines 295-355: what the handler does once the rate check has let the
    request through. *)
Definition authenticate (rt : Runtime) (st : Server) (request : Request)
    : Response * Server :=
  match req_json request with
  | None => (failed, st)
  | Some body =>
      match loginSchema body with
      | inl issues => (json_response (InvalidInput issues) 400, st)
      | inr (email, password) =>
          let '(found, st1) := findUnique st (ByEmail email) in
          match found with
          | Throw _ => (failed, st1)
          | Ok None => (bad_credentials, st1)
          | Ok (Some user) =>
              if negb (bcrypt_compare password (hashedPassword user))
              then (bad_credentials, st1)
              else
                match Jwt.createToken rt
                        {| Jwt.sub := Store.id user;
                           Jwt.email := Store.email user;
                           Jwt.name := present (Store.name user);
                           Jwt.iat := None;
                           Jwt.exp := None |} with
                | Throw _ => (failed, st1)
                | Ok token =>
                    let response :=
                      json_response
                        (LoginOk (Store.id user) (Store.email user) (Store.name user))
                        200 in
                    let response := Cookies.setAuthCookie rt token response in
                    (set_cookie "auth_state" (state_cookie rt) response, st1)
                end
          end
      end
  end.

(** [POST(request)]: the rate check first; [None] when the rate limiter
    would have to sleep more than [retries] times. *)
Definition POST (retries : nat) (rt : Runtime) (st : Server) (request : Request)
    : option (Response * Server) :=
  let clientIp := AuthIndex.getClientIp request in
  match AuthIndex.checkRateLimit retries (now rt) (limiters st)
          ("login_" ++ clientIp) with
  | None => None
  | Some (checked, limiters', settled) =>
      let st1 := with_limiters st limiters' in
      match checked with
      | Throw _ => Some (failed, st1)
      | Ok (Some rateLimitResponse) => Some (rateLimitResponse, st1)
      | Ok None =>
          Some (authenticate {| env := env rt; now := settled |} st1 request)
      end
  end.

End WithPlatform.
End Login.

(** ** app/api/auth/check/route.ts *)

Module CheckRoute.

Section WithPlatform.
Context `{Platform}.

(** Lines 20-29: the token of the cookie, or else of an
    [Authorization: Bearer] header. *)
Definition token_of (request : Request) : option string :=
  match Cookies.getAuthCookie request with
  | Some token => Some token
  | None =>
      match present (headers_get request "Authorization") with
      | Some authHeader =>
          if startsWith "Bearer " authHeader
          then present (Some (substring_from 7 authHeader))
          else None
      | None => None
      end
  end.

Definition not_authenticated : Response :=
  json_response (AuthStatus false Undefined Undefined) 401.

(** [GET(request)] *)
Definition GET (rt : Runtime) (request : Request) : Response :=
  match token_of request with
  | None => not_authenticated
  | Some token =>
      catch
        (let* verified := Jwt.verifyToken rt token in
         match verified with
         | None => Ok not_authenticated
         | Some payload =>
             if negb (truthy (Json payload)) then Ok not_authenticated
             else
               let* p_sub := get_prop payload "sub" in
               if negb (truthy p_sub) then Ok not_authenticated
               else
                 let* p_email := get_prop payload "email" in
                 Ok (json_response (AuthStatus true p_sub p_email) 200)
         end)
        (json_response (AuthStatusError "Authentication check failed") 500)
  end.

End WithPlatform.
End CheckRoute.

(** ** app/api/auth/me/route.ts *)

Module MeRoute.

Section WithPlatform.
Context `{Platform}.

(** Lines 21-30, as in the check route. *)
Definition token_of (request : Request) : option string :=
  match Cookies.getAuthCookie request with
  | Some token => Some token
  | None =>
      match present (headers_get request "Authorization") with
      | Some authHeader =>
          if startsWith "Bearer " authHeader
          then present (Some (substring_from 7 authHeader))
          else None
      | None => None
      end
  end.

Definition invalid_token : Response :=
  json_response (ErrorBody "Invalid token") 401.

(** [GET(request)] *)
Definition GET (rt : Runtime) (st : Server) (request : Request)
    : Response * Server :=
  let failure := json_response (ErrorBody "Failed to get current user") 500 in
  match token_of request with
  | None => (json_response (ErrorBody "Unauthorized") 401, st)
  | Some token =>
      match Jwt.verifyToken rt token with
      | Throw _ => (failure, st)
      | Ok None => (invalid_token, st)
      | Ok (Some payload) =>
          if negb (truthy (Json payload)) then (invalid_token, st)
          else
            match get_prop payload "sub" with
            | Throw _ => (failure, st)
            | Ok p_sub =>
                if negb (truthy p_sub) then (invalid_token, st)
                else
                  match p_sub with
                  | Json (JStr i) =>
                      let '(found, st1) := findUnique st (ById i) in
                      match found with
                      | Throw _ => (failure, st1)
                      | Ok None =>
                          (json_response (ErrorBody "User not found") 404, st1)
                      | Ok (Some user) =>
                          (json_response
                             (Profile (Store.id user) (Store.email user)
                                (Store.name user) (createdAt user)) 200, st1)
                      end
                  | _ => (failure, st)
                  end
            end
      end
  end.

End WithPlatform.
End MeRoute.

(** ** A reference platform

    Executable versions of the built-ins, used to run the code on concrete
    tokens and requests: base64 and base64url, [atob], [JSON.stringify] and
    [JSON.parse] on the JSON values of the embedding (integral numbers),
    HMAC with SHA-256, SHA-384 and SHA-512, and simple stand-ins for the
    string-to-number conversion, the e-mail test and the password
    comparison. *)

Module Reference.

(** *** base64 *)

Definition sextet_char (url : bool) (n : nat) : ascii :=
  if (n <? 26)%nat then ascii_of_nat (65 + n)
  else if (n <? 52)%nat then ascii_of_nat (97 + (n - 26))
  else if (n <? 62)%nat then ascii_of_nat (48 + (n - 52))
  else if (n =? 62)%nat then (if url then "-" else "+")%char
  else (if url then "_" else "/")%char.

(** The value of a character of the alphabet; [both] accepts the two
    alphabets, as the decoder of [Buffer] does. *)
Definition char_sextet (both : bool) (c : ascii) : option nat :=
  let n := nat_of_ascii c in
  if ((65 <=? n) && (n <=? 90))%nat then Some (n - 65)%nat
  else if ((97 <=? n) && (n <=? 122))%nat then Some (n - 97 + 26)%nat
  else if ((48 <=? n) && (n <=? 57))%nat then Some (n - 48 + 52)%nat
  else if (n =? 43)%nat then Some 62%nat
  else if (n =? 47)%nat then Some 63%nat
  else if both && (n =? 45)%nat then Some 62%nat
  else if both && (n =? 95)%nat then Some 63%nat
  else None.

Fixpoint sextets_of_bytes (l : list nat) : list nat :=
  (match l with
   | a :: b :: c :: r =>
       a / 4 :: (a mod 4) * 16 + b / 16 :: (b mod 16) * 4 + c / 64 :: c mod 64
       :: sextets_of_bytes r
   | [a; b] => [a / 4; (a mod 4) * 16 + b / 16; (b mod 16) * 4]
   | [a] => [a / 4; (a mod 4) * 16]
   | [] => []
   end)%nat.

Fixpoint bytes_of_sextets (l : list nat) : list nat :=
  (match l with
   | a :: b :: c :: d :: r =>
       a * 4 + b / 16 :: (b mod 16) * 16 + c / 4 :: (c mod 4) * 64 + d
       :: bytes_of_sextets r
   | [a; b; c] => [a * 4 + b / 16; (b mod 16) * 16 + c / 4]
   | [a; b] => [a * 4 + b / 16]
   | _ => []
   end)%nat.

Definition bytes_of_string (s : string) : list nat :=
  map nat_of_ascii (list_ascii_of_string s).

Definition string_of_bytes (l : list nat) : string :=
  string_of_list_ascii (map ascii_of_nat l).

Definition base64url_encode (s : string) : string :=
  string_of_list_ascii
    (map (sextet_char true) (sextets_of_bytes (bytes_of_string s))).

(** Characters outside the alphabets are skipped. *)
Definition base64_decode (s : string) : string :=
  string_of_bytes
    (bytes_of_sextets
       (omap (char_sextet true) (list_ascii_of_string s))).

Fixpoint all_some {A} (l : list (option A)) : option (list A) :=
  match l with
  | [] => Some []
  | Some a :: r =>
      match all_some r with Some r' => Some (a :: r') | None => None end
  | None :: _ => None
  end.

Definition strip_padding (l : list ascii) : list ascii :=
  if (length l mod 4 =? 0)%nat then
    match rev l with
    | "="%char :: "="%char :: r => rev r
    | "="%char :: r => rev r
    | _ => l
    end
  else l.

(** TAB, LF, FF, CR and SP. *)
Definition ascii_whitespace (c : ascii) : bool :=
  let n := nat_of_ascii c in
  ((n =? 9) || (n =? 10) || (n =? 12) || (n =? 13) || (n =? 32))%nat.

(** [atob]: the forgiving base64 decoding of the HTML standard. *)
Definition atob (s : string) : option string :=
  let data :=
    strip_padding
      (filter (fun c => negb (ascii_whitespace c)) (list_ascii_of_string s)) in
  if (length data mod 4 =? 1)%nat then None
  else
    match all_some (map (char_sextet false) data) with
    | Some sextets => Some (string_of_bytes (bytes_of_sextets sextets))
    | None => None
    end.

(** *** JSON text *)

Definition hex_digit (n : nat) : ascii :=
  if (n <? 10)%nat then ascii_of_nat (48 + n) else ascii_of_nat (87 + n).

Definition dquote : string := String "034" EmptyString.

Definition escape_char (c : ascii) : string :=
  let n := nat_of_ascii c in
  if (n =? 34)%nat then String "\" dquote
  else if (n =? 92)%nat then "\\"
  else if (n =? 8)%nat then "\b"
  else if (n =? 12)%nat then "\f"
  else if (n =? 10)%nat then "\n"
  else if (n =? 13)%nat then "\r"
  else if (n =? 9)%nat then "\t"
  else if (n <? 32)%nat
       then "\u00" ++ String (hex_digit (n / 16)) (String (hex_digit (n mod 16)) EmptyString)
  else String c EmptyString.

Fixpoint escape (s : string) : string :=
  match s with
  | EmptyString => EmptyString
  | String c r => escape_char c ++ escape r
  end.

Definition quote (s : string) : string := dquote ++ escape s ++ dquote.

Fixpoint JSON_stringify (v : json) : string :=
  match v with
  | JNull => "null"
  | JBool true => "true"
  | JBool false => "false"
  | JNum n => Coerce.Number_toString n
  | JStr s => quote s
  | JArr items =>
      "[" ++
      (fix elems (l : list json) : string :=
         match l with
         | [] => EmptyString
         | x :: r =>
             JSON_stringify x ++
             match r with [] => EmptyString | _ :: _ => "," ++ elems r end
         end) items
      ++ "]"
  | JObj fields =>
      "{" ++
      (fix members (l : list (string * json)) : string :=
         match l with
         | [] => EmptyString
         | (k, x) :: r =>
             quote k ++ ":" ++ JSON_stringify x ++
             match r with [] => EmptyString | _ :: _ => "," ++ members r end
         end) fields
      ++ "}"
  end.

Definition is_json_space (c : ascii) : bool :=
  let n := nat_of_ascii c in
  ((n =? 32) || (n =? 9) || (n =? 10) || (n =? 13))%nat.

Fixpoint skip_space (s : string) : string :=
  match s with
  | String c r => if is_json_space c then skip_space r else s
  | EmptyString => EmptyString
  end.

Definition hex_value (c : ascii) : option nat :=
  match digit_value 16 c with
  | Some d => Some (Z.to_nat d)
  | None => None
  end.

(** The characters of a string literal after its opening quote, and the
    text after its closing quote. *)
Fixpoint parse_chars (s : string) : option (string * string) :=
  match s with
  | EmptyString => None
  | String c r =>
      let n := nat_of_ascii c in
      if (n =? 34)%nat then Some (EmptyString, r)
      else if (n <? 32)%nat then None
      else if (n =? 92)%nat then
        match r with
        | String e r1 =>
            let simple (b : nat) :=
              match parse_chars r1 with
              | Some (t, rest) => Some (String (ascii_of_nat b) t, rest)
              | None => None
              end in
            let m := nat_of_ascii e in
            if (m =? 34)%nat then simple 34%nat
            else if (m =? 92)%nat then simple 92%nat
            else if (m =? 47)%nat then simple 47%nat
            else if (m =? 98)%nat then simple 8%nat
            else if (m =? 102)%nat then simple 12%nat
            else if (m =? 110)%nat then simple 10%nat
            else if (m =? 114)%nat then simple 13%nat
            else if (m =? 116)%nat then simple 9%nat
            else if (m =? 117)%nat then
              match r1 with
              | String h1 (String h2 (String h3 (String h4 r2))) =>
                  match hex_value h1, hex_value h2, hex_value h3, hex_value h4,
                        parse_chars r2 with
                  | Some 0%nat, Some 0%nat, Some a, Some b, Some (t, rest) =>
                      Some (String (ascii_of_nat (a * 16 + b)) t, rest)
                  | _, _, _, _, _ => None
                  end
              | _ => None
              end
            else None
        | EmptyString => None
        end
      else
        match parse_chars r with
        | Some (t, rest) => Some (String c t, rest)
        | None => None
        end
  end.

Fixpoint take_digits (s : string) : string * string :=
  match s with
  | String c r =>
      match digit_value 10 c with
      | Some _ => let '(d, rest) := take_digits r in (String c d, rest)
      | None => (EmptyString, s)
      end
  | EmptyString => (EmptyString, EmptyString)
  end.

(** An integer literal: an optional minus sign and digits without a
    leading zero; a fraction or an exponent is refused. *)
Definition parse_number (s : string) : option (Z * string) :=
  let '(negative, s1) :=
    match s with
    | String "-" r => (true, r)
    | _ => (false, s)
    end in
  let '(digits, rest) := take_digits s1 in
  let leading_zero :=
    match digits with
    | String "0" (String _ _) => true
    | _ => false
    end in
  let continues :=
    match rest with
    | String "." _ => true
    | String "e" _ => true
    | String "E" _ => true
    | _ => false
    end in
  if leading_zero || continues then None
  else
    match parse_digits 10 None digits with
    | Some v => Some (if negative then - v else v, rest)
    | None => None
    end.

Definition expect (word : string) (v : json) (s : string)
    : option (json * string) :=
  if startsWith word s then Some (v, substring_from (String.length word) s)
  else None.

Fixpoint parse_value (fuel : nat) (s : string) : option (json * string) :=
  match fuel with
  | O => None
  | S f =>
      match skip_space s with
      | EmptyString => None
      | String c r as s1 =>
          let n := nat_of_ascii c in
          if (n =? 110)%nat then expect "null" JNull s1
          else if (n =? 116)%nat then expect "true" (JBool true) s1
          else if (n =? 102)%nat then expect "false" (JBool false) s1
          else if (n =? 34)%nat then
            match parse_chars r with
            | Some (t, rest) => Some (JStr t, rest)
            | None => None
            end
          else if (n =? 91)%nat then
            match skip_space r with
            | String "]" rest => Some (JArr [], rest)
            | _ =>
                match parse_elements f r with
                | Some (items, rest) => Some (JArr items, rest)
                | None => None
                end
            end
          else if (n =? 123)%nat then
            match skip_space r with
            | String "}" rest => Some (JObj [], rest)
            | _ =>
                match parse_members f r with
                | Some (fields, rest) => Some (JObj fields, rest)
                | None => None
                end
            end
          else
            match parse_number s1 with
            | Some (v, rest) => Some (JNum v, rest)
            | None => None
            end
      end
  end

with parse_elements (fuel : nat) (s : string) : option (list json * string) :=
  match fuel with
  | O => None
  | S f =>
      match parse_value f s with
      | Some (x, rest) =>
          match skip_space rest with
          | String "]" rest1 => Some ([x], rest1)
          | String "," rest1 =>
              match parse_elements f rest1 with
              | Some (xs, rest2) => Some (x :: xs, rest2)
              | None => None
              end
          | _ => None
          end
      | None => None
      end
  end

with parse_members (fuel : nat) (s : string)
    : option (list (string * json) * string) :=
  match fuel with
  | O => None
  | S f =>
      match skip_space s with
      | String "034" r =>
          match parse_chars r with
          | Some (k, rest) =>
              match skip_space rest with
              | String ":" rest1 =>
                  match parse_value f rest1 with
                  | Some (x, rest2) =>
                      match skip_space rest2 with
                      | String "}" rest3 => Some ([(k, x)], rest3)
                      | String "," rest3 =>
                          match parse_members f rest3 with
                          | Some (m, rest4) => Some ((k, x) :: m, rest4)
                          | None => None
                          end
                      | _ => None
                      end
                  | None => None
                  end
              | _ => None
              end
          | None => None
          end
      | _ => None
      end
  end.

(** [JSON.parse]: one value and nothing but white space after it. *)
Definition JSON_parse (s : string) : option json :=
  match parse_value (2 * String.length s + 2) s with
  | Some (v, rest) => if is_empty (skip_space rest) then Some v else None
  | None => None
  end.

(** *** Stand-ins *)

(** StringToNumber on decimal integers; the empty string is 0 and anything
    else is NaN. *)
Definition StringToNumber (s : string) : option Z :=
  let t := trim s in
  if is_empty t then Some 0
  else
    let '(sign, u) :=
      match t with
      | String "-" r => (-1, r)
      | String "+" r => (1, r)
      | _ => (1, t)
      end in
    let '(digits, rest) := take_digits u in
    if is_empty rest then
      match parse_digits 10 None digits with
      | Some v => Some (sign * v)
      | None => None
      end
    else None.

(** *** SHA-2 and HMAC (FIPS 180-4, RFC 2104) *)

Module Sha2.

(** The first [n] primes, by trial division. *)
Fixpoint primes_from (fuel n : nat) (k : Z) (found : list Z) : list Z :=
  match fuel, n with
  | O, _ => rev found
  | _, O => rev found
  | S f, S m =>
      if forallb (fun q => negb (k mod q =? 0)) found
      then primes_from f m (k + 1) (k :: found)
      else primes_from f n (k + 1) found
  end.

Definition primes (n : nat) : list Z := primes_from 1000 n 2 [].

(** The integer cube root, one bit at a time from bit [bits] down. *)
Fixpoint cbrt_bits (bits : nat) (x r : Z) : Z :=
  match bits with
  | O => r
  | S b =>
      let r' := r + 2 ^ Z.of_nat b in
      cbrt_bits b x (if r' * r' * r' <=? x then r' else r)
  end.

Definition cbrt (x : Z) : Z := cbrt_bits (Z.to_nat (Z.log2 x / 3 + 1)) x 0.

(** The first [w] bits of the fractional part of a square or cube root. *)
Definition frac_sqrt (w p : Z) : Z := Z.sqrt (p * 2 ^ (2 * w)) mod 2 ^ w.
Definition frac_cbrt (w p : Z) : Z := cbrt (p * 2 ^ (3 * w)) mod 2 ^ w.

(** The parameters of a hash of the family: the word size in bits, the
    round constants, the initial hash value, the rotation and shift
    amounts of the four sigma functions and the length of the digest in
    bytes. *)
Record Params : Type := {
  word_bits : Z;
  round_constants : list Z;
  initial_hash : list Z;
  big_sigma0 : Z * Z * Z;
  big_sigma1 : Z * Z * Z;
  small_sigma0 : Z * Z * Z;
  small_sigma1 : Z * Z * Z;
  digest_bytes : nat
}.

(** Round constants: cube roots of the first primes; initial values:
    square roots of the first eight primes, for SHA-384 of the next
    eight. *)
Definition roots (f : Z -> Z) (ps : list Z) : list Z := map f ps.

Definition sha256_constants : list Z :=
  Eval vm_compute in roots (frac_cbrt 32) (primes 64).
Definition sha256_initial : list Z :=
  Eval vm_compute in roots (frac_sqrt 32) (primes 8).
Definition sha512_constants : list Z :=
  Eval vm_compute in roots (frac_cbrt 64) (primes 80).
Definition sha512_initial : list Z :=
  Eval vm_compute in roots (frac_sqrt 64) (primes 8).
Definition sha384_initial : list Z :=
  Eval vm_compute in roots (frac_sqrt 64) (skipn 8 (primes 16)).

Definition sha256_params : Params :=
  {| word_bits := 32;
     round_constants := sha256_constants;
     initial_hash := sha256_initial;
     big_sigma0 := (2, 13, 22);
     big_sigma1 := (6, 11, 25);
     small_sigma0 := (7, 18, 3);
     small_sigma1 := (17, 19, 10);
     digest_bytes := 32 |}.

Definition sha512_params : Params :=
  {| word_bits := 64;
     round_constants := sha512_constants;
     initial_hash := sha512_initial;
     big_sigma0 := (28, 34, 39);
     big_sigma1 := (14, 18, 41);
     small_sigma0 := (1, 8, 7);
     small_sigma1 := (19, 61, 6);
     digest_bytes := 64 |}.

Definition sha384_params : Params :=
  {| word_bits := 64;
     round_constants := sha512_constants;
     initial_hash := sha384_initial;
     big_sigma0 := (28, 34, 39);
     big_sigma1 := (14, 18, 41);
     small_sigma0 := (1, 8, 7);
     small_sigma1 := (19, 61, 6);
     digest_bytes := 48 |}.

Section Hash.
Variable p : Params.

Definition modulus : Z := 2 ^ word_bits p.

Definition add (x y : Z) : Z := (x + y) mod modulus.

Definition rotr (n x : Z) : Z :=
  Z.lor (Z.shiftr x n) (Z.shiftl x (word_bits p - n) mod modulus).

Definition xor3 (x y z : Z) : Z := Z.lxor (Z.lxor x y) z.

(** Two rotations and a third rotation (for the capital sigmas) or a
    shift (for the small ones). *)
Definition Sigma (r : Z * Z * Z) (x : Z) : Z :=
  let '(a, b, c) := r in xor3 (rotr a x) (rotr b x) (rotr c x).

Definition sigma (r : Z * Z * Z) (x : Z) : Z :=
  let '(a, b, c) := r in xor3 (rotr a x) (rotr b x) (Z.shiftr x c).

Definition Ch (x y z : Z) : Z :=
  Z.lxor (Z.land x y) (Z.land (Z.lxor x (modulus - 1)) z).

Definition Maj (x y z : Z) : Z :=
  xor3 (Z.land x y) (Z.land x z) (Z.land y z).

(** Big-endian words. *)
Definition word_of_bytes (l : list Z) : Z :=
  fold_left (fun acc b => acc * 256 + b) l 0.

Fixpoint bytes_of_word (n : nat) (x : Z) : list Z :=
  match n with
  | O => []
  | S m => (bytes_of_word m (x / 256) ++ [x mod 256])%list
  end.

Definition word_bytes : nat := Z.to_nat (word_bits p / 8).
Definition block_bytes : nat := (16 * word_bytes)%nat.

(** The message, the byte 0x80, zeros, and the length in bits, up to a
    whole number of blocks. *)
Definition pad (msg : list Z) : list Z :=
  let len := length msg in
  let tail := (2 * word_bytes)%nat in
  let zeros :=
    ((block_bytes - (len + 1 + tail) mod block_bytes) mod block_bytes)%nat in
  (msg ++ [128] ++ repeat 0 zeros
   ++ bytes_of_word tail (8 * Z.of_nat len))%list.

Fixpoint chunks {A} (count size : nat) (l : list A) : list (list A) :=
  match count with
  | O => []
  | S c => firstn size l :: chunks c size (skipn size l)
  end.

(** The message schedule, latest word first. *)
Fixpoint extend (n : nat) (ws : list Z) : list Z :=
  match n with
  | O => ws
  | S m =>
      let w :=
        add (add (sigma (small_sigma1 p) (nth 1 ws 0)) (nth 6 ws 0))
            (add (sigma (small_sigma0 p) (nth 14 ws 0)) (nth 15 ws 0)) in
      extend m (w :: ws)
  end.

Definition schedule (block : list Z) : list Z :=
  let first := map word_of_bytes (chunks 16 word_bytes block) in
  rev (extend (length (round_constants p) - 16) (rev first)).

Definition round (h : list Z) (kw : Z * Z) : list Z :=
  match h with
  | [a; b; c; d; e; f; g; hh] =>
      let t1 :=
        add (add (add hh (Sigma (big_sigma1 p) e)) (Ch e f g))
            (add (fst kw) (snd kw)) in
      let t2 := add (Sigma (big_sigma0 p) a) (Maj a b c) in
      [add t1 t2; a; b; c; add d t1; e; f; g]
  | _ => h
  end.

Definition compress (h : list Z) (block : list Z) : list Z :=
  let h' := fold_left round (combine (round_constants p) (schedule block)) h in
  map (fun xy => add (fst xy) (snd xy)) (combine h h').

Definition hash (msg : list Z) : list Z :=
  let padded := pad msg in
  let blocks := chunks (length padded / block_bytes) block_bytes padded in
  firstn (digest_bytes p)
    (flat_map (bytes_of_word word_bytes) (fold_left compress blocks (initial_hash p))).

(** HMAC with this hash. *)
Definition hmac (key msg : list Z) : list Z :=
  let key1 := if (block_bytes <? length key)%nat then hash key else key in
  let key2 := (key1 ++ repeat 0 (block_bytes - length key1))%list in
  let inner := hash (map (Z.lxor 0x36) key2 ++ msg)%list in
  hash (map (Z.lxor 0x5c) key2 ++ inner)%list.

End Hash.
End Sha2.

Definition Z_bytes (s : string) : list Z := map Z.of_nat (bytes_of_string s).

Definition string_of_Z_bytes (l : list Z) : string :=
  string_of_bytes (map Z.to_nat l).

(** [crypto.createHmac('sha256' | 'sha384' | 'sha512', key)] *)
Definition hmac_digest (a : HsAlg) (key msg : string) : string :=
  let params :=
    match a with
    | HS256 => Sha2.sha256_params
    | HS384 => Sha2.sha384_params
    | HS512 => Sha2.sha512_params
    end in
  string_of_Z_bytes (Sha2.hmac params (Z_bytes key) (Z_bytes msg)).

(** One [@] with text before it and a dot inside the text after it. *)
Definition zod_isEmail (s : string) : bool :=
  match split "@" s with
  | [local; domain] =>
      negb (is_empty local)
      && match split "." domain with
         | a :: _ :: _ as labels => forallb (fun l => negb (is_empty l)) labels
         | _ => false
         end
  | _ => false
  end.

(** Password hashes are the passwords behind a fixed prefix. *)
Definition bcrypt_compare (password hash : string) : bool :=
  String.eqb ("$2b$10$" ++ password) hash.

#[global] Instance platform : Platform :=
  Build_Platform atob JSON_parse JSON_stringify base64_decode base64url_encode
    hmac_digest StringToNumber zod_isEmail bcrypt_compare.

End Reference.

(** ** Vocabulary of the specification *)

Module Spec.

Section WithPlatform.
Context `{Platform}.

(** The claims carry [k]: reading it gives a value that the checks
    [!payload.k] of the code let through. *)
Definition has_claim (payload : json) (k : string) : bool :=
  match get_prop payload k with
  | Ok v => truthy v
  | Throw _ => false
  end.

(** The claims have no field [k] at all. *)
Definition absent (payload : json) (k : string) : Prop :=
  get_prop payload k = Ok Undefined.

(** The request presents [token] in the session cookie. *)
Definition carries (request : Request) (token : string) : Prop :=
  req_cookies request !! "auth_token" = Some token.

(** A public-only route: ['/'], ['/signin'], ['/signup'] or a subpath, a
    path that continues one of them with a slash. *)
Definition public_only (pathname : string) : bool :=
  Middleware.matches pathname "/" || Middleware.matches pathname "/signin"
  || Middleware.matches pathname "/signup".

(** A protected route: ['/dashboard'] or a subpath of it. *)
Definition protected (pathname : string) : bool :=
  Middleware.matches pathname "/dashboard".

End WithPlatform.
End Spec.

(** ** Vocabulary of the specification: tokens *)

Module TokenSpec.

Section WithPlatform.
Context `{Platform}.

(** The platform's codec is right on [j]: the base64url segment of its
    JSON text is non-empty, is over the base64url alphabet, and decodes
    and parses back to [j]. *)
Definition segment_ok (j : json) : Prop :=
  let seg := base64url_encode (JSON_stringify j) in
  JSON_parse (base64_decode seg) = Some j
  /\ is_empty seg = false
  /\ Jwt.all_chars Jwt.jws_char seg = true.

(** The signature segment is non-empty base64url text. *)
Definition signature_ok (sig : string) : Prop :=
  Jwt.all_chars Jwt.jws_char sig = true /\ is_empty (trim sig) = false.

Definition well_encoded (header payload : json) (secret : string) : Prop :=
  segment_ok header /\ segment_ok payload
  /\ signature_ok
       (Jwt.signature_of HS256 secret
          (base64url_encode (JSON_stringify header) ++ "."
           ++ base64url_encode (JSON_stringify payload))).

(** The object literal [{ sub, email, name }] that the handlers pass to
    [createToken]. *)
Definition identity (sub email : string) (name : option string)
    : Jwt.JWTPayload :=
  {| Jwt.sub := sub; Jwt.email := email; Jwt.name := name;
     Jwt.iat := None; Jwt.exp := None |}.

End WithPlatform.
End TokenSpec.

(** ** Example data: HS256 tokens signed with the secret [s3cret] *)

Module Examples.

Definition server_env : gmap string string := {[ "JWT_SECRET" := "s3cret" ]}.

Definition at_time (ms : Z) : Runtime := {| env := server_env; now := ms |}.

(** The header [{"alg":"HS256","typ":"JWT"}] *)
Definition header_segment : string := "eyJhbGciOiJIUzI1NiIsInR5cCI6IkpXVCJ9".

(** 2023-11-14T22:13:20Z *)
Definition t0 : Z := 1700000000000.

(** A process without a signing secret. *)
Definition without_secret (ms : Z) : Runtime := {| env := ∅; now := ms |}.

(** Claims [{"sub":"u1","email":"a@b.c"}] *)
Definition claims_without_exp : string :=
  "eyJzdWIiOiJ1MSIsImVtYWlsIjoiYUBiLmMifQ".
Definition signature_without_exp : string :=
  "5Hq2l8fi2uk_qNju1SYOa-F29CheydXMLeYnWCBpFhg".
Definition token_without_exp : string :=
  header_segment ++ "." ++ claims_without_exp ++ "." ++ signature_without_exp.

(** Claims [{"sub":"u1","email":"a@b.c","exp":0}] *)
Definition claims_exp_zero : string :=
  "eyJzdWIiOiJ1MSIsImVtYWlsIjoiYUBiLmMiLCJleHAiOjB9".
Definition signature_exp_zero : string :=
  "XreVlwGnVScY1b1HZdi0d0m_btxW8-PcGAKtHQHga7I".
Definition token_exp_zero : string :=
  header_segment ++ "." ++ claims_exp_zero ++ "." ++ signature_exp_zero.

(** Claims [{"email":"a@b.c","iat":1700000000,"exp":1700086400}] *)
Definition claims_without_sub : string :=
  "eyJlbWFpbCI6ImFAYi5jIiwiaWF0IjoxNzAwMDAwMDAwLCJleHAiOjE3MDAwODY0MDB9".
Definition signature_without_sub : string :=
  "A7gARK8pXEEwvtutpU4cDkW2noaBdF1Kjmhk8KCN_-U".
Definition token_without_sub : string :=
  header_segment ++ "." ++ claims_without_sub ++ "." ++ signature_without_sub.


(** A process whose configured token lifetime is zero seconds. *)
Definition zero_lifetime : Runtime :=
  {| env := {[ "JWT_SECRET" := "s3cret"; "JWT_EXPIRES_IN" := "0" ]};
     now := t0 |}.

(** The token that [createToken] makes at [t0] in that process:
    claims [{"sub":"u1","email":"a@b.c","iat":1700000000,"exp":1700000000}] *)
Definition claims_born_expired : string :=
  "eyJzdWIiOiJ1MSIsImVtYWlsIjoiYUBiLmMiLCJpYXQiOjE3MDAwMDAwMDAsImV4cCI6MTcwMDAwMDAwMH0".
Definition signature_born_expired : string :=
  "PdiaPZs4lyz_xv8am3qej3oYrVB6KcHOJIZU2qIHLa4".
Definition token_born_expired : string :=
  header_segment ++ "." ++ claims_born_expired ++ "." ++ signature_born_expired.

(** A request for [path] that presents [token] in the session cookie. *)
Definition with_cookie (path token : string) : Request :=
  {| pathname := path;
     headers := ∅;
     req_cookies := {[ "auth_token" := token ]};
     req_json := None |}.

(** A request for [path] without cookies. *)
Definition anonymous (path : string) : Request :=
  {| pathname := path; headers := ∅; req_cookies := ∅; req_json := None |}.

End Examples.

(** ** Example data: users and requests *)

Module Scenario.

(** A registered user whose password is [correct horse]. *)
Definition alice : User :=
  {| Store.id := "u1";
     Store.email := "alice@example.com";
     Store.name := Some "Alice";
     hashedPassword := "$2b$10$correct horse";
     createdAt := 1690000000000 |}.

(** A server that has seen no login yet. *)
Definition fresh : Server :=
  {| limiters := ∅; users := [alice]; available := true; journal := [] |}.

Definition credentials (email password : string) : json :=
  JObj [("email", JStr email); ("password", JStr password)].

(** A login request with the given headers. *)
Definition login_request (hs : gmap string string) (payload : json) : Request :=
  {| pathname := "/api/auth/login";
     headers := hs;
     req_cookies := ∅;
     req_json := Some payload |}.

(** Behind a proxy that names the client. *)
Definition from_client : gmap string string :=
  {[ "x-forwarded-for" := "203.0.113.7, 10.0.0.1" ]}.

(** Behind Cloudflare only. *)
Definition from_cloudflare : gmap string string :=
  {[ "cf-connecting-ip" := "198.51.100.4" ]}.

Definition good_login (hs : gmap string string) : Request :=
  login_request hs (credentials "alice@example.com" "correct horse").

Definition bad_login (hs : gmap string string) : Request :=
  login_request hs (credentials "alice@example.com" "wrong").

(** The token that a successful login of [alice] at [Examples.t0] sets. *)
Definition alice_token : string :=
  Eval vm_compute in
    match Jwt.createToken (Examples.at_time Examples.t0)
            (TokenSpec.identity "u1" "alice@example.com" (Some "Alice")) with
    | Ok token => token
    | Throw _ => EmptyString
    end.

End Scenario.

(** ** Vocabulary of the specification: the rate governor *)

Module RateSpec.

(** The limiter is in the interval that started at [start], has handed out
    [used] tokens in it, and its bucket holds at least what the interval
    still allows. *)
Definition in_window (l : RateLimit.RateLimiter) (start used : Z) : Prop :=
  RateLimit.curIntervalStart l = start
  /\ RateLimit.tokensThisInterval l = used
  /\ (inject_Z (RateLimit.ATTEMPTS_PER_MINUTE - used) <= RateLimit.content l)%Q.

(** The bucket of the identity is exhausted at time [t]: the interval is
    still running and its five tokens have been handed out. *)
Definition exhausted (l : RateLimit.RateLimiter) (t : Z) : Prop :=
  RateLimit.curIntervalStart l <= t
  /\ t - RateLimit.curIntervalStart l < RateLimit.WINDOW_SIZE_MS
  /\ RateLimit.ATTEMPTS_PER_MINUTE <= RateLimit.tokensThisInterval l.

(** Calls of [checkRateLimit] for one identity at the given times, one
    after the other; the answers in order. *)
Fixpoint answers (retries : nat) (limiters : gmap string RateLimit.RateLimiter)
    (identifier : string) (times : list Z)
    : option (list (result (option Response))) :=
  match times with
  | [] => Some []
  | t :: later =>
      match RateLimit.checkRateLimit retries t limiters identifier with
      | None => None
      | Some (answer, limiters', _) =>
          match answers retries limiters' identifier later with
          | Some rest => Some (answer :: rest)
          | None => None
          end
      end
  end.

End RateSpec.

(** ** Vocabulary of the specification: login attempts *)

Module LoginSpec.

Section WithPlatform.
Context `{Platform}.

(** Login requests handled one after the other at the given times by a
    process with the environment [e]: the responses in order and the state
    of the server afterwards. *)
Fixpoint attempts (retries : nat) (e : gmap string string) (st : Server)
    (calls : list (Z * Request)) : option (list Response * Server) :=
  match calls with
  | [] => Some ([], st)
  | (t, request) :: later =>
      match Login.POST retries {| env := e; now := t |} st request with
      | None => None
      | Some (response, st1) =>
          match attempts retries e st1 later with
          | Some (responses, st2) => Some (response :: responses, st2)
          | None => None
          end
      end
  end.

(** The identity under which the login handler counts the request. *)
Definition identity (request : Request) : string :=
  "login_" ++ AuthIndex.getClientIp request.

End WithPlatform.
End LoginSpec.

(** ** lib/auth/password.ts *)

Module Password.

(** [bcrypt.hash(password, rounds)], which draws a salt: the hash is a
    function of the password, the rounds and the salt drawn. *)
Class Bcrypt : Type := {
  bcrypt_hash : string -> Z -> string -> string
}.

(** [hashPassword(password)], with the salt that [bcrypt.hash] draws *)
Definition hashPassword `{Bcrypt} (salt password : string) : string :=
  let saltRounds := 10 in
  bcrypt_hash password saltRounds salt.

(** [comparePassword(password, hashedPassword)] *)
Definition comparePassword `{Platform} (password hashedPassword : string)
    : bool :=
  bcrypt_compare password hashedPassword.

(** The stand-in that goes with [Reference.bcrypt_compare]. *)
#[global] Instance reference : Bcrypt :=
  {| bcrypt_hash password rounds salt :=
       "$2b$" ++ Coerce.Number_toString rounds ++ "$" ++ password |}.

End Password.

(** ** app/api/auth/signup/route.ts *)

Module Signup.

(** The JSON bodies that the handler sends. *)
Inductive Body : Type :=
| ErrorBody (error : string)
| InvalidInput (details : list Issue)
| Created (id email : string) (name : option string).

Record Response : Type := {
  status : Z;
  body : Body;
  cookies : gmap string Cookie
}.

(** [NextResponse.json(body, { status })] *)
Definition json_response (b : Body) (code : Z) : Response :=
  {| status := code; body := b; cookies := ∅ |}.

(** [setAuthCookie(token, response)] of cookies.ts on a response of this
    handler: [response.cookies.set({ name: TOKEN_NAME, value: token,
    ...COOKIE_OPTIONS })]. *)
Definition setAuthCookie (rt : Runtime) (token : string) (response : Response)
    : Response :=
  {| status := status response;
     body := body response;
     cookies :=
       <[Cookies.TOKEN_NAME :=
           {| value := token; options := Cookies.COOKIE_OPTIONS rt |}]>
         (cookies response) |}.

(** What is drawn while a request is handled: the salt of [bcrypt.hash],
    and the identity and the creation time that the store gives the new
    record. *)
Record Draw : Type := {
  salt : string;
  new_id : string;
  created_at : Z
}.

(** Modelled from the spec: [prisma.user.create({ data })].  The store and
    its schema are not among the repository's sources; section 1 of the
    specification has a [create] operation that returns the record with its
    identity and creation time.  The handlers look users up with
    [findUnique] by [email] and by [id], which Prisma allows for unique
    fields only, so a record whose e-mail or identity is taken is refused. *)
Definition create (st : Server) (u : User) : result User * Server :=
  if negb (available st) then (Throw "PrismaClientKnownRequestError", st)
  else if existsb (fun v => String.eqb (Store.email v) (Store.email u)
                            || String.eqb (Store.id v) (Store.id u)) (users st)
  then (Throw "Unique constraint failed", st)
  else (Ok u, {| limiters := limiters st; users := (users st ++ [u])%list;
                 available := available st; journal := journal st |}).

Section WithPlatform.
Context `{Platform} `{Password.Bcrypt}.

(** [z.string().min(8, 'Password must be at least 8 characters')] *)
Definition password_field (v : option json) : list Issue + string :=
  match v with
  | Some (JStr p) =>
      if (8 <=? String.length p)%nat then inr p
      else inl [Invalid "password" "Password must be at least 8 characters"]
  | _ => inl [InvalidType "password"]
  end.

(** [z.string().optional()] *)
Definition name_field (v : option json) : list Issue + option string :=
  match v with
  | None => inr None
  | Some (JStr n) => inr (Some n)
  | Some _ => inl [InvalidType "name"]
  end.

(** [signupSchema.safeParse(body)] *)
Definition signupSchema (body : json)
    : list Issue + (string * string * option string) :=
  match body with
  | JObj fields =>
      let email := Login.email_field (assoc_last "email" fields) in
      let password := password_field (assoc_last "password" fields) in
      let name := name_field (assoc_last "name" fields) in
      match email, password, name with
      | inr e, inr p, inr n => inr (e, p, n)
      | _, _, _ =>
          inl (Login.issues_of email ++ Login.issues_of password
               ++ Login.issues_of name)%list
      end
  | _ => inl [InvalidType EmptyString]
  end.

Definition failed : Response :=
  json_response (ErrorBody "Failed to create user") 500.

Definition conflict : Response :=
  json_response (ErrorBody "User with this email already exists") 409.

(** [POST(request)] *)
Definition POST (rt : Runtime) (draw : Draw) (st : Server) (request : Request)
    : Response * Server :=
  match req_json request with
  | None => (failed, st)
  | Some body =>
      match signupSchema body with
      | inl issues => (json_response (InvalidInput issues) 400, st)
      | inr (email, password, name) =>
          let '(existingUser, st1) := findUnique st (ByEmail email) in
          match existingUser with
          | Throw _ => (failed, st1)
          | Ok (Some _) => (conflict, st1)
          | Ok None =>
              let hashedPassword :=
                Password.hashPassword (salt draw) password in
              let '(created, st2) :=
                create st1 {| Store.id := new_id draw;
                              Store.email := email;
                              Store.name := name;
                              Store.hashedPassword := hashedPassword;
                              createdAt := created_at draw |} in
              match created with
              | Throw _ => (failed, st2)
              | Ok user =>
                  match Jwt.createToken rt
                          {| Jwt.sub := Store.id user;
                             Jwt.email := Store.email user;
                             Jwt.name := present (Store.name user);
                             Jwt.iat := None;
                             Jwt.exp := None |} with
                  | Throw _ => (failed, st2)
                  | Ok token =>
                      let response :=
                        json_response
                          (Created (Store.id user) (Store.email user)
                             (Store.name user)) 201 in
                      (setAuthCookie rt token response, st2)
                  end
              end
          end
      end
  end.

(** The e-mail, the password and the name of a request whose body passes
    the schema. *)
Definition applicant (request : Request)
    : option (string * string * option string) :=
  match req_json request with
  | Some body =>
      match signupSchema body with
      | inr x => Some x
      | inl _ => None
      end
  | None => None
  end.

(** The record that the handler asks the store to create. *)
Definition record (draw : Draw) (e p : string) (n : option string) : User :=
  {| Store.id := new_id draw;
     Store.email := e;
     Store.name := n;
     Store.hashedPassword := Password.hashPassword (salt draw) p;
     createdAt := created_at draw |}.

(** The record is new to the store: neither its e-mail nor its identity
    is taken. *)
Definition vacant (st : Server) (u : User) : bool :=
  negb (existsb (fun v => String.eqb (Store.email v) (Store.email u)
                          || String.eqb (Store.id v) (Store.id u)) (users st)).

End WithPlatform.
End Signup.

(** ** app/api/auth/logout/route.ts (with [deleteAuthCookie] of cookies.ts) *)

Module Logout.

(** What a response tells the browser about a cookie: to keep it with its
    attributes, or to drop it. *)
Inductive Instruction : Type :=
| Keep (c : Cookie)
| Expire.

(** The JSON bodies that the handler sends. *)
Inductive Body : Type :=
| LoggedOut (message : string)
| ErrorBody (error : string).

Record Response : Type := {
  status : Z;
  body : Body;
  cookies : gmap string Instruction
}.

(** [NextResponse.json(body, { status })] *)
Definition json_response (b : Body) (code : Z) : Response :=
  {| status := code; body := b; cookies := ∅ |}.

(** Modelled from the spec: [response.cookies.delete(name)] of
    [next/server], which is not among the repository's sources.  Section
    4.3 of the specification has the cookie set to empty and expired, which
    makes the browser drop it. *)
Definition cookies_delete (n : string) (response : Response) : Response :=
  {| status := status response;
     body := body response;
     cookies := <[n := Expire]> (cookies response) |}.

(** [deleteAuthCookie(response)] of cookies.ts *)
Definition deleteAuthCookie (response : Response) : Response :=
  cookies_delete Cookies.TOKEN_NAME response.

(** [POST()]: the handler takes no request.  Nothing in its [try] block
    throws, so the 500 of its [catch] is never sent. *)
Definition POST : Response :=
  let response := json_response (LoggedOut "Logged out successfully") 200 in
  let response := deleteAuthCookie response in
  cookies_delete "auth_state" response.

End Logout.

(** ** Vocabulary of the further properties *)

Module GuardSpec.

(** The same browser asking for another path: the cookies, the headers and
    the body are those of [request]. *)
Definition revisit (request : Request) (target : string) : Request :=
  {| pathname := target;
     headers := headers request;
     req_cookies := req_cookies request;
     req_json := req_json request |}.

End GuardSpec.

Module EdgeSpec.

(** A segment of a token: a string without a dot. *)
Definition segment (s : string) : Prop :=
  Jwt.all_chars (fun c => negb (Ascii.eqb c ".")) s = true.

Section WithPlatform.
Context `{Platform}.

(** The platform's [atob] and [JSON.parse] are right on the claims segment
    that the platform's encoder makes of [claims], as lines 51-56 of
    edge-jwt.ts decode it. *)
Definition decodes (claims : json) : Prop :=
  EdgeJwt.decode_segment (base64url_encode (JSON_stringify claims)) = Ok claims.

End WithPlatform.
End EdgeSpec.

Module BucketSpec.

(** The bounds of a limiter: the bucket holds between nothing and the
    capacity, and the interval has handed out between none and all of its
    tokens. *)
Definition bounded (l : RateLimit.RateLimiter) : Prop :=
  (0 <= RateLimit.content l)%Q
  /\ (RateLimit.content l <= inject_Z RateLimit.ATTEMPTS_PER_MINUTE)%Q
  /\ 0 <= RateLimit.tokensThisInterval l <= RateLimit.ATTEMPTS_PER_MINUTE.

(** The longest sleep of a call for one token: the time in which one token
    drips, [WINDOW_SIZE_MS / ATTEMPTS_PER_MINUTE]. *)
Definition longest_wait : Z :=
  RateLimit.WINDOW_SIZE_MS / RateLimit.ATTEMPTS_PER_MINUTE.

End BucketSpec.

Module LoginCases.

Section WithPlatform.
Context `{Platform}.

(** The user that a login request names, when its body passes the schema:
    the e-mail, the password and what the store finds. *)
Definition named_user (st : Server) (request : Request)
    : option (string * string * option User) :=
  match req_json request with
  | Some body =>
      match Login.loginSchema body with
      | inr (e, p) => Some (e, p, List.find (selects (ByEmail e)) (users st))
      | inl _ => None
      end
  | None => None
  end.

End WithPlatform.
End LoginCases.

(** ** Example data of the further properties *)

Module Cases.

(** A request that presents [token] in the session cookie and, besides,
    the advisory marker, a bearer header and a body. *)
Definition decorated (path token : string) : Request :=
  {| pathname := path;
     headers := {[ "authorization" := "Bearer " ++ token ]};
     req_cookies :=
       {[ "auth_token" := token; "auth_state" := "authenticated" ]};
     req_json := Some JNull |}.

(** The claims of [Scenario.alice_token]. *)
Definition alice_claims : json :=
  JObj [("sub", JStr "u1"); ("email", JStr "alice@example.com");
        ("name", JStr "Alice"); ("iat", JNum 1700000000);
        ("exp", JNum 1700086400)].

Definition client : string := "login_203.0.113.7".

(** A limiter whose interval started at [start] and has handed out its
    five tokens. *)
Definition spent (start : Z) : RateLimit.RateLimiter :=
  {| RateLimit.content := 0;
     RateLimit.lastDrip := start;
     RateLimit.curIntervalStart := start;
     RateLimit.tokensThisInterval := 5 |}.

(** The limiters of a process in which [client] has used up the interval
    that started at [Examples.t0]. *)
Definition locked_out : gmap string RateLimit.RateLimiter :=
  {[ client := spent Examples.t0 ]}.

(** The limiters after the first call for [client] at [Examples.t0]. *)
Definition after_first_call : gmap string RateLimit.RateLimiter :=
  match RateLimit.checkRateLimit 0 Examples.t0 ∅ client with
  | Some (_, limiters, _) => limiters
  | None => ∅
  end.

(** What the login handler answers to [request] on the server
    [Scenario.fresh] at [Examples.t0], and the server afterwards. *)
Definition login (request : Request) : Response * Server :=
  match Login.POST 0 (Examples.at_time Examples.t0) Scenario.fresh request with
  | Some answer => answer
  | None => (Login.failed, Scenario.fresh)
  end.

(** A server without users. *)
Definition deserted : Server :=
  {| limiters := ∅; users := []; available := true; journal := [] |}.

(** A signup request. *)
Definition signup_request (email password name : string) : Request :=
  {| pathname := "/api/auth/signup";
     headers := ∅;
     req_cookies := ∅;
     req_json := Some (JObj [("email", JStr email); ("password", JStr password);
                             ("name", JStr name)]) |}.

Definition bob : Request :=
  signup_request "bob@example.com" "hunter2hunter2" "Bob".

Definition draw : Signup.Draw :=
  {| Signup.salt := "N9qo8uLOickgx2ZMRZoMye";
     Signup.new_id := "u2";
     Signup.created_at := Examples.t0 |}.

Definition redraw : Signup.Draw :=
  {| Signup.salt := "ZMRZoMyeN9qo8uLOickgx2";
     Signup.new_id := "u3";
     Signup.created_at := Examples.t0 + 1000 |}.

(** What the signup handler answers to [bob] on [Scenario.fresh] at
    [Examples.t0], and the server afterwards. *)
Definition signup : Signup.Response * Server :=
  Signup.POST (Examples.at_time Examples.t0) draw Scenario.fresh bob.

End Cases.

(** * Properties *)

(** ** Facts about the string helpers *)

(** A string without the separator is its own single segment. *)
Lemma split_no_sep (sep : ascii) (s : string) :
  Jwt.all_chars (fun c => negb (Ascii.eqb c sep)) s = true ->
  split sep s = [s].
Proof.
  induction s as [|c r IH]; simpl; [reflexivity|].
  intros Hc. apply andb_true_iff in Hc as [Hc Hr].
  apply negb_true_iff in Hc. rewrite Hc, (IH Hr). reflexivity.
Qed.

(** Splitting after a first segment that has no separator. *)
Lemma split_app (sep : ascii) (a b : string) :
  Jwt.all_chars (fun c => negb (Ascii.eqb c sep)) a = true ->
  split sep (a ++ String sep b) = a :: split sep b.
Proof.
  induction a as [|c r IH]; simpl.
  - intros _. rewrite Ascii.eqb_refl. reflexivity.
  - intros Hc. apply andb_true_iff in Hc as [Hc Hr].
    apply negb_true_iff in Hc. rewrite Hc, (IH Hr). reflexivity.
Qed.

Lemma all_chars_weaken (f g : ascii -> bool) (s : string) :
  (forall c, f c = true -> g c = true) ->
  Jwt.all_chars f s = true -> Jwt.all_chars g s = true.
Proof.
  intros Hfg. induction s as [|c r IH]; simpl; [reflexivity|].
  intros Hc. apply andb_true_iff in Hc as [Hc Hr].
  rewrite (Hfg _ Hc), (IH Hr). reflexivity.
Qed.

(** The dot is not a character of a segment. *)
Lemma jws_char_not_dot (c : ascii) :
  Jwt.jws_char c = true -> negb (Ascii.eqb c ".") = true.
Proof.
  intros Hc. destruct (Ascii.eqb c ".") eqn:E; [|reflexivity].
  apply Ascii.eqb_eq in E. subst c. discriminate Hc.
Qed.

Lemma jws_segment_no_dot (s : string) :
  Jwt.all_chars Jwt.jws_char s = true ->
  Jwt.all_chars (fun c => negb (Ascii.eqb c ".")) s = true.
Proof. apply all_chars_weaken, jws_char_not_dot. Qed.

(** The three segments of a compact serialization. *)
Lemma split_token (h p s : string) :
  Jwt.all_chars Jwt.jws_char h = true ->
  Jwt.all_chars Jwt.jws_char p = true ->
  Jwt.all_chars Jwt.jws_char s = true ->
  split "." (h ++ "." ++ p ++ "." ++ s) = [h; p; s].
Proof.
  intros Hh Hp Hs.
  change (h ++ "." ++ p ++ "." ++ s)
    with (h ++ String "." (p ++ String "." s)).
  rewrite split_app by now apply jws_segment_no_dot.
  rewrite split_app by now apply jws_segment_no_dot.
  rewrite split_no_sep by now apply jws_segment_no_dot.
  reflexivity.
Qed.

Lemma some_route_auth (pathname : string) :
  Middleware.some_route Middleware.authRoutes pathname = Spec.public_only pathname.
Proof.
  unfold Middleware.some_route, Middleware.authRoutes, Spec.public_only.
  simpl existsb. rewrite orb_false_r, orb_assoc. reflexivity.
Qed.

Lemma some_route_protected (pathname : string) :
  Middleware.some_route Middleware.protectedRoutes pathname
  = Spec.protected pathname.
Proof.
  unfold Middleware.some_route, Middleware.protectedRoutes, Spec.protected.
  simpl existsb. apply orb_false_r.
Qed.

(** ** The constrained check (edge-jwt.ts) *)

Section ConstrainedCheck.
Context `{Platform}.

Lemma simpleVerifyToken_segments (rt : Runtime) (token : string) :
  length (split "." token) <> 3%nat ->
  EdgeJwt.simpleVerifyToken rt token = None.
Proof.
  intros Hlen. unfold EdgeJwt.simpleVerifyToken.
  destruct (length (split "." token) =? 3)%nat eqn:E.
  - apply Nat.eqb_eq in E. contradiction.
  - reflexivity.
Qed.

(** The check of a three-segment token whose claims segment decodes. *)
Lemma simpleVerifyToken_decoded (rt : Runtime) (token h seg s : string)
    (payload : json) :
  split "." token = [h; seg; s] ->
  EdgeJwt.decode_segment seg = Ok payload ->
  EdgeJwt.simpleVerifyToken rt token =
  catch
    (let* p_sub := get_prop payload "sub" in
     let* p_email := get_prop payload "email" in
     if negb (truthy p_sub) || negb (truthy p_email) then Ok None
     else
       let* p_exp := get_prop payload "exp" in
       if truthy p_exp && EdgeJwt.expired_at rt p_exp then Ok None
       else
         let* p_name := get_prop payload "name" in
         let* p_iat := get_prop payload "iat" in
         Ok (Some {| EdgeJwt.sub := p_sub; EdgeJwt.email := p_email;
                     EdgeJwt.name := p_name; EdgeJwt.iat := p_iat;
                     EdgeJwt.exp := p_exp |}))
    None.
Proof.
  intros Hsplit Hdec. unfold EdgeJwt.simpleVerifyToken.
  rewrite Hsplit. simpl. rewrite Hdec. reflexivity.
Qed.

Lemma simpleVerifyToken_lacking (rt : Runtime) (token h seg s : string)
    (payload : json) :
  split "." token = [h; seg; s] ->
  EdgeJwt.decode_segment seg = Ok payload ->
  Spec.has_claim payload "sub" = false \/ Spec.has_claim payload "email" = false ->
  EdgeJwt.simpleVerifyToken rt token = None.
Proof.
  intros Hsplit Hdec Hlack.
  rewrite (simpleVerifyToken_decoded rt token h seg s payload Hsplit Hdec).
  unfold Spec.has_claim in Hlack.
  destruct (get_prop payload "sub") as [vs|]; simpl; [|reflexivity].
  destruct (get_prop payload "email") as [ve|]; simpl; [|reflexivity].
  destruct Hlack as [Hl|Hl]; rewrite Hl; simpl; [reflexivity|].
  rewrite orb_true_r. reflexivity.
Qed.

(** C6. The constrained check is secret-free and structural:
    [simpleVerifyToken] gives the same answer whatever the process
    environment holds (it reads no signing secret); it answers [null] for
    every string that does not split into exactly three dot-separated
    segments; and it answers [null] for every token whose decoded claims
    lack [sub] or lack [email]. *)
Theorem simpleVerifyToken_structural :
  (forall (rt rt' : Runtime) (token : string),
      now rt = now rt' ->
      EdgeJwt.simpleVerifyToken rt token = EdgeJwt.simpleVerifyToken rt' token)
  /\ (forall (rt : Runtime) (token : string),
         length (split "." token) <> 3%nat ->
         EdgeJwt.simpleVerifyToken rt token = None)
  /\ (forall (rt : Runtime) (token h seg s : string) (payload : json),
         split "." token = [h; seg; s] ->
         EdgeJwt.decode_segment seg = Ok payload ->
         Spec.has_claim payload "sub" = false
         \/ Spec.has_claim payload "email" = false ->
         EdgeJwt.simpleVerifyToken rt token = None).
Proof.
  split; [|split].
  - intros rt rt' token Hnow.
    unfold EdgeJwt.simpleVerifyToken, EdgeJwt.expired_at.
    rewrite Hnow. reflexivity.
  - apply simpleVerifyToken_segments.
  - apply simpleVerifyToken_lacking.
Qed.

(** C9. The constrained check skips expiry when the claim is absent: a
    three-segment token whose decoded claims carry [sub] and [email] and
    have no [exp] field is accepted, with [exp] undefined in the result,
    whatever the time is; a request presenting it in the session cookie
    counts as authenticated, so that at any time the route guard never
    sends it to the sign-in page: it passes through, or is redirected to
    the dashboard from a public-only route. *)
Theorem simpleVerifyToken_without_exp
    (rt : Runtime) (token h seg s : string) (payload : json)
    (request : Request) :
  split "." token = [h; seg; s] ->
  EdgeJwt.decode_segment seg = Ok payload ->
  Spec.has_claim payload "sub" = true ->
  Spec.has_claim payload "email" = true ->
  Spec.absent payload "exp" ->
  Spec.carries request token ->
  (exists claims,
      EdgeJwt.simpleVerifyToken rt token = Some claims
      /\ get_prop payload "sub" = Ok (EdgeJwt.sub claims)
      /\ get_prop payload "email" = Ok (EdgeJwt.email claims)
      /\ EdgeJwt.exp claims = Undefined)
  /\ AuthMiddleware.isAuthenticated rt request = true
  /\ Middleware.middleware rt request
     = (if negb (startsWith "/api/" (pathname request))
           && Spec.public_only (pathname request)
        then Middleware.Redirect "/dashboard"
        else Middleware.Next).
Proof.
  intros Hsplit Hdec Hsub Hemail Hexp Hcookie.
  assert (Hacc : exists claims,
             EdgeJwt.simpleVerifyToken rt token = Some claims
             /\ get_prop payload "sub" = Ok (EdgeJwt.sub claims)
             /\ get_prop payload "email" = Ok (EdgeJwt.email claims)
             /\ EdgeJwt.exp claims = Undefined).
  { rewrite (simpleVerifyToken_decoded rt token h seg s payload Hsplit Hdec).
    unfold Spec.has_claim in Hsub, Hemail. unfold Spec.absent in Hexp.
    destruct (get_prop payload "sub") as [vs|] eqn:Es; [|discriminate].
    destruct (get_prop payload "email") as [ve|] eqn:Ee; [|discriminate].
    simpl. rewrite Hsub, Hemail, Hexp. simpl.
    assert (Hn : exists vn, get_prop payload "name" = Ok vn).
    { destruct payload; simpl in *; try discriminate; eauto. }
    assert (Hi : exists vi, get_prop payload "iat" = Ok vi).
    { destruct payload; simpl in *; try discriminate; eauto. }
    destruct Hn as [vn ->], Hi as [vi ->]. simpl.
    eexists. split; [reflexivity|]. simpl. auto. }
  assert (Hauth : AuthMiddleware.isAuthenticated rt request = true).
  { unfold AuthMiddleware.isAuthenticated, AuthMiddleware.getAuthCookie,
      AuthMiddleware.TOKEN_NAME.
    unfold Spec.carries in Hcookie. rewrite Hcookie. simpl.
    destruct token as [|c r]; [discriminate Hsplit|]. simpl.
    destruct Hacc as [claims [-> _]]. reflexivity. }
  split; [exact Hacc|]. split; [exact Hauth|].
  unfold Middleware.middleware. rewrite Hauth.
  rewrite some_route_auth, some_route_protected.
  destruct (startsWith "/api/" (pathname request)); [reflexivity|].
  simpl negb. rewrite !andb_true_r, andb_false_r, andb_true_l.
  destruct (Spec.public_only (pathname request)); reflexivity.
Qed.

End ConstrainedCheck.

(** ** The route guard (middleware.ts) *)

Section RouteGuard.
Context `{Platform}.

(** C5. The route guard as a state machine.  Every path that starts with
    [/api/] passes through whatever the authentication is.  For every
    other path: an authenticated request for a public-only route (['/'],
    ['/signin'], ['/signup'] or a path below one of them) is redirected to
    [/dashboard]; an unauthenticated request for a protected route
    (['/dashboard'] or below) is redirected to [/signin]; every other
    combination passes through. *)
Theorem route_guard_state_machine (rt : Runtime) (request : Request) :
  let path := pathname request in
  let authenticated := AuthMiddleware.isAuthenticated rt request in
  (startsWith "/api/" path = true ->
   Middleware.middleware rt request = Middleware.Next)
  /\ (startsWith "/api/" path = false ->
      (authenticated = true -> Spec.public_only path = true ->
       Middleware.middleware rt request = Middleware.Redirect "/dashboard")
      /\ (authenticated = false -> Spec.protected path = true ->
          Middleware.middleware rt request = Middleware.Redirect "/signin")
      /\ ((authenticated = true /\ Spec.public_only path = false)
          \/ (authenticated = false /\ Spec.protected path = false) ->
          Middleware.middleware rt request = Middleware.Next)).
Proof.
  intros path authenticated. unfold Middleware.middleware.
  fold path. fold authenticated.
  rewrite some_route_auth, some_route_protected.
  split.
  - intros ->. reflexivity.
  - intros ->. repeat split.
    + intros -> ->. reflexivity.
    + intros -> ->. rewrite andb_false_r. reflexivity.
    + intros [[-> ->]|[-> ->]].
      * simpl. rewrite andb_false_r. reflexivity.
      * rewrite andb_false_r. reflexivity.
Qed.

End RouteGuard.

(** The four kinds of answers of the guard: an API path, a signed-in
    visitor of the sign-in page, an anonymous visitor of the dashboard, and
    an anonymous visitor of the sign-in page. *)
Lemma route_guard_state_machine_witness :
  let rt := Examples.at_time Examples.t0 in
  Middleware.middleware rt (Examples.anonymous "/api/auth/me") = Middleware.Next
  /\ Middleware.middleware rt
       (Examples.with_cookie "/signin" Examples.token_without_exp)
     = Middleware.Redirect "/dashboard"
  /\ Middleware.middleware rt (Examples.anonymous "/dashboard/settings")
     = Middleware.Redirect "/signin"
  /\ Middleware.middleware rt (Examples.anonymous "/signin") = Middleware.Next.
Proof.
  intros rt. repeat apply conj.
  - apply (proj1 (route_guard_state_machine (H := Reference.platform) rt
                    (Examples.anonymous "/api/auth/me"))).
    reflexivity.
  - apply (proj1 (proj2 (route_guard_state_machine (H := Reference.platform) rt
                           (Examples.with_cookie "/signin"
                              Examples.token_without_exp))
                    eq_refl)).
    + vm_compute; reflexivity.
    + reflexivity.
  - apply (proj1 (proj2 (proj2 (route_guard_state_machine
                                  (H := Reference.platform) rt
                                  (Examples.anonymous "/dashboard/settings"))
                           eq_refl))).
    + reflexivity.
    + reflexivity.
  - apply (proj2 (proj2 (proj2 (route_guard_state_machine
                                  (H := Reference.platform) rt
                                  (Examples.anonymous "/signin"))
                           eq_refl))).
    right. split; reflexivity.
Defined.

(** ** Full verification (jwt.ts) *)

Section FullVerification.
Context `{Platform}.

Lemma is_empty_app_dot (a b : string) : is_empty (a ++ "." ++ b) = false.
Proof. destruct a; reflexivity. Qed.

(** [jwt.verify] on a token that [jws.sign] made from a header with
    [alg: HS256], [typ: JWT] and from an object of claims. *)
Lemma jwt_verify_signed (rt : Runtime) (fields : list (string * json))
    (secret : string) :
  TokenSpec.well_encoded Jwt.jose_header (JObj fields) secret ->
  Jwt.jwt_verify rt (Jwt.jws_sign Jwt.jose_header (JObj fields) secret) secret
  = (let* nbf := get_prop (JObj fields) "nbf" in
     let* nbf_ok :=
       (if is_defined nbf then
          match is_number nbf with
          | None => Throw "invalid nbf value"
          | Some n =>
              if n >? clock_seconds rt then Throw "jwt not active" else Ok tt
          end
        else Ok tt) in
     let* expiry := get_prop (JObj fields) "exp" in
     let* exp_ok :=
       (if is_defined expiry then
          match is_number expiry with
          | None => Throw "invalid exp value"
          | Some e =>
              if clock_seconds rt >=? e then Throw "jwt expired" else Ok tt
          end
        else Ok tt) in
     Ok (JObj fields)).
Proof.
  intros [[Hh [Hhne Hhc]] [[Hp [Hpne Hpc]] [Hsc Hsne]]].
  unfold Jwt.jwt_verify, Jwt.jwt_decode, Jwt.jws_sign.
  set (h := base64url_encode (JSON_stringify Jwt.jose_header)) in *.
  set (p := base64url_encode (JSON_stringify (JObj fields))) in *.
  set (sig := Jwt.signature_of HS256 secret (h ++ "." ++ p)) in *.
  rewrite is_empty_app_dot.
  rewrite (split_token h p sig Hhc Hpc Hsc).
  unfold Jwt.jws_format. rewrite Hhne, Hhc, Hpne, Hpc, Hsc. simpl negb.
  cbv iota. rewrite Hh. simpl truthy. cbv iota.
  change (get_prop Jwt.jose_header "typ") with (Ok (Json (JStr "JWT"))).
  change (get_prop Jwt.jose_header "alg") with (Ok (Json (JStr "HS256"))).
  simpl bind. rewrite Hp. simpl of_option. simpl bind.
  rewrite Hsne.
  change (Jwt.alg_of_value (Json (JStr "HS256"))) with (Some HS256).
  fold sig. rewrite String.eqb_refl. reflexivity.
Qed.

(** Full verification of a signed token looks at the signature and at the
    clock only. *)
Lemma verifyToken_signed (rt : Runtime) (secret : string)
    (fields : list (string * json)) (e : Z) :
  env rt !! "JWT_SECRET" = Some secret ->
  is_empty secret = false ->
  TokenSpec.well_encoded Jwt.jose_header (JObj fields) secret ->
  assoc_last "nbf" fields = None ->
  assoc_last "exp" fields = Some (JNum e) ->
  clock_seconds rt < e ->
  Jwt.verifyToken rt (Jwt.jws_sign Jwt.jose_header (JObj fields) secret)
  = Ok (Some (JObj fields)).
Proof.
  intros Hsecret Hne Hcodec Hnbf Hexp Hclock.
  unfold Jwt.verifyToken. rewrite Hsecret, Hne.
  rewrite (jwt_verify_signed rt fields secret Hcodec).
  simpl get_prop. rewrite Hnbf, Hexp. simpl.
  destruct (clock_seconds rt >=? e) eqn:E; [|reflexivity].
  apply Z.geb_le in E. lia.
Qed.

Lemma claims_object_fields (payload : Jwt.JWTPayload) (issued expires : Z) :
  exists fields,
    Jwt.claims_object payload issued expires = JObj fields
    /\ assoc_last "sub" fields = Some (JStr (Jwt.sub payload))
    /\ assoc_last "email" fields = Some (JStr (Jwt.email payload))
    /\ assoc_last "nbf" fields = None
    /\ assoc_last "exp" fields = Some (JNum expires).
Proof.
  unfold Jwt.claims_object. eexists. split; [reflexivity|].
  destruct (Jwt.name payload); simpl; auto.
Qed.

(** C1 (as amended). Round trip: for every subject, e-mail and optional
    display name, when a signing secret is configured and the configured
    lifetime ([JWT_EXPIRES_IN], 86400 by default) parses to a number of
    seconds, [createToken] returns a token, and [verifyToken] applied to it
    before that lifetime has run out (at once, when the lifetime is
    positive) returns claims whose [sub] and [email] are the given ones.
    The platform's codec is assumed right on the header and the claims. *)
Theorem create_verify_round_trip
    (rt rt' : Runtime) (secret sub email : string) (name : option string)
    (span : Z) :
  let issued := clock_seconds rt in
  let claims :=
    Jwt.claims_object (TokenSpec.identity sub email name) issued (issued + span) in
  env rt !! "JWT_SECRET" = Some secret ->
  env rt' !! "JWT_SECRET" = Some secret ->
  is_empty secret = false ->
  parseInt (env_or rt "JWT_EXPIRES_IN" "86400") = Some span ->
  clock_seconds rt' < issued + span ->
  TokenSpec.well_encoded Jwt.jose_header claims secret ->
  exists token,
    Jwt.createToken rt (TokenSpec.identity sub email name) = Ok token
    /\ Jwt.verifyToken rt' token = Ok (Some claims)
    /\ get_prop claims "sub" = Ok (Json (JStr sub))
    /\ get_prop claims "email" = Ok (Json (JStr email)).
Proof.
  intros issued claims Hsecret Hsecret' Hne Hspan Hlife Hcodec.
  destruct (claims_object_fields (TokenSpec.identity sub email name)
              issued (issued + span))
    as [fields [Hfields [Hsub [Hemail [Hnbf Hexp]]]]].
  fold claims in Hfields.
  exists (Jwt.jws_sign Jwt.jose_header claims secret).
  split; [|split; [|split]].
  - unfold Jwt.createToken, Jwt.jwt_sign.
    rewrite Hsecret, Hne, Hspan. reflexivity.
  - rewrite Hfields in *.
    exact (verifyToken_signed rt' secret fields (issued + span)
             Hsecret' Hne Hcodec Hnbf Hexp Hlife).
  - rewrite Hfields. simpl. rewrite Hsub. reflexivity.
  - rewrite Hfields. simpl. rewrite Hemail. reflexivity.
Qed.

End FullVerification.

(** C1, counterexample: with [JWT_SECRET] configured and
    [JWT_EXPIRES_IN=0], [createToken] returns a token for subject [u1] and
    e-mail [a@b.c], and [verifyToken] applied to it at the same instant
    answers [null]. *)
Lemma round_trip_fails_with_zero_lifetime :
  Jwt.createToken Examples.zero_lifetime (TokenSpec.identity "u1" "a@b.c" None)
  = Ok Examples.token_born_expired
  /\ Jwt.verifyToken Examples.zero_lifetime Examples.token_born_expired
     = Ok None.
Proof. split; vm_compute; reflexivity. Qed.

(** The round trip at the default lifetime, verified one hour later. *)
Lemma create_verify_round_trip_witness :
  let rt := Examples.at_time Examples.t0 in
  let rt' := Examples.at_time (Examples.t0 + 3600000) in
  let issued := clock_seconds rt in
  let claims :=
    Jwt.claims_object (TokenSpec.identity "u1" "a@b.c" (Some "Al"))
      issued (issued + 86400) in
  exists token,
    Jwt.createToken rt (TokenSpec.identity "u1" "a@b.c" (Some "Al")) = Ok token
    /\ Jwt.verifyToken rt' token = Ok (Some claims)
    /\ get_prop claims "sub" = Ok (Json (JStr "u1"))
    /\ get_prop claims "email" = Ok (Json (JStr "a@b.c")).
Proof.
  apply (create_verify_round_trip
           (Examples.at_time Examples.t0)
           (Examples.at_time (Examples.t0 + 3600000))
           "s3cret" "u1" "a@b.c" (Some "Al") 86400).
  - vm_compute; reflexivity.
  - vm_compute; reflexivity.
  - reflexivity.
  - vm_compute; reflexivity.
  - vm_compute; reflexivity.
  - vm_compute. repeat split.
Defined.

(** ** Expiry at the two tiers *)

Section Expiry.
Context `{Platform}.

(** Full verification refuses every token whose claims carry a numeric
    [exp] that is not after the clock, whatever the signature. *)
Lemma jwt_verify_rejects_expired (rt : Runtime) (token secret : string)
    (header payload : json) (e : Z) :
  Jwt.jwt_decode token = Ok (Some (header, payload)) ->
  get_prop payload "exp" = Ok (Json (JNum e)) ->
  e <= clock_seconds rt ->
  exists msg, Jwt.jwt_verify rt token secret = Throw msg.
Proof.
  intros Hdec Hexp Hle. unfold Jwt.jwt_verify.
  destruct (is_empty token); [eauto|].
  destruct (split "." token) as [|h [|p [|s [|]]]]; eauto.
  rewrite Hdec. simpl.
  destruct (is_empty (trim s)); [eauto|].
  destruct (get_prop header "alg") as [alg|]; simpl; [|eauto].
  destruct (Jwt.alg_of_value alg); [|eauto].
  destruct (negb _); [eauto|].
  destruct (get_prop payload "nbf") as [nbf|]; simpl; [|eauto].
  assert (Hfinal :
    exists msg,
      (let* expiry := get_prop payload "exp" in
       let* exp_ok :=
         (if is_defined expiry then
            match is_number expiry with
            | None => Throw "invalid exp value"
            | Some e0 =>
                if clock_seconds rt >=? e0 then Throw "jwt expired" else Ok tt
            end
          else Ok tt) in
       Ok payload) = Throw msg).
  { rewrite Hexp. simpl.
    destruct (clock_seconds rt >=? e) eqn:E; [eauto|].
    rewrite Z.geb_leb in E. apply Z.leb_gt in E. lia. }
  destruct (is_defined nbf); [|exact Hfinal].
  destruct (is_number nbf); [|eauto].
  destruct (_ >? _); [eauto|exact Hfinal].
Qed.

Lemma verifyToken_rejects_expired (rt : Runtime) (token secret : string)
    (header payload : json) (e : Z) :
  env rt !! "JWT_SECRET" = Some secret ->
  is_empty secret = false ->
  Jwt.jwt_decode token = Ok (Some (header, payload)) ->
  get_prop payload "exp" = Ok (Json (JNum e)) ->
  e <= clock_seconds rt ->
  Jwt.verifyToken rt token = Ok None.
Proof.
  intros Hs Hne Hdec Hexp Hle. unfold Jwt.verifyToken. rewrite Hs, Hne.
  destruct (jwt_verify_rejects_expired rt token secret header payload e
              Hdec Hexp Hle) as [msg ->].
  reflexivity.
Qed.

(** The constrained check refuses a token whose claims carry a numeric
    [exp] that is not after the clock, provided that [exp] is not 0. *)
Lemma simpleVerifyToken_rejects_expired (rt : Runtime) (token h seg s : string)
    (payload : json) (e : Z) :
  split "." token = [h; seg; s] ->
  EdgeJwt.decode_segment seg = Ok payload ->
  get_prop payload "exp" = Ok (Json (JNum e)) ->
  e <> 0 ->
  e <= clock_seconds rt ->
  EdgeJwt.simpleVerifyToken rt token = None.
Proof.
  intros Hsplit Hdec Hexp Hnz Hle.
  rewrite (simpleVerifyToken_decoded rt token h seg s payload Hsplit Hdec).
  destruct (get_prop payload "sub") as [vs|]; simpl; [|reflexivity].
  destruct (get_prop payload "email") as [ve|]; simpl; [|reflexivity].
  destruct (negb (truthy vs) || negb (truthy ve)); [reflexivity|].
  rewrite Hexp. simpl.
  assert (Hz : (e =? 0) = false) by now apply Z.eqb_neq.
  rewrite Hz. simpl.
  unfold EdgeJwt.expired_at. simpl.
  assert (Hge : (now rt >=? e * 1000) = true).
  { rewrite Z.geb_leb. apply Z.leb_le. unfold clock_seconds in Hle.
    pose proof (Z.mul_div_le (now rt) 1000). lia. }
  rewrite Hge. reflexivity.
Qed.

End Expiry.

(** C2, at the failing input.  The token [Examples.token_exp_zero] is
    signed with the process's secret and its claims are
    [{"sub":"u1","email":"a@b.c","exp":0}], so that it expired at the
    epoch.  Full verification accepts it before the epoch (the signature
    is right) and answers [null] at [t0]; the constrained check at [t0]
    returns its claims, because [payload.exp && ...] takes an [exp] of 0
    for an absent one. *)
Theorem constrained_check_accepts_exp_zero :
  Jwt.verifyToken (Examples.at_time (-1000)) Examples.token_exp_zero
  = Ok (Some (JObj [("sub", JStr "u1"); ("email", JStr "a@b.c");
                    ("exp", JNum 0)]))
  /\ Jwt.verifyToken (Examples.at_time Examples.t0) Examples.token_exp_zero
     = Ok None
  /\ EdgeJwt.simpleVerifyToken (Examples.at_time Examples.t0)
       Examples.token_exp_zero
     = Some {| EdgeJwt.sub := Json (JStr "u1");
               EdgeJwt.email := Json (JStr "a@b.c");
               EdgeJwt.name := Undefined;
               EdgeJwt.iat := Undefined;
               EdgeJwt.exp := Json (JNum 0) |}.
Proof. repeat apply conj; vm_compute; reflexivity. Qed.

(** ** Identity fields *)

Section IdentityFields.
Context `{Platform}.

Lemma get_prop_truthy (payload : json) (k : string) :
  truthy (Json payload) = true -> exists v, get_prop payload k = Ok v.
Proof. destruct payload; simpl; try discriminate; eauto. Qed.


End IdentityFields.



(** The three parts of C6 on concrete tokens: the check answers alike
    with and without a secret in the environment, refuses a string of two
    segments, and refuses the token whose claims have no [sub]. *)
Lemma simpleVerifyToken_structural_witness :
  EdgeJwt.simpleVerifyToken (Examples.at_time Examples.t0)
    Examples.token_without_exp
  = EdgeJwt.simpleVerifyToken (Examples.without_secret Examples.t0)
      Examples.token_without_exp
  /\ EdgeJwt.simpleVerifyToken (Examples.at_time Examples.t0) "e30.e30" = None
  /\ EdgeJwt.simpleVerifyToken (Examples.at_time Examples.t0)
       Examples.token_without_sub = None.
Proof.
  pose proof (@simpleVerifyToken_structural Reference.platform)
    as [Hsecret [Hsegments Hlacking]].
  split; [|split].
  - apply Hsecret. reflexivity.
  - apply Hsegments. vm_compute. discriminate.
  - apply (Hlacking (Examples.at_time Examples.t0) Examples.token_without_sub
             Examples.header_segment Examples.claims_without_sub
             Examples.signature_without_sub
             (JObj [("email", JStr "a@b.c"); ("iat", JNum 1700000000);
                    ("exp", JNum 1700086400)])).
    + vm_compute; reflexivity.
    + vm_compute; reflexivity.
    + left. reflexivity.
Defined.

(** The token with claims [{"sub":"u1","email":"a@b.c"}], presented for
    the dashboard in the year 2100. *)
Lemma simpleVerifyToken_without_exp_witness :
  let rt := Examples.at_time 4102444800000 in
  let request := Examples.with_cookie "/dashboard" Examples.token_without_exp in
  (exists claims,
      EdgeJwt.simpleVerifyToken rt Examples.token_without_exp = Some claims
      /\ get_prop (JObj [("sub", JStr "u1"); ("email", JStr "a@b.c")]) "sub"
         = Ok (EdgeJwt.sub claims)
      /\ get_prop (JObj [("sub", JStr "u1"); ("email", JStr "a@b.c")]) "email"
         = Ok (EdgeJwt.email claims)
      /\ EdgeJwt.exp claims = Undefined)
  /\ AuthMiddleware.isAuthenticated rt request = true
  /\ Middleware.middleware rt request
     = (if negb (startsWith "/api/" (pathname request))
           && Spec.public_only (pathname request)
        then Middleware.Redirect "/dashboard"
        else Middleware.Next).
Proof.
  apply (simpleVerifyToken_without_exp (H := Reference.platform)
           (Examples.at_time 4102444800000)
           Examples.token_without_exp
           Examples.header_segment Examples.claims_without_exp
           Examples.signature_without_exp
           (JObj [("sub", JStr "u1"); ("email", JStr "a@b.c")])
           (Examples.with_cookie "/dashboard" Examples.token_without_exp)).
  - vm_compute; reflexivity.
  - vm_compute; reflexivity.
  - reflexivity.
  - reflexivity.
  - reflexivity.
  - vm_compute; reflexivity.
Defined.

(** ** The session cookies (cookies.ts and the login route) *)

Section SessionCookies.
Context `{Platform}.

(** After a successful authentication the response carries the two
    cookies. *)
Lemma authenticate_success (rt : Runtime) (st st' : Server)
    (request : Request) (response : Response) :
  Login.authenticate rt st request = (response, st') ->
  status response = 200 ->
  exists token,
    cookies response !! "auth_token"
    = Some {| value := token; options := Cookies.COOKIE_OPTIONS rt |}
    /\ cookies response !! "auth_state" = Some (Login.state_cookie rt).
Proof.
  unfold Login.authenticate. intros Hrun Hstatus.
  destruct (req_json request) as [payload|];
    [|injection Hrun as <- <-; discriminate Hstatus].
  destruct (Login.loginSchema payload) as [issues|[email password]];
    [injection Hrun as <- <-; discriminate Hstatus|].
  destruct (findUnique st (ByEmail email)) as [found st1].
  destruct found as [[user|]|];
    try (injection Hrun as <- <-; discriminate Hstatus).
  destruct (negb _); [injection Hrun as <- <-; discriminate Hstatus|].
  destruct (Jwt.createToken rt _) as [token|];
    [|injection Hrun as <- <-; discriminate Hstatus].
  injection Hrun as <- <-. exists token. split; reflexivity.
Qed.

(** C8 (as amended). [setAuthCookie] sets the primary cookie and nothing
    else: for every token and response it sets [auth_token] to the token
    with [httpOnly] true, [sameSite] lax, path [/], [maxAge] the configured
    token lifetime (the number that [createToken] passes as [expiresIn])
    and [secure] exactly in production, and it leaves every other cookie,
    the status and the body of the response as they were.  The marker
    cookie [auth_state] is set by the login handler itself: a response
    with status 200 of the authentication carries both cookies, the marker
    with the value [authenticated] and [httpOnly] false. *)
Theorem setAuthCookie_sets_the_primary_cookie
    (rt : Runtime) (token : string) (response : Response) :
  let response' := Cookies.setAuthCookie rt token response in
  let lifetime := parseInt (env_or rt "JWT_EXPIRES_IN" "86400") in
  cookies response' !! "auth_token"
  = Some {| value := token;
            options := {| httpOnly := true;
                          secure := Cookies.is_production rt;
                          maxAge := lifetime;
                          path := "/";
                          sameSite := Lax |} |}
  /\ (Cookies.is_production rt = true
      <-> env rt !! "NODE_ENV" = Some "production")
  /\ (forall payload secret,
         env rt !! "JWT_SECRET" = Some secret ->
         Jwt.createToken rt payload
         = (if is_empty secret
            then Throw "JWT_SECRET is not defined in environment variables"
            else Jwt.jwt_sign rt payload secret lifetime))
  /\ (forall n, n <> "auth_token" ->
                cookies response' !! n = cookies response !! n)
  /\ status response' = status response
  /\ body response' = body response
  /\ (forall (st st' : Server) (request : Request) (sent : Response),
         Login.authenticate rt st request = (sent, st') ->
         status sent = 200 ->
         exists signed,
           cookies sent !! "auth_token"
           = Some {| value := signed; options := Cookies.COOKIE_OPTIONS rt |}
           /\ cookies sent !! "auth_state"
              = Some {| value := "authenticated";
                        options := {| httpOnly := false;
                                      secure := Cookies.is_production rt;
                                      maxAge := lifetime;
                                      path := "/";
                                      sameSite := Lax |} |}).
Proof.
  intros response' lifetime. subst response' lifetime.
  unfold Cookies.setAuthCookie, set_cookie, Cookies.TOKEN_NAME. simpl.
  split; [apply lookup_insert_eq|].
  split.
  { unfold Cookies.is_production.
    destruct (env rt !! "NODE_ENV") as [s|]; [|split; discriminate].
    split.
    - intros E. apply String.eqb_eq in E. subst. reflexivity.
    - intros [= ->]. reflexivity. }
  split.
  { intros payload secret Hsecret. unfold Jwt.createToken. rewrite Hsecret.
    reflexivity. }
  split; [intros n Hn; apply lookup_insert_ne; congruence|].
  split; [reflexivity|]. split; [reflexivity|].
  intros st st' request sent Hrun Hstatus.
  exact (authenticate_success rt st st' request sent Hrun Hstatus).
Qed.

End SessionCookies.

(** C8, counterexample: after [setAuthCookie] on a response without
    cookies, the response has the [auth_token] cookie and no [auth_state]
    cookie. *)
Lemma setAuthCookie_sets_no_marker :
  let response :=
    Cookies.setAuthCookie (Examples.at_time Examples.t0)
      Examples.token_without_exp (json_response (ErrorBody "none") 200) in
  cookies response !! "auth_state" = None
  /\ cookies response !! "auth_token"
     = Some {| value := Examples.token_without_exp;
               options := {| httpOnly := true; secure := false;
                             maxAge := Some 86400; path := "/";
                             sameSite := Lax |} |}.
Proof. split; reflexivity. Qed.

(** A successful login of [alice] sets both cookies. *)
Lemma setAuthCookie_sets_the_primary_cookie_witness :
  let rt := Examples.at_time Examples.t0 in
  let sent :=
    fst (Login.authenticate rt Scenario.fresh
           (Scenario.good_login Scenario.from_client)) in
  exists signed,
    cookies sent !! "auth_token"
    = Some {| value := signed; options := Cookies.COOKIE_OPTIONS rt |}
    /\ cookies sent !! "auth_state"
       = Some {| value := "authenticated";
                 options :=
                   {| httpOnly := false;
                      secure := Cookies.is_production rt;
                      maxAge := parseInt (env_or rt "JWT_EXPIRES_IN" "86400");
                      path := "/";
                      sameSite := Lax |} |}.
Proof.
  intros rt sent.
  apply (proj2 (proj2 (proj2 (proj2 (proj2 (proj2
           (setAuthCookie_sets_the_primary_cookie (H := Reference.platform)
              rt Examples.token_without_exp
              (json_response (ErrorBody "none") 200)))))))
           Scenario.fresh
           (snd (Login.authenticate rt Scenario.fresh
                   (Scenario.good_login Scenario.from_client)))
           (Scenario.good_login Scenario.from_client) sent).
  - subst sent. apply surjective_pairing.
  - vm_compute. reflexivity.
Defined.

(** ** The rate governor (rate-limiter.ts) *)

Section RateGovernor.

Local Open Scope Q_scope.

Lemma Qltb_false (a b : Q) : b <= a -> RateLimit.Qltb a b = false.
Proof.
  intros Hle. unfold RateLimit.Qltb.
  apply negb_false_iff, Qle_bool_iff. exact Hle.
Qed.

Lemma Qltb_true (a b : Q) : a < b -> RateLimit.Qltb a b = true.
Proof.
  intros Hlt. unfold RateLimit.Qltb. apply negb_true_iff.
  destruct (Qle_bool b a) eqn:E; [|reflexivity].
  apply Qle_bool_iff in E. lra.
Qed.

Lemma inject_Z_nonneg (z : Z) : (0 <= z)%Z -> 0 <= inject_Z z.
Proof. intros Hz. change 0 with (inject_Z 0). rewrite <- Zle_Qle. exact Hz. Qed.

(** What a drip adds is not negative. *)
Lemma drip_amount_nonneg (z : Z) :
  0 <= inject_Z (Z.max z 0)
       * (inject_Z RateLimit.ATTEMPTS_PER_MINUTE
          / inject_Z RateLimit.WINDOW_SIZE_MS).
Proof.
  pose proof (inject_Z_nonneg (Z.max z 0) (Z.le_max_r z 0)) as Hz.
  change (inject_Z RateLimit.ATTEMPTS_PER_MINUTE
          / inject_Z RateLimit.WINDOW_SIZE_MS) with (5 # 60000).
  lra.
Qed.

(** A drip keeps every lower bound of the content that the capacity
    allows. *)
Lemma drip_lower (t : Z) (l : RateLimit.RateLimiter) (q : Q) :
  q <= RateLimit.content l ->
  q <= inject_Z RateLimit.ATTEMPTS_PER_MINUTE ->
  q <= RateLimit.content (RateLimit.drip t l).
Proof.
  intros Hq Hcap. unfold RateLimit.drip. simpl.
  pose proof (drip_amount_nonneg (t - RateLimit.lastDrip l)) as Hd.
  apply Q.min_glb; [lra|exact Hcap].
Qed.

(** After a whole window without a drip the bucket is full. *)
Lemma drip_full (t : Z) (l : RateLimit.RateLimiter) :
  0 <= RateLimit.content l ->
  (RateLimit.lastDrip l + RateLimit.WINDOW_SIZE_MS <= t)%Z ->
  inject_Z RateLimit.ATTEMPTS_PER_MINUTE
  <= RateLimit.content (RateLimit.drip t l).
Proof.
  intros Hc Ht. unfold RateLimit.drip. simpl.
  apply Q.min_glb; [|lra].
  assert (Hz : (RateLimit.WINDOW_SIZE_MS
                <= Z.max (t - RateLimit.lastDrip l) 0)%Z) by lia.
  rewrite Zle_Qle in Hz.
  change (inject_Z RateLimit.ATTEMPTS_PER_MINUTE
          / inject_Z RateLimit.WINDOW_SIZE_MS) with (5 # 60000).
  change (inject_Z RateLimit.WINDOW_SIZE_MS) with (60000 # 1) in Hz.
  change (inject_Z RateLimit.ATTEMPTS_PER_MINUTE) with (5 # 1).
  lra.
Qed.

(** Taking one token from a bucket that holds one. *)
Lemma bucket_removeTokens_now (retries : nat) (t : Z)
    (l : RateLimit.RateLimiter) :
  1 <= RateLimit.content (RateLimit.drip t l) ->
  RateLimit.bucket_removeTokens retries 1 t l
  = Some (RateLimit.content (RateLimit.drip t l) - 1,
          {| RateLimit.content := RateLimit.content (RateLimit.drip t l) - 1;
             RateLimit.lastDrip := t;
             RateLimit.curIntervalStart := RateLimit.curIntervalStart l;
             RateLimit.tokensThisInterval := RateLimit.tokensThisInterval l |},
          t).
Proof.
  intros Hone.
  destruct retries; simpl;
    (rewrite Qltb_false by exact Hone); reflexivity.
Qed.

(** A call inside the running interval that has tokens left: one token is
    handed out at once. *)
Lemma removeTokens_allowed (retries : nat) (t : Z) (l : RateLimit.RateLimiter)
    (start used : Z) :
  RateSpec.in_window l start used ->
  (0 <= used < RateLimit.ATTEMPTS_PER_MINUTE)%Z ->
  (start <= t)%Z ->
  (t - start < RateLimit.WINDOW_SIZE_MS)%Z ->
  exists remaining l',
    RateLimit.removeTokens retries 1 t l = Some (Ok (remaining, l', t))
    /\ 0 <= remaining
    /\ RateSpec.in_window l' start (used + 1)
    /\ RateLimit.lastDrip l' = t.
Proof.
  intros [Hstart [Hused Hcontent]] Hk Hlo Hhi.
  unfold RateLimit.ATTEMPTS_PER_MINUTE in *.
  assert (Hbound : inject_Z (5 - used)
                   <= RateLimit.content (RateLimit.drip t l)).
  { apply drip_lower; [exact Hcontent|].
    unfold RateLimit.ATTEMPTS_PER_MINUTE. rewrite <- Zle_Qle. lia. }
  assert (Hone : 1 <= inject_Z (5 - used)).
  { change 1 with (inject_Z 1). rewrite <- Zle_Qle. lia. }
  unfold RateLimit.removeTokens, RateLimit.ATTEMPTS_PER_MINUTE.
  rewrite Hstart.
  replace (1 >? 5)%Z with false by reflexivity.
  replace (t <? start)%Z with false by (symmetry; apply Z.ltb_ge; lia).
  replace (t - start >=? RateLimit.WINDOW_SIZE_MS)%Z with false
    by (symmetry; rewrite Z.geb_leb; apply Z.leb_gt; lia).
  simpl orb. cbv iota. rewrite Hused.
  replace (1 >? 5 - used)%Z with false
    by (symmetry; rewrite Z.gtb_ltb; apply Z.ltb_ge; lia).
  rewrite bucket_removeTokens_now by lra.
  remember (RateLimit.content (RateLimit.drip t l)) as c eqn:Ec.
  do 2 eexists. split; [reflexivity|]. simpl.
  split; [lra|]. split; [|reflexivity].
  unfold RateSpec.in_window, RateLimit.ATTEMPTS_PER_MINUTE. simpl.
  split; [exact Hstart|]. split; [rewrite Hused; reflexivity|].
  replace (5 - (used + 1))%Z with ((5 - used) + - 1)%Z by lia.
  rewrite inject_Z_plus. change (inject_Z (- 1)) with (- (1)). lra.
Qed.

(** A call inside the running interval whose tokens are used up: [-1],
    and the limiter is as before. *)
Lemma removeTokens_denied (retries : nat) (t : Z) (l : RateLimit.RateLimiter) :
  RateSpec.exhausted l t ->
  RateLimit.removeTokens retries 1 t l = Some (Ok (- (1), l, t)).
Proof.
  intros [Hlo [Hhi Hused]].
  unfold RateLimit.removeTokens, RateLimit.ATTEMPTS_PER_MINUTE in *.
  replace (1 >? 5)%Z with false by reflexivity.
  replace (t <? RateLimit.curIntervalStart l)%Z with false
    by (symmetry; apply Z.ltb_ge; lia).
  replace (t - RateLimit.curIntervalStart l >=? RateLimit.WINDOW_SIZE_MS)%Z
    with false by (symmetry; rewrite Z.geb_leb; apply Z.leb_gt; lia).
  simpl orb. cbv iota.
  replace (1 >? 5 - RateLimit.tokensThisInterval l)%Z with true
    by (symmetry; rewrite Z.gtb_ltb; apply Z.ltb_lt; lia).
  reflexivity.
Qed.

(** A call a whole window after the last drip and after the start of the
    interval: a new interval starts and the bucket is full again. *)
Lemma removeTokens_refilled (retries : nat) (t : Z) (l : RateLimit.RateLimiter) :
  0 <= RateLimit.content l ->
  (RateLimit.lastDrip l + RateLimit.WINDOW_SIZE_MS <= t)%Z ->
  (RateLimit.curIntervalStart l + RateLimit.WINDOW_SIZE_MS <= t)%Z ->
  exists remaining l',
    RateLimit.removeTokens retries 1 t l = Some (Ok (remaining, l', t))
    /\ 0 <= remaining
    /\ RateSpec.in_window l' t 1
    /\ RateLimit.lastDrip l' = t.
Proof.
  intros Hc Hdrip Hstart.
  unfold RateLimit.removeTokens.
  replace (1 >? RateLimit.ATTEMPTS_PER_MINUTE)%Z with false by reflexivity.
  replace (t - RateLimit.curIntervalStart l >=? RateLimit.WINDOW_SIZE_MS)%Z
    with true by (symmetry; rewrite Z.geb_leb; apply Z.leb_le; lia).
  rewrite orb_true_r. cbv iota. simpl RateLimit.tokensThisInterval.
  replace (1 >? RateLimit.ATTEMPTS_PER_MINUTE - 0)%Z with false by reflexivity.
  set (l1 := {| RateLimit.content := RateLimit.content l;
                RateLimit.lastDrip := RateLimit.lastDrip l;
                RateLimit.curIntervalStart := t;
                RateLimit.tokensThisInterval := 0 |}).
  pose proof (drip_full t l1 Hc Hdrip) as Hfull.
  change (inject_Z RateLimit.ATTEMPTS_PER_MINUTE) with (5 # 1) in Hfull.
  rewrite bucket_removeTokens_now by lra.
  remember (RateLimit.content (RateLimit.drip t l1)) as c eqn:Ec.
  do 2 eexists. split; [reflexivity|]. simpl.
  split; [lra|]. split; [|reflexivity].
  unfold RateSpec.in_window. simpl. split; [reflexivity|].
  split; [reflexivity|].
  change (inject_Z (RateLimit.ATTEMPTS_PER_MINUTE - 1)) with (4 # 1).
  lra.
Qed.

(** The first call for an identity creates its limiter and is allowed. *)
Lemma checkRateLimit_first (retries : nat) (t : Z)
    (limiters : gmap string RateLimit.RateLimiter) (identifier : string) :
  limiters !! identifier = None ->
  exists limiters' l',
    RateLimit.checkRateLimit retries t limiters identifier
    = Some (Ok None, limiters', t)
    /\ limiters' !! identifier = Some l'
    /\ RateSpec.in_window l' t 1
    /\ RateLimit.lastDrip l' = t.
Proof.
  intros Hnone. unfold RateLimit.checkRateLimit. rewrite Hnone.
  rewrite lookup_insert_eq.
  destruct (removeTokens_allowed retries t (RateLimit.new_RateLimiter t) t 0)
    as [remaining [l' [Hrun [Hrem [Hwin Hdrip]]]]].
  - unfold RateSpec.in_window. simpl. repeat split. apply Qle_refl.
  - unfold RateLimit.ATTEMPTS_PER_MINUTE. lia.
  - lia.
  - unfold RateLimit.WINDOW_SIZE_MS. lia.
  - rewrite Hrun, (Qltb_false remaining 0 Hrem).
    do 2 eexists. split; [reflexivity|].
    rewrite lookup_insert_eq. auto.
Qed.

(** A later call in the same interval, with tokens left, is allowed. *)
Lemma checkRateLimit_allowed (retries : nat) (t : Z)
    (limiters : gmap string RateLimit.RateLimiter) (identifier : string)
    (l : RateLimit.RateLimiter) (start used : Z) :
  limiters !! identifier = Some l ->
  RateSpec.in_window l start used ->
  (0 <= used < RateLimit.ATTEMPTS_PER_MINUTE)%Z ->
  (start <= t)%Z ->
  (t - start < RateLimit.WINDOW_SIZE_MS)%Z ->
  exists limiters' l',
    RateLimit.checkRateLimit retries t limiters identifier
    = Some (Ok None, limiters', t)
    /\ limiters' !! identifier = Some l'
    /\ RateSpec.in_window l' start (used + 1)
    /\ RateLimit.lastDrip l' = t.
Proof.
  intros Hl Hwin Hused Hlo Hhi. unfold RateLimit.checkRateLimit. rewrite Hl, Hl.
  destruct (removeTokens_allowed retries t l start used Hwin Hused Hlo Hhi)
    as [remaining [l' [Hrun [Hrem [Hwin' Hdrip]]]]].
  rewrite Hrun, (Qltb_false remaining 0 Hrem).
  do 2 eexists. split; [reflexivity|].
  rewrite lookup_insert_eq. auto.
Qed.

(** A call for an identity whose bucket is exhausted is denied with the
    429 response, and the limiter is as before. *)
Lemma checkRateLimit_denied (retries : nat) (t : Z)
    (limiters : gmap string RateLimit.RateLimiter) (identifier : string)
    (l : RateLimit.RateLimiter) :
  limiters !! identifier = Some l ->
  RateSpec.exhausted l t ->
  RateLimit.checkRateLimit retries t limiters identifier
  = Some (Ok (Some RateLimit.too_many), <[identifier := l]> limiters, t).
Proof.
  intros Hl Hex. unfold RateLimit.checkRateLimit. rewrite Hl, Hl.
  rewrite (removeTokens_denied retries t l Hex).
  rewrite Qltb_true by reflexivity. reflexivity.
Qed.

(** A call a whole window later is allowed again. *)
Lemma checkRateLimit_refilled (retries : nat) (t : Z)
    (limiters : gmap string RateLimit.RateLimiter) (identifier : string)
    (l : RateLimit.RateLimiter) :
  limiters !! identifier = Some l ->
  0 <= RateLimit.content l ->
  (RateLimit.lastDrip l + RateLimit.WINDOW_SIZE_MS <= t)%Z ->
  (RateLimit.curIntervalStart l + RateLimit.WINDOW_SIZE_MS <= t)%Z ->
  exists limiters' l',
    RateLimit.checkRateLimit retries t limiters identifier
    = Some (Ok None, limiters', t)
    /\ limiters' !! identifier = Some l'
    /\ RateSpec.in_window l' t 1
    /\ RateLimit.lastDrip l' = t.
Proof.
  intros Hl Hc Hdrip Hstart. unfold RateLimit.checkRateLimit. rewrite Hl, Hl.
  destruct (removeTokens_refilled retries t l Hc Hdrip Hstart)
    as [remaining [l' [Hrun [Hrem [Hwin' Hdrip']]]]].
  rewrite Hrun, (Qltb_false remaining 0 Hrem).
  do 2 eexists. split; [reflexivity|].
  rewrite lookup_insert_eq. auto.
Qed.

(** One sleep is enough: the bucket always settles when a retry is
    allowed. *)
Lemma bucket_removeTokens_settles (retries : nat) (t : Z)
    (l : RateLimit.RateLimiter) :
  is_Some (RateLimit.bucket_removeTokens (S retries) 1 t l).
Proof.
  cbn [RateLimit.bucket_removeTokens].
  assert (Hdrip : RateLimit.lastDrip (RateLimit.drip t l) = t) by reflexivity.
  remember (RateLimit.drip t l) as l1 eqn:El1.
  destruct (RateLimit.Qltb (RateLimit.content l1) (inject_Z 1)); [|eauto].
  remember (Qceiling ((inject_Z 1 - RateLimit.content l1)
                      * (inject_Z RateLimit.WINDOW_SIZE_MS
                         / inject_Z RateLimit.ATTEMPTS_PER_MINUTE)))
    as waitMs eqn:Ew.
  rewrite bucket_removeTokens_now; [eauto|].
  unfold RateLimit.drip. simpl RateLimit.content. rewrite Hdrip.
  pose proof (Qle_ceiling ((inject_Z 1 - RateLimit.content l1)
                           * (inject_Z RateLimit.WINDOW_SIZE_MS
                              / inject_Z RateLimit.ATTEMPTS_PER_MINUTE)))
    as Hceil.
  rewrite <- Ew in Hceil.
  assert (Hmax : inject_Z waitMs <= inject_Z (Z.max (t + waitMs - t) 0)).
  { rewrite <- Zle_Qle. lia. }
  change (inject_Z RateLimit.WINDOW_SIZE_MS
          / inject_Z RateLimit.ATTEMPTS_PER_MINUTE) with (60000 # 5) in Hceil.
  change (inject_Z RateLimit.ATTEMPTS_PER_MINUTE
          / inject_Z RateLimit.WINDOW_SIZE_MS) with (5 # 60000).
  change (inject_Z RateLimit.ATTEMPTS_PER_MINUTE) with (5 # 1).
  change (inject_Z 1) with 1 in Hceil.
  apply Q.min_glb; lra.
Qed.

Lemma removeTokens_settles (retries : nat) (t : Z) (l : RateLimit.RateLimiter) :
  is_Some (RateLimit.removeTokens (S retries) 1 t l).
Proof.
  unfold RateLimit.removeTokens.
  destruct (1 >? RateLimit.ATTEMPTS_PER_MINUTE)%Z; [eauto|].
  set (l1 := if (_ || _)%bool then _ else l).
  destruct (1 >? RateLimit.ATTEMPTS_PER_MINUTE
                 - RateLimit.tokensThisInterval l1)%Z; [eauto|].
  destruct (bucket_removeTokens_settles retries t l1) as [[[r l2] s] ->].
  eauto.
Qed.

Lemma checkRateLimit_settles (retries : nat) (t : Z)
    (limiters : gmap string RateLimit.RateLimiter) (identifier : string) :
  is_Some (RateLimit.checkRateLimit (S retries) t limiters identifier).
Proof.
  unfold RateLimit.checkRateLimit.
  destruct (_ !! identifier) as [limiter|]; [|eauto].
  destruct (removeTokens_settles retries t limiter) as [[[[r l2] s]|msg] ->];
    [|eauto].
  destruct (RateLimit.Qltb r 0); eauto.
Qed.

(** C4. Burst, then deny, then refill.  With the capacity 5 and the window
    of 60 seconds, for an identity that has no bucket yet: five calls of
    [checkRateLimit] within one second are all allowed ([null]); a sixth
    call right after them, before the window has run out, is denied with
    the 429 response; and the next call, made once a full window of 60
    seconds has passed without calls, is allowed again. *)
Theorem burst_then_deny_then_refill
    (retries : nat) (limiters : gmap string RateLimit.RateLimiter)
    (identifier : string) (t1 t2 t3 t4 t5 t6 t7 : Z) :
  limiters !! identifier = None ->
  (t1 <= t2 <= t3)%Z -> (t3 <= t4 <= t5)%Z ->
  (t5 <= t1 + 1000)%Z ->
  (t5 <= t6)%Z -> (t6 < t1 + RateLimit.WINDOW_SIZE_MS)%Z ->
  (t6 + RateLimit.WINDOW_SIZE_MS <= t7)%Z ->
  RateLimit.ATTEMPTS_PER_MINUTE = 5%Z
  /\ RateLimit.WINDOW_SIZE_MS = 60000%Z
  /\ status RateLimit.too_many = 429%Z
  /\ RateSpec.answers retries limiters identifier [t1; t2; t3; t4; t5; t6; t7]
     = Some [Ok None; Ok None; Ok None; Ok None; Ok None;
             Ok (Some RateLimit.too_many); Ok None].
Proof.
  intros Hfresh H123 H345 Hsecond H56 H6 H7.
  split; [reflexivity|]. split; [reflexivity|]. split; [reflexivity|].
  assert (Hw : RateLimit.WINDOW_SIZE_MS = 60000%Z) by reflexivity.
  cbn [RateSpec.answers].
  destruct (checkRateLimit_first retries t1 limiters identifier Hfresh)
    as [m1 [l1 [-> [Hl1 [Hw1 Hd1]]]]].
  destruct (checkRateLimit_allowed retries t2 m1 identifier l1 t1 1 Hl1 Hw1)
    as [m2 [l2 [-> [Hl2 [Hw2 Hd2]]]]];
    [unfold RateLimit.ATTEMPTS_PER_MINUTE; lia | lia | lia |].
  destruct (checkRateLimit_allowed retries t3 m2 identifier l2 t1 2 Hl2 Hw2)
    as [m3 [l3 [-> [Hl3 [Hw3 Hd3]]]]];
    [unfold RateLimit.ATTEMPTS_PER_MINUTE; lia | lia | lia |].
  destruct (checkRateLimit_allowed retries t4 m3 identifier l3 t1 3 Hl3 Hw3)
    as [m4 [l4 [-> [Hl4 [Hw4 Hd4]]]]];
    [unfold RateLimit.ATTEMPTS_PER_MINUTE; lia | lia | lia |].
  destruct (checkRateLimit_allowed retries t5 m4 identifier l4 t1 4 Hl4 Hw4)
    as [m5 [l5 [-> [Hl5 [Hw5 Hd5]]]]];
    [unfold RateLimit.ATTEMPTS_PER_MINUTE; lia | lia | lia |].
  destruct Hw5 as [Hstart5 [Hused5 Hcontent5]].
  rewrite (checkRateLimit_denied retries t6 m5 identifier l5 Hl5)
    by (unfold RateSpec.exhausted; rewrite Hstart5, Hused5;
        unfold RateLimit.ATTEMPTS_PER_MINUTE; lia).
  destruct (checkRateLimit_refilled retries t7 (<[identifier := l5]> m5)
              identifier l5) as [m7 [l7 [-> _]]].
  - apply lookup_insert_eq.
  - exact Hcontent5.
  - lia.
  - lia.
  - reflexivity.
Qed.

End RateGovernor.

(** Five calls in the first 800 milliseconds, a sixth 100 milliseconds
    later, and a seventh a minute after the sixth. *)
Lemma burst_then_deny_then_refill_witness :
  RateLimit.ATTEMPTS_PER_MINUTE = 5
  /\ RateLimit.WINDOW_SIZE_MS = 60000
  /\ status RateLimit.too_many = 429
  /\ RateSpec.answers 0 ∅ "login_203.0.113.7"
       [Examples.t0; Examples.t0 + 200; Examples.t0 + 400; Examples.t0 + 600;
        Examples.t0 + 800; Examples.t0 + 900; Examples.t0 + 60900]
     = Some [Ok None; Ok None; Ok None; Ok None; Ok None;
             Ok (Some RateLimit.too_many); Ok None].
Proof.
  apply (burst_then_deny_then_refill 0 ∅ "login_203.0.113.7"
           Examples.t0 (Examples.t0 + 200) (Examples.t0 + 400)
           (Examples.t0 + 600) (Examples.t0 + 800) (Examples.t0 + 900)
           (Examples.t0 + 60900)).
  - reflexivity.
  - unfold Examples.t0; lia.
  - unfold Examples.t0; lia.
  - unfold Examples.t0; lia.
  - unfold Examples.t0; lia.
  - unfold Examples.t0, RateLimit.WINDOW_SIZE_MS; lia.
  - unfold Examples.t0, RateLimit.WINDOW_SIZE_MS; lia.
Defined.

(** ** The login handler *)

Section LoginHandler.
Context `{Platform}.

(** Authentication leaves the limiters alone. *)
Lemma authenticate_limiters (rt : Runtime) (st : Server) (request : Request) :
  limiters (snd (Login.authenticate rt st request)) = limiters st.
Proof.
  unfold Login.authenticate.
  destruct (req_json request) as [payload|]; [|reflexivity].
  destruct (Login.loginSchema payload) as [issues|[email password]];
    [reflexivity|].
  unfold findUnique.
  destruct (available st); [destruct (find _ _) as [user|]|];
    try reflexivity.
  destruct (negb _); [reflexivity|].
  destruct (Jwt.createToken _ _); reflexivity.
Qed.




End LoginHandler.

(** ** The identity of the rate limit *)

Section ClientIdentity.
Context `{Platform}.

(** The limiters after [checkRateLimit]: the one of the identifier
    exists, the others are untouched. *)
Lemma checkRateLimit_limiters (retries : nat) (t : Z)
    (limiters : gmap string RateLimit.RateLimiter) (identifier : string)
    (checked : result (option Response))
    (limiters' : gmap string RateLimit.RateLimiter) (settled : Z) :
  RateLimit.checkRateLimit retries t limiters identifier
  = Some (checked, limiters', settled) ->
  is_Some (limiters' !! identifier)
  /\ forall k, k <> identifier -> limiters' !! k = limiters !! k.
Proof.
  unfold RateLimit.checkRateLimit.
  set (limiters1 := match limiters !! identifier with
                    | Some _ => limiters
                    | None => <[identifier := RateLimit.new_RateLimiter t]> limiters
                    end).
  assert (H1 : is_Some (limiters1 !! identifier)
               /\ forall k, k <> identifier -> limiters1 !! k = limiters !! k).
  { subst limiters1. destruct (limiters !! identifier) eqn:E.
    - split; [rewrite E; eauto | reflexivity].
    - split; [rewrite lookup_insert_eq; eauto|].
      intros k Hk. apply lookup_insert_ne. congruence. }
  destruct H1 as [[limiter Hl] Hother]. rewrite Hl.
  destruct (RateLimit.removeTokens retries 1 t limiter)
    as [[[[remaining limiter'] settled']|msg]|]; [| |discriminate].
  - destruct (RateLimit.Qltb remaining 0); intros [= <- <- <-];
      (split; [rewrite lookup_insert_eq; eauto|]);
      intros k Hk; rewrite lookup_insert_ne by congruence; auto.
  - intros [= <- <- <-]. split; [rewrite Hl; eauto | exact Hother].
Qed.

(** The login handler answers whenever the limiter may sleep once. *)
Lemma POST_settles (retries : nat) (rt : Runtime) (st : Server)
    (request : Request) :
  is_Some (Login.POST (S retries) rt st request).
Proof.
  unfold Login.POST, AuthIndex.checkRateLimit.
  destruct (checkRateLimit_settles retries (now rt) (limiters st)
              ("login_" ++ AuthIndex.getClientIp request))
    as [[[checked limiters'] settled] ->].
  destruct checked as [[limited|]|msg]; eauto.
Qed.

(** The limiters after a login request are those that its rate check
    left. *)
Lemma POST_limiters (retries : nat) (rt : Runtime) (st st' : Server)
    (request : Request) (response : Response) :
  Login.POST retries rt st request = Some (response, st') ->
  exists checked settled,
    RateLimit.checkRateLimit retries (now rt) (limiters st)
      (LoginSpec.identity request) = Some (checked, limiters st', settled).
Proof.
  unfold Login.POST, AuthIndex.checkRateLimit, LoginSpec.identity.
  destruct (RateLimit.checkRateLimit retries (now rt) (limiters st) _)
    as [[[checked limiters'] settled]|]; [|discriminate].
  intros Hrun. exists checked, settled.
  destruct checked as [[limited|]|msg].
  - injection Hrun as <- <-. reflexivity.
  - injection Hrun as Hrun.
    pose proof (authenticate_limiters {| env := env rt; now := settled |}
                  (with_limiters st limiters') request) as Hlim.
    rewrite Hrun in Hlim. simpl in Hlim. rewrite Hlim. reflexivity.
  - injection Hrun as <- <-. reflexivity.
Qed.

(** C10 (as amended). The [getClientIp] of rate-limiter.ts returns the
    first comma-separated entry of [x-forwarded-for], trimmed, when that
    header is present, otherwise the trimmed [cf-connecting-ip] header,
    otherwise ['unknown'].  The login handler does not call it: it imports
    [getClientIp] from the index of lib/auth, whose own function returns
    the first [x-forwarded-for] entry or else ['unknown-ip'] and never
    reads [cf-connecting-ip].  Consequently every login request without an
    [x-forwarded-for] header is rate-limited under the single identity
    [login_unknown-ip]: the handler answers it, takes its token from the
    limiter of that identity and touches no other limiter. *)
Theorem login_identity_without_forwarded_header :
  (forall request : Request,
      RateLimit.getClientIp request
      = match present (headers_get request "x-forwarded-for") with
        | Some forwarded => trim (hd EmptyString (split "," forwarded))
        | None =>
            match present (headers_get request "cf-connecting-ip") with
            | Some ip => trim ip
            | None => "unknown"
            end
        end)
  /\ (forall request : Request,
         AuthIndex.getClientIp request
         = match present (headers_get request "x-forwarded-for") with
           | Some forwarded => trim (hd EmptyString (split "," forwarded))
           | None => "unknown-ip"
           end)
  /\ (forall (retries : nat) (rt : Runtime) (st : Server) (request : Request),
         present (headers_get request "x-forwarded-for") = None ->
         exists response st',
           Login.POST (S retries) rt st request = Some (response, st')
           /\ is_Some (limiters st' !! "login_unknown-ip")
           /\ forall k, k <> "login_unknown-ip" ->
                        limiters st' !! k = limiters st !! k).
Proof.
  split; [reflexivity|]. split; [reflexivity|].
  intros retries rt st request Hnone.
  destruct (POST_settles retries rt st request) as [[response st'] Hrun].
  exists response, st'. split; [exact Hrun|].
  destruct (POST_limiters _ _ _ _ _ _ Hrun) as [checked [settled Hcheck]].
  unfold LoginSpec.identity, AuthIndex.getClientIp in Hcheck.
  rewrite Hnone in Hcheck.
  change ("login_" ++ "unknown-ip") with "login_unknown-ip" in Hcheck.
  exact (checkRateLimit_limiters _ _ _ _ _ _ _ Hcheck).
Qed.

End ClientIdentity.

(** C10, counterexample: a login request that carries neither header is
    counted under [login_unknown-ip]; no limiter named [login_unknown] is
    created.  A request that carries only [cf-connecting-ip] is counted
    under the same identity. *)
Lemma login_identity_is_not_login_unknown :
  option_map (fun r => (limiters (snd r) !! "login_unknown",
                        bool_decide (is_Some (limiters (snd r)
                                                !! "login_unknown-ip"))))
    (Login.POST 1 (Examples.at_time Examples.t0) Scenario.fresh
       (Scenario.bad_login ∅))
  = Some (None, true)
  /\ AuthIndex.getClientIp (Scenario.bad_login ∅) = "unknown-ip"
  /\ AuthIndex.getClientIp (Scenario.bad_login Scenario.from_cloudflare)
     = "unknown-ip".
Proof. split; [vm_compute; reflexivity|]. split; reflexivity. Qed.

(** The login of a client behind Cloudflare only. *)
Lemma login_identity_without_forwarded_header_witness :
  exists response st',
    Login.POST 1 (Examples.at_time Examples.t0) Scenario.fresh
      (Scenario.bad_login Scenario.from_cloudflare) = Some (response, st')
    /\ is_Some (limiters st' !! "login_unknown-ip")
    /\ forall k, k <> "login_unknown-ip" ->
                 limiters st' !! k = limiters Scenario.fresh !! k.
Proof.
  apply (proj2 (proj2 (login_identity_without_forwarded_header
                         (H := Reference.platform)))).
  reflexivity.
Defined.

(** Six attempts with a wrong password from one client in half a second:
    five credential failures and then the rate-limit denial; the store was
    queried five times. *)
Example six_wrong_passwords :
  let calls :=
    map (fun t => (t, Scenario.bad_login Scenario.from_client))
      [Examples.t0; Examples.t0 + 100; Examples.t0 + 200; Examples.t0 + 300;
       Examples.t0 + 400; Examples.t0 + 500] in
  option_map (fun r => (fst r, journal (snd r)))
    (LoginSpec.attempts 0 Examples.server_env Scenario.fresh calls)
  = Some ([Login.bad_credentials; Login.bad_credentials; Login.bad_credentials;
           Login.bad_credentials; Login.bad_credentials; RateLimit.too_many],
          [ByEmail "alice@example.com"; ByEmail "alice@example.com";
           ByEmail "alice@example.com"; ByEmail "alice@example.com";
           ByEmail "alice@example.com"]).
Proof. vm_compute. reflexivity. Qed.


(** * Further properties of the code *)

(** ** More facts about the string helpers *)

(** [startsWith] is the prefix test. *)
Lemma startsWith_prefix (p s : string) :
  startsWith p s = true <-> exists rest, s = p ++ rest.
Proof.
  revert s. induction p as [|a p IH]; intros s; simpl.
  - split; [intros _; now exists s | reflexivity].
  - destruct s as [|b s].
    + split; [discriminate | intros [rest Hr]; discriminate Hr].
    + rewrite andb_true_iff, Ascii.eqb_eq, IH. split.
      * intros [-> [rest ->]]. now exists rest.
      * intros [rest Hr]. injection Hr as -> ->. split; [reflexivity | now exists rest].
Qed.

Lemma substring_from_app (p rest : string) :
  substring_from (String.length p) (p ++ rest) = rest.
Proof. induction p as [|a p IH]; simpl; [now destruct rest | exact IH]. Qed.

Lemma present_Some (s t : string) :
  present (Some s) = Some t <-> s = t /\ t <> EmptyString.
Proof.
  unfold present. destruct s; simpl.
  - split; [discriminate | intros [<- Hn]; now contradiction Hn].
  - split; [intros Hs; injection Hs as <-; split; [reflexivity | discriminate]
           | intros [<- _]; reflexivity].
Qed.

Lemma string_nonempty (s : string) :
  s <> EmptyString -> negb (String.eqb s EmptyString) = true.
Proof. destruct s; [congruence | reflexivity]. Qed.

(** The segments of a string made of three parts without dots. *)
Lemma split_three (h p s : string) :
  EdgeSpec.segment h -> EdgeSpec.segment p -> EdgeSpec.segment s ->
  split "." (h ++ "." ++ p ++ "." ++ s) = [h; p; s].
Proof.
  intros Hh Hp Hs.
  change (h ++ "." ++ p ++ "." ++ s)
    with (h ++ String "." (p ++ String "." s)).
  rewrite split_app by exact Hh. rewrite split_app by exact Hp.
  rewrite split_no_sep by exact Hs. reflexivity.
Qed.

(** ** Full verification (jwt.ts) *)

Section VerifiedTokens.
Context `{Platform}.

(** [verifyToken] answers a payload only with a secret and when
    [jwt.verify] returns it. *)
Lemma verifyToken_Some (rt : Runtime) (token : string) (payload : json) :
  Jwt.verifyToken rt token = Ok (Some payload) ->
  exists secret,
    env rt !! "JWT_SECRET" = Some secret /\ is_empty secret = false
    /\ Jwt.jwt_verify rt token secret = Ok payload.
Proof.
  unfold Jwt.verifyToken. destruct (env rt !! "JWT_SECRET") as [secret|];
    [|discriminate].
  destruct (is_empty secret) eqn:Hne; [discriminate|].
  intros Hv. exists secret. split; [reflexivity|]. split; [exact Hne|].
  destruct (Jwt.jwt_verify rt token secret) as [j|m]; simpl in Hv; congruence.
Qed.

(** What [jwt.verify] has checked when it returns. *)
Lemma jwt_verify_Ok (rt : Runtime) (token secret : string) (payload : json) :
  Jwt.jwt_verify rt token secret = Ok payload ->
  exists h p s a header,
    split "." token = [h; p; s]
    /\ Jwt.jwt_decode token = Ok (Some (header, payload))
    /\ s = Jwt.signature_of a secret (h ++ "." ++ p)
    /\ (forall e, get_prop payload "exp" = Ok (Json (JNum e)) ->
                  clock_seconds rt < e).
Proof.
  unfold Jwt.jwt_verify.
  destruct (is_empty token); [discriminate|].
  destruct (split "." token) as [|h [|p [|s [|x l]]]]; try discriminate.
  destruct (Jwt.jwt_decode token) as [[[header payload']|]|m]; simpl bind;
    try discriminate.
  destruct (is_empty (trim s)); [discriminate|].
  destruct (get_prop header "alg") as [alg|m]; simpl bind; [|discriminate].
  destruct (Jwt.alg_of_value alg) as [a|]; [|discriminate].
  destruct (String.eqb s (Jwt.signature_of a secret (h ++ "." ++ p))) eqn:Hs;
    simpl negb; cbv iota; [|discriminate].
  apply String.eqb_eq in Hs.
  destruct (get_prop payload' "nbf") as [nbf|m]; simpl bind; [|discriminate].
  destruct (if is_defined nbf then _ else _) as [[]|m]; simpl bind; [|discriminate].
  destruct (get_prop payload' "exp") as [expiry|m] eqn:Hexp; simpl bind;
    [|discriminate].
  destruct (if is_defined expiry then _ else _) as [[]|m] eqn:Hok; simpl bind;
    [|discriminate].
  intros Hp. injection Hp as <-.
  exists h, p, s, a, header. repeat split; try assumption.
  intros e He. rewrite Hexp in He. injection He as ->. simpl in Hok.
  destruct (clock_seconds rt >=? e) eqn:Hc; [discriminate|].
  rewrite Z.geb_leb in Hc. apply Z.leb_gt in Hc. exact Hc.
Qed.

(** X1. What full verification vouches for: a token that [verifyToken]
    accepts has three segments, its third segment is the base64url HMAC of
    the first two under [JWT_SECRET] with one of HS256, HS384 and HS512,
    and a numeric [exp] of its payload is after the clock. *)
Theorem verifyToken_sound (rt : Runtime) (token : string) (payload : json) :
  Jwt.verifyToken rt token = Ok (Some payload) ->
  exists secret h p s a,
    env rt !! "JWT_SECRET" = Some secret
    /\ is_empty secret = false
    /\ split "." token = [h; p; s]
    /\ s = Jwt.signature_of a secret (h ++ "." ++ p)
    /\ (forall e, get_prop payload "exp" = Ok (Json (JNum e)) ->
                  clock_seconds rt < e).
Proof.
  intros Hv. apply verifyToken_Some in Hv as [secret [Hs [Hne Hv]]].
  apply jwt_verify_Ok in Hv as [h [p [s [a [header [Hsp [_ [Hsig Hexp]]]]]]]].
  exists secret, h, p, s, a. auto.
Qed.

(** Without a secret both functions of jwt.ts throw. *)
Lemma no_secret (rt : Runtime) :
  present (env rt !! "JWT_SECRET") = None ->
  (forall payload, Jwt.createToken rt payload
     = Throw "JWT_SECRET is not defined in environment variables")
  /\ (forall token, Jwt.verifyToken rt token
        = Throw "JWT_SECRET is not defined in environment variables").
Proof.
  intros Hs. unfold Jwt.createToken, Jwt.verifyToken, present in *.
  destruct (env rt !! "JWT_SECRET") as [s|]; [|split; reflexivity].
  destruct (is_empty s); [split; reflexivity | discriminate Hs].
Qed.

(** The token that [createToken] makes of [{ sub, email, name }]. *)
Lemma createToken_identity (rt : Runtime) (secret sub email : string)
    (name : option string) (span : Z) :
  env rt !! "JWT_SECRET" = Some secret ->
  is_empty secret = false ->
  parseInt (env_or rt "JWT_EXPIRES_IN" "86400") = Some span ->
  Jwt.createToken rt (TokenSpec.identity sub email name)
  = Ok (Jwt.jws_sign Jwt.jose_header
          (Jwt.claims_object (TokenSpec.identity sub email name)
             (clock_seconds rt) (clock_seconds rt + span)) secret).
Proof.
  intros Hs Hne Hspan. unfold Jwt.createToken, Jwt.jwt_sign.
  rewrite Hs, Hne, Hspan. reflexivity.
Qed.

End VerifiedTokens.

(** The token of a login of [Scenario.alice], verified at once. *)
Lemma verifyToken_sound_witness :
  exists secret h p s a,
    env (Examples.at_time Examples.t0) !! "JWT_SECRET" = Some secret
    /\ is_empty secret = false
    /\ split "." Scenario.alice_token = [h; p; s]
    /\ s = Jwt.signature_of a secret (h ++ "." ++ p)
    /\ (forall e, get_prop Cases.alice_claims "exp" = Ok (Json (JNum e)) ->
                  clock_seconds (Examples.at_time Examples.t0) < e).
Proof.
  apply (verifyToken_sound (Examples.at_time Examples.t0) Scenario.alice_token
           Cases.alice_claims).
  vm_compute. reflexivity.
Defined.

(** ** The two tiers on the same token *)

Section Tiers.
Context `{Platform}.

(** The two expiry tests, in milliseconds and in seconds, agree. *)
Lemma expired_at_seconds (rt : Runtime) (e : Z) :
  EdgeJwt.expired_at rt (Json (JNum e)) = (clock_seconds rt >=? e).
Proof.
  unfold EdgeJwt.expired_at, clock_seconds. simpl.
  rewrite !Z.geb_leb.
  destruct (Z.leb_spec (e * 1000) (now rt)) as [Hle|Hlt];
    symmetry; [apply Z.leb_le | apply Z.leb_gt].
  - apply Z.div_le_lower_bound; lia.
  - apply Z.div_lt_upper_bound; lia.
Qed.

(** X2. The two tiers agree on the tokens of [createToken]: for a non-empty
    subject and e-mail and an expiry other than 0, at every later time
    [verifyToken] returns the claims and [isAuthenticated] is true while
    the clock in seconds is before [exp], and from then on [verifyToken]
    answers [null] and [isAuthenticated] is false.  The platform's codec
    is assumed right on the header and the claims, for both decoders. *)
Theorem tiers_agree_on_issued_tokens
    (rt : Runtime) (secret sub email path : string) (name : option string)
    (span : Z) :
  let issued := clock_seconds rt in
  let claims :=
    Jwt.claims_object (TokenSpec.identity sub email name) issued
      (issued + span) in
  env rt !! "JWT_SECRET" = Some secret ->
  is_empty secret = false ->
  parseInt (env_or rt "JWT_EXPIRES_IN" "86400") = Some span ->
  sub <> EmptyString ->
  email <> EmptyString ->
  issued + span <> 0 ->
  TokenSpec.well_encoded Jwt.jose_header claims secret ->
  EdgeSpec.decodes claims ->
  exists token,
    Jwt.createToken rt (TokenSpec.identity sub email name) = Ok token
    /\ forall rt' : Runtime,
         env rt' !! "JWT_SECRET" = Some secret ->
         Jwt.verifyToken rt' token
         = Ok (if clock_seconds rt' <? issued + span then Some claims else None)
         /\ AuthMiddleware.isAuthenticated rt' (Examples.with_cookie path token)
            = (clock_seconds rt' <? issued + span).
Proof.
  intros issued claims Hsecret Hne Hspan Hsub Hemail Hexp0 Hcodec Hedge.
  destruct (claims_object_fields (TokenSpec.identity sub email name)
              issued (issued + span))
    as [fields [Hfields [Hfsub [Hfemail [Hnbf Hfexp]]]]].
  fold claims in Hfields.
  exists (Jwt.jws_sign Jwt.jose_header claims secret).
  split; [exact (createToken_identity rt secret sub email name span Hsecret Hne Hspan)|].
  intros rt' Hsecret'. split.
  - unfold Jwt.verifyToken. rewrite Hsecret', Hne.
    rewrite Hfields in *.
    rewrite (jwt_verify_signed rt' fields secret Hcodec).
    simpl get_prop. rewrite Hnbf, Hfexp. simpl.
    rewrite Z.geb_leb, Z.ltb_antisym.
    destruct (issued + span <=? clock_seconds rt'); reflexivity.
  - unfold AuthMiddleware.isAuthenticated, AuthMiddleware.getAuthCookie,
      AuthMiddleware.TOKEN_NAME, Examples.with_cookie. simpl req_cookies.
    rewrite lookup_singleton_eq.
    assert (Hpres : present (Some (Jwt.jws_sign Jwt.jose_header claims secret))
                    = Some (Jwt.jws_sign Jwt.jose_header claims secret)).
    { unfold present, Jwt.jws_sign. now rewrite is_empty_app_dot. }
    rewrite Hpres. unfold Jwt.jws_sign.
    destruct Hcodec as [[_ [_ Hhc]] [[_ [_ Hpc]] [Hsc _]]].
    rewrite (simpleVerifyToken_decoded rt' _ _ _ _ claims
               (split_token _ _ _ Hhc Hpc Hsc) Hedge).
    rewrite Hfields. simpl get_prop. rewrite Hfsub, Hfemail, Hfexp.
    unfold TokenSpec.identity. cbn [bind Jwt.sub Jwt.email truthy].
    rewrite (string_nonempty sub Hsub), (string_nonempty email Hemail).
    cbn [negb orb]. rewrite expired_at_seconds.
    replace (issued + span =? 0) with false by (symmetry; apply Z.eqb_neq; exact Hexp0).
    cbn [negb andb catch].
    rewrite Z.geb_leb, Z.ltb_antisym.
    destruct (issued + span <=? clock_seconds rt'); reflexivity.
Qed.

(** X3. The constrained check reads the claims segment only: two tokens
    with the same second segment get the same answer, whatever their
    header and signature segments are. *)
Theorem simpleVerifyToken_reads_the_claims_only
    (rt : Runtime) (h h' p s s' : string) :
  EdgeSpec.segment h -> EdgeSpec.segment h' -> EdgeSpec.segment p ->
  EdgeSpec.segment s -> EdgeSpec.segment s' ->
  EdgeJwt.simpleVerifyToken rt (h ++ "." ++ p ++ "." ++ s)
  = EdgeJwt.simpleVerifyToken rt (h' ++ "." ++ p ++ "." ++ s').
Proof.
  intros Hh Hh' Hp Hs Hs'. unfold EdgeJwt.simpleVerifyToken.
  rewrite !split_three by assumption. reflexivity.
Qed.

End Tiers.

(** A token made at [Examples.t0] with the default lifetime. *)
Lemma tiers_agree_on_issued_tokens_witness :
  let rt := Examples.at_time Examples.t0 in
  let issued := clock_seconds rt in
  let claims :=
    Jwt.claims_object (TokenSpec.identity "u1" "a@b.c" (Some "Al"))
      issued (issued + 86400) in
  exists token,
    Jwt.createToken rt (TokenSpec.identity "u1" "a@b.c" (Some "Al")) = Ok token
    /\ forall rt' : Runtime,
         env rt' !! "JWT_SECRET" = Some "s3cret" ->
         Jwt.verifyToken rt' token
         = Ok (if clock_seconds rt' <? issued + 86400 then Some claims
               else None)
         /\ AuthMiddleware.isAuthenticated rt'
              (Examples.with_cookie "/dashboard" token)
            = (clock_seconds rt' <? issued + 86400).
Proof.
  apply (tiers_agree_on_issued_tokens (Examples.at_time Examples.t0)
           "s3cret" "u1" "a@b.c" "/dashboard" (Some "Al") 86400).
  - vm_compute; reflexivity.
  - reflexivity.
  - vm_compute; reflexivity.
  - discriminate.
  - discriminate.
  - vm_compute. discriminate.
  - vm_compute. repeat split.
  - vm_compute. reflexivity.
Defined.

(** A signed token and a forgery with its claims. *)
Lemma simpleVerifyToken_reads_the_claims_only_witness :
  EdgeJwt.simpleVerifyToken (Examples.at_time Examples.t0)
    (Examples.header_segment ++ "." ++ Examples.claims_without_exp ++ "."
     ++ Examples.signature_without_exp)
  = EdgeJwt.simpleVerifyToken (Examples.at_time Examples.t0)
      ("e30" ++ "." ++ Examples.claims_without_exp ++ "." ++ "forged").
Proof.
  apply (simpleVerifyToken_reads_the_claims_only (Examples.at_time Examples.t0)
           Examples.header_segment "e30" Examples.claims_without_exp
           Examples.signature_without_exp "forged"); reflexivity.
Defined.

(** ** The route guard (middleware.ts) *)

(** A path matches a route when it is the route or continues it with a
    slash. *)
Lemma matches_iff (pathname route : string) :
  Middleware.matches pathname route = true
  <-> pathname = route \/ exists rest, pathname = (route ++ "/") ++ rest.
Proof.
  unfold Middleware.matches.
  rewrite orb_true_iff, String.eqb_eq, startsWith_prefix. reflexivity.
Qed.

Section Guard.
Context `{Platform}.

(** [isAuthenticated] looks at the clock and at the session cookie. *)
Lemma isAuthenticated_cookie (rt rt' : Runtime) (r r' : Request) :
  now rt = now rt' ->
  req_cookies r !! "auth_token" = req_cookies r' !! "auth_token" ->
  AuthMiddleware.isAuthenticated rt r = AuthMiddleware.isAuthenticated rt' r'.
Proof.
  intros Hnow Hc.
  unfold AuthMiddleware.isAuthenticated, AuthMiddleware.getAuthCookie,
    AuthMiddleware.TOKEN_NAME.
  rewrite Hc. destruct (present _) as [token|]; [|reflexivity].
  unfold EdgeJwt.simpleVerifyToken, EdgeJwt.expired_at. rewrite Hnow.
  reflexivity.
Qed.

Lemma middleware_cookie (rt rt' : Runtime)
    (r r' : Request) :
  now rt = now rt' ->
  pathname r = pathname r' ->
  req_cookies r !! "auth_token" = req_cookies r' !! "auth_token" ->
  Middleware.middleware rt r = Middleware.middleware rt' r'.
Proof.
  intros Hnow Hp Hc. unfold Middleware.middleware.
  rewrite Hp, (isAuthenticated_cookie rt rt' r r' Hnow Hc). reflexivity.
Qed.

(** X4. The guard decides by the path, the session cookie and the clock:
    two requests with the same path and the same [auth_token] cookie get
    the same outcome, whatever their other cookies (the [auth_state]
    marker among them), headers and bodies are and whatever the
    environment holds. *)
Theorem guard_reads_path_and_session_cookie (rt rt' : Runtime)
    (r r' : Request) :
  now rt = now rt' ->
  pathname r = pathname r' ->
  req_cookies r !! "auth_token" = req_cookies r' !! "auth_token" ->
  Middleware.middleware rt r = Middleware.middleware rt' r'.
Proof. apply middleware_cookie. Qed.

(** X5. No redirect loop: when the guard redirects a request, the same
    browser asking for the target of the redirect passes. *)
Theorem redirect_target_passes (rt : Runtime) (request : Request)
    (target : string) :
  Middleware.middleware rt request = Middleware.Redirect target ->
  Middleware.middleware rt (GuardSpec.revisit request target) = Middleware.Next.
Proof.
  intros Hr.
  assert (Ha : AuthMiddleware.isAuthenticated rt (GuardSpec.revisit request target)
               = AuthMiddleware.isAuthenticated rt request)
    by (apply isAuthenticated_cookie; reflexivity).
  unfold Middleware.middleware in *. simpl pathname. rewrite Ha.
  destruct (startsWith "/api/" (pathname request)); [discriminate|].
  destruct (AuthMiddleware.isAuthenticated rt request).
  - rewrite andb_true_r, andb_false_r in Hr.
    destruct (Middleware.some_route Middleware.authRoutes (pathname request));
      [|discriminate].
    injection Hr as <-. reflexivity.
  - rewrite andb_false_r, andb_true_r in Hr.
    destruct (Middleware.some_route Middleware.protectedRoutes (pathname request));
      [|discriminate].
    injection Hr as <-. reflexivity.
Qed.

End Guard.

(** X6. The guarded paths: the protected paths are [/dashboard] and what
    starts with [/dashboard/]; the public-only paths are [/], [/signin],
    [/signup] and what starts with [//], [/signin/] or [/signup/]; and no
    path is both. *)
Theorem guarded_paths (pathname : string) :
  (Middleware.some_route Middleware.protectedRoutes pathname = true
   <-> pathname = "/dashboard" \/ exists rest, pathname = "/dashboard/" ++ rest)
  /\ (Middleware.some_route Middleware.authRoutes pathname = true
      <-> pathname = "/" \/ pathname = "/signin" \/ pathname = "/signup"
          \/ exists rest, pathname = "//" ++ rest
                          \/ pathname = "/signin/" ++ rest
                          \/ pathname = "/signup/" ++ rest)
  /\ Middleware.some_route Middleware.protectedRoutes pathname
     && Middleware.some_route Middleware.authRoutes pathname = false.
Proof.
  assert (Hp : Middleware.some_route Middleware.protectedRoutes pathname = true
               <-> pathname = "/dashboard"
                   \/ exists rest, pathname = "/dashboard/" ++ rest).
  { unfold Middleware.some_route, Middleware.protectedRoutes. simpl existsb.
    rewrite orb_false_r. apply matches_iff. }
  assert (Ha : Middleware.some_route Middleware.authRoutes pathname = true
               <-> pathname = "/" \/ pathname = "/signin" \/ pathname = "/signup"
                   \/ exists rest, pathname = "//" ++ rest
                                   \/ pathname = "/signin/" ++ rest
                                   \/ pathname = "/signup/" ++ rest).
  { unfold Middleware.some_route, Middleware.authRoutes. simpl existsb.
    rewrite orb_false_r, !orb_true_iff, !matches_iff. simpl. split.
    - intros [[->|[rest ->]]|[[->|[rest ->]]|[->|[rest ->]]]]; eauto 8.
    - intros [->|[->|[->|[rest [->|[->| ->]]]]]]; eauto 8. }
  split; [exact Hp|]. split; [exact Ha|].
  apply not_true_iff_false. intros Hb. apply andb_true_iff in Hb as [E1 E2].
  exfalso. apply Hp in E1. apply Ha in E2.
  destruct E1 as [->|[rest ->]];
    destruct E2 as [E|[E|[E|[rest' [E|[E|E]]]]]]; cbv [String.append] in E; congruence.
Qed.

(** The marker cookie, a bearer header and a missing secret change
    nothing. *)
Lemma guard_reads_path_and_session_cookie_witness :
  Middleware.middleware (Examples.at_time Examples.t0)
    (Examples.with_cookie "/signin" Examples.token_without_exp)
  = Middleware.middleware (Examples.without_secret Examples.t0)
      (Cases.decorated "/signin" Examples.token_without_exp).
Proof.
  apply (guard_reads_path_and_session_cookie (Examples.at_time Examples.t0)
           (Examples.without_secret Examples.t0)
           (Examples.with_cookie "/signin" Examples.token_without_exp)
           (Cases.decorated "/signin" Examples.token_without_exp));
    vm_compute; reflexivity.
Defined.

(** A visitor sent from the dashboard to the sign-in page. *)
Lemma redirect_target_passes_witness :
  Middleware.middleware (Examples.at_time Examples.t0)
    (GuardSpec.revisit (Examples.anonymous "/dashboard/settings") "/signin")
  = Middleware.Next.
Proof.
  apply (redirect_target_passes (Examples.at_time Examples.t0)
           (Examples.anonymous "/dashboard/settings") "/signin").
  vm_compute. reflexivity.
Defined.

(** ** The status routes (check and me) *)

Section StatusRoutes.
Context `{Platform}.

(** X7. Where the status routes take the token from: both routes read it
    the same way, and it is the non-empty [auth_token] cookie when there
    is one, and otherwise the non-empty text after [Bearer ] in the
    [Authorization] header. *)
Theorem token_of_sources (request : Request) (token : string) :
  MeRoute.token_of request = CheckRoute.token_of request
  /\ (CheckRoute.token_of request = Some token
      <-> Cookies.getAuthCookie request = Some token
          \/ (Cookies.getAuthCookie request = None
              /\ headers_get request "Authorization" = Some ("Bearer " ++ token)
              /\ token <> EmptyString)).
Proof.
  split; [reflexivity|].
  unfold CheckRoute.token_of.
  destruct (Cookies.getAuthCookie request) as [c|].
  { split; [auto | intros [Hc|[Hc _]]; [exact Hc | discriminate Hc]]. }
  destruct (headers_get request "Authorization") as [h|].
  2: { split; [discriminate | intros [Hc|[_ [Hc _]]]; discriminate Hc]. }
  change (present (Some h)) with (if is_empty h then None else Some h).
  split.
  - intros Ht. right. split; [reflexivity|].
    destruct (is_empty h) eqn:Hh; [discriminate|].
    destruct (startsWith "Bearer " h) eqn:Hb; [|discriminate].
    apply startsWith_prefix in Hb as [rest ->].
    pose proof (substring_from_app "Bearer " rest) as Hsub.
    simpl String.length in Hsub. rewrite Hsub in Ht. apply present_Some in Ht as [-> Hn].
    split; [reflexivity | exact Hn].
  - intros [Hc|[_ [Hh Hn]]]; [discriminate Hc|].
    injection Hh as ->.
    change (is_empty ("Bearer " ++ token)) with false. cbv iota.
    assert (Hb : startsWith "Bearer " ("Bearer " ++ token) = true)
      by (apply startsWith_prefix; now exists token).
    rewrite Hb. pose proof (substring_from_app "Bearer " token) as Hsub.
    simpl String.length in Hsub. rewrite Hsub. apply present_Some. auto.
Qed.

(** The check route on a token that [verifyToken] accepts. *)
Lemma check_route_verified (rt : Runtime) (request : Request) (token : string)
    (payload : json) :
  CheckRoute.token_of request = Some token ->
  Jwt.verifyToken rt token = Ok (Some payload) ->
  CheckRoute.GET rt request
  = if truthy (Json payload) && Spec.has_claim payload "sub" then
      json_response
        (AuthStatus true
           (catch (get_prop payload "sub") Undefined)
           (catch (get_prop payload "email") Undefined)) 200
    else CheckRoute.not_authenticated.
Proof.
  intros Ht Hv. unfold CheckRoute.GET, Spec.has_claim. rewrite Ht, Hv.
  cbn [bind]. destruct (truthy (Json payload)) eqn:Hp; [|reflexivity].
  destruct (get_prop_truthy payload "sub" Hp) as [p_sub Hs].
  destruct (get_prop_truthy payload "email" Hp) as [p_email He].
  rewrite Hs, He. cbn [bind negb andb catch].
  destruct (truthy p_sub); reflexivity.
Qed.

(** X8. The check route answers 200 only for a verified token: the request
    carries a token whose third segment is the HMAC of the first two under
    [JWT_SECRET], [verifyToken] accepts it, a numeric [exp] is after the
    clock, the [sub] claim is truthy, and the body gives the [sub] and
    [email] claims of the token. *)
Theorem check_route_vouches_for_the_token (rt : Runtime) (request : Request) :
  status (CheckRoute.GET rt request) = 200 ->
  exists token secret h p s a payload p_sub p_email,
    CheckRoute.token_of request = Some token
    /\ env rt !! "JWT_SECRET" = Some secret
    /\ split "." token = [h; p; s]
    /\ s = Jwt.signature_of a secret (h ++ "." ++ p)
    /\ Jwt.verifyToken rt token = Ok (Some payload)
    /\ (forall e, get_prop payload "exp" = Ok (Json (JNum e)) ->
                  clock_seconds rt < e)
    /\ get_prop payload "sub" = Ok p_sub
    /\ truthy p_sub = true
    /\ get_prop payload "email" = Ok p_email
    /\ CheckRoute.GET rt request
       = json_response (AuthStatus true p_sub p_email) 200.
Proof.
  intros Hs.
  destruct (CheckRoute.token_of request) as [token|] eqn:Ht.
  2: { unfold CheckRoute.GET in Hs. rewrite Ht in Hs. discriminate Hs. }
  destruct (Jwt.verifyToken rt token) as [[payload|]|msg] eqn:Hv.
  2, 3: unfold CheckRoute.GET in Hs; rewrite Ht, Hv in Hs; discriminate Hs.
  pose proof (check_route_verified rt request token payload Ht Hv) as Hget.
  rewrite Hget in Hs.
  destruct (truthy (Json payload)) eqn:Hp; [|discriminate Hs].
  unfold Spec.has_claim in *.
  destruct (get_prop_truthy payload "sub" Hp) as [p_sub Hsub].
  destruct (get_prop_truthy payload "email" Hp) as [p_email Hemail].
  rewrite Hsub, Hemail in *. simpl in Hget.
  destruct (truthy p_sub) eqn:Htr; [|discriminate Hs].
  pose proof Hv as Hv'.
  apply verifyToken_Some in Hv' as [secret [Hsec [Hne Hjv]]].
  apply jwt_verify_Ok in Hjv as [h [p [s [a [header [Hsp [_ [Hsig Hexp]]]]]]]].
  exists token, secret, h, p, s, a, payload, p_sub, p_email.
  repeat split; assumption.
Qed.

(** X9. The two status routes reject the same requests: the check route
    answers 401 exactly when the me route does. *)
Theorem status_routes_reject_alike (rt : Runtime) (st : Server)
    (request : Request) :
  status (CheckRoute.GET rt request) = 401
  <-> status (fst (MeRoute.GET rt st request)) = 401.
Proof.
  unfold CheckRoute.GET, MeRoute.GET.
  change (MeRoute.token_of request) with (CheckRoute.token_of request).
  destruct (CheckRoute.token_of request) as [token|]; [|split; reflexivity].
  destruct (Jwt.verifyToken rt token) as [[payload|]|msg]; cbn [bind catch];
    [| split; reflexivity | split; discriminate].
  destruct (truthy (Json payload)) eqn:Hp; cbn [negb]; [|split; reflexivity].
  destruct (get_prop_truthy payload "sub" Hp) as [p_sub Hsub].
  destruct (get_prop_truthy payload "email" Hp) as [p_email Hemail].
  rewrite Hsub, Hemail. cbn [bind catch].
  destruct (truthy p_sub) eqn:Htr; cbn [negb]; [|split; reflexivity].
  destruct p_sub as [|[| | |i| |]|]; try (split; discriminate).
  unfold findUnique. destruct (available st); [|split; discriminate].
  destruct (List.find _ _); split; discriminate.
Qed.

(** X10. The me route serves the subject of the token: it sets no cookie
    and never changes the users; a 401 leaves the server as it was; and
    a 200 or 404 comes after one query of the store for the [sub] of a
    token that [verifyToken] accepts, 200 with the profile of the user
    found and 404 when there is none. *)
Theorem me_route_serves_the_token_subject (rt : Runtime) (st st' : Server)
    (request : Request) (response : Response) :
  MeRoute.GET rt st request = (response, st') ->
  users st' = users st
  /\ cookies response = ∅
  /\ (status response = 401 -> st' = st)
  /\ (status response = 200 \/ status response = 404 ->
      exists token payload i,
        MeRoute.token_of request = Some token
        /\ Jwt.verifyToken rt token = Ok (Some payload)
        /\ get_prop payload "sub" = Ok (Json (JStr i))
        /\ journal st' = (journal st ++ [ById i])%list
        /\ match List.find (selects (ById i)) (users st) with
           | Some user =>
               response
               = json_response
                   (Profile (Store.id user) (Store.email user)
                      (Store.name user) (createdAt user)) 200
           | None => response = json_response (ErrorBody "User not found") 404
           end).
Proof.
  unfold MeRoute.GET.
  destruct (MeRoute.token_of request) as [token|];
    [|intros Hr; injection Hr as <- <-; intuition discriminate].
  destruct (Jwt.verifyToken rt token) as [[payload|]|msg] eqn:Hv;
    [| intros Hr; injection Hr as <- <-; intuition discriminate
     | intros Hr; injection Hr as <- <-; intuition discriminate].
  destruct (truthy (Json payload)) eqn:Hp; cbn [negb];
    [|intros Hr; injection Hr as <- <-; intuition discriminate].
  destruct (get_prop payload "sub") as [p_sub|msg] eqn:Hsub;
    [|intros Hr; injection Hr as <- <-; intuition discriminate].
  destruct (truthy p_sub) eqn:Htr; cbn [negb];
    [|intros Hr; injection Hr as <- <-; intuition discriminate].
  destruct p_sub as [|[| | |i| |]|];
    try (intros Hr; injection Hr as <- <-; intuition discriminate).
  unfold findUnique. destruct (available st) eqn:Ha.
  - destruct (List.find (selects (ById i)) (users st)) as [user|] eqn:Hf;
      intros Hr; injection Hr as <- <-; simpl;
      (do 2 (split; [reflexivity|])); (split; [discriminate|]);
      intros _; exists token, payload, i; rewrite Hf; auto.
  - intros Hr; injection Hr as <- <-; simpl.
    do 2 (split; [reflexivity|]). split; [discriminate|].
    intros [Hs|Hs]; discriminate Hs.
Qed.

End StatusRoutes.

(** The check route on the token of [Scenario.alice]. *)
Lemma check_route_vouches_for_the_token_witness :
  let rt := Examples.at_time Examples.t0 in
  let request := Examples.with_cookie "/api/auth/check" Scenario.alice_token in
  exists token secret h p s a payload p_sub p_email,
    CheckRoute.token_of request = Some token
    /\ env rt !! "JWT_SECRET" = Some secret
    /\ split "." token = [h; p; s]
    /\ s = Jwt.signature_of a secret (h ++ "." ++ p)
    /\ Jwt.verifyToken rt token = Ok (Some payload)
    /\ (forall e, get_prop payload "exp" = Ok (Json (JNum e)) ->
                  clock_seconds rt < e)
    /\ get_prop payload "sub" = Ok p_sub
    /\ truthy p_sub = true
    /\ get_prop payload "email" = Ok p_email
    /\ CheckRoute.GET rt request
       = json_response (AuthStatus true p_sub p_email) 200.
Proof.
  apply (check_route_vouches_for_the_token (Examples.at_time Examples.t0)
           (Examples.with_cookie "/api/auth/check" Scenario.alice_token)).
  vm_compute. reflexivity.
Defined.

(** The me route on the token of [Scenario.alice]. *)
Lemma me_route_serves_the_token_subject_witness :
  let rt := Examples.at_time Examples.t0 in
  let request := Examples.with_cookie "/api/auth/me" Scenario.alice_token in
  let response := fst (MeRoute.GET rt Scenario.fresh request) in
  let st' := snd (MeRoute.GET rt Scenario.fresh request) in
  users st' = users Scenario.fresh
  /\ cookies response = ∅
  /\ (status response = 401 -> st' = Scenario.fresh)
  /\ (status response = 200 \/ status response = 404 ->
      exists token payload i,
        MeRoute.token_of request = Some token
        /\ Jwt.verifyToken rt token = Ok (Some payload)
        /\ get_prop payload "sub" = Ok (Json (JStr i))
        /\ journal st' = (journal Scenario.fresh ++ [ById i])%list
        /\ match List.find (selects (ById i)) (users Scenario.fresh) with
           | Some user =>
               response
               = json_response
                   (Profile (Store.id user) (Store.email user)
                      (Store.name user) (createdAt user)) 200
           | None => response = json_response (ErrorBody "User not found") 404
           end).
Proof.
  apply (me_route_serves_the_token_subject (Examples.at_time Examples.t0)
           Scenario.fresh).
  apply surjective_pairing.
Defined.

(** ** More on the rate limiter (rate-limiter.ts) *)

Section Buckets.

Local Open Scope Q_scope.

Lemma Qltb_inv (a b : Q) :
  (RateLimit.Qltb a b = true -> a < b)
  /\ (RateLimit.Qltb a b = false -> b <= a).
Proof.
  unfold RateLimit.Qltb. destruct (Qle_bool b a) eqn:E; simpl.
  - apply Qle_bool_iff in E. split; [discriminate | intros _; exact E].
  - split; [intros _ | discriminate].
    apply Qnot_le_lt. intros Hle. apply Qle_bool_iff in Hle. congruence.
Qed.

(** A drip keeps the content within the bounds. *)
Lemma drip_bounds (t : Z) (l : RateLimit.RateLimiter) :
  RateLimit.content (RateLimit.drip t l)
  <= inject_Z RateLimit.ATTEMPTS_PER_MINUTE
  /\ (0 <= RateLimit.content l -> 0 <= RateLimit.content (RateLimit.drip t l)).
Proof.
  split.
  - unfold RateLimit.drip. simpl. apply Q.le_min_r.
  - intros Hc. apply drip_lower; [exact Hc|]. now apply inject_Z_nonneg.
Qed.

(** What the bucket gives back when it hands out one token. *)
Lemma bucket_removeTokens_inv (retries : nat) (t : Z)
    (l : RateLimit.RateLimiter) (r : Q) (l2 : RateLimit.RateLimiter) (s : Z) :
  RateLimit.bucket_removeTokens retries 1 t l = Some (r, l2, s) ->
  0 <= r /\ r <= 4 /\ RateLimit.content l2 = r
  /\ RateLimit.curIntervalStart l2 = RateLimit.curIntervalStart l
  /\ RateLimit.tokensThisInterval l2 = RateLimit.tokensThisInterval l
  /\ (t <= s)%Z.
Proof.
  revert t l. induction retries as [|n IH]; intros t l;
    cbn [RateLimit.bucket_removeTokens];
    pose proof (proj1 (drip_bounds t l)) as Hcap;
    change (inject_Z RateLimit.ATTEMPTS_PER_MINUTE) with 5 in Hcap;
    assert (Hs : RateLimit.curIntervalStart (RateLimit.drip t l)
                 = RateLimit.curIntervalStart l) by reflexivity;
    assert (Hu : RateLimit.tokensThisInterval (RateLimit.drip t l)
                 = RateLimit.tokensThisInterval l) by reflexivity;
    remember (RateLimit.drip t l) as l1 eqn:El1;
    destruct (RateLimit.Qltb (RateLimit.content l1) (inject_Z 1)) eqn:Hlt.
  - discriminate.
  - apply Qltb_inv in Hlt. change (inject_Z 1) with 1 in *.
    intros Hr. injection Hr as <- <- <-. simpl.
    repeat split; try assumption; try lra; lia.
  - apply Qltb_inv in Hlt. change (inject_Z 1) with 1 in *.
    intros Hr. apply IH in Hr as [H0 [H4 [Hc [Hs' [Hu' Ht]]]]].
    repeat split; try assumption; try congruence.
    assert (Hw : (0 <= Qceiling ((1 - RateLimit.content l1)
                     * (inject_Z RateLimit.WINDOW_SIZE_MS
                        / inject_Z RateLimit.ATTEMPTS_PER_MINUTE)))%Z).
    { change 0%Z with (Qceiling 0). apply Qceiling_resp_le.
      change (inject_Z RateLimit.WINDOW_SIZE_MS
              / inject_Z RateLimit.ATTEMPTS_PER_MINUTE) with (60000 # 5).
      lra. }
    lia.
  - apply Qltb_inv in Hlt. change (inject_Z 1) with 1 in *.
    intros Hr. injection Hr as <- <- <-. simpl.
    repeat split; try assumption; try lra; lia.
Qed.

(** One sleep at most, and no longer than one token takes to drip. *)
Lemma bucket_removeTokens_wait (retries : nat) (t : Z)
    (l : RateLimit.RateLimiter) (r : Q) (l2 : RateLimit.RateLimiter) (s : Z) :
  0 <= RateLimit.content l ->
  RateLimit.bucket_removeTokens (S retries) 1 t l = Some (r, l2, s) ->
  (s <= t + BucketSpec.longest_wait)%Z.
Proof.
  intros Hc. cbn [RateLimit.bucket_removeTokens].
  pose proof (proj2 (drip_bounds t l) Hc) as Hc1.
  assert (Hdrip : RateLimit.lastDrip (RateLimit.drip t l) = t) by reflexivity.
  remember (RateLimit.drip t l) as l1 eqn:El1.
  change (BucketSpec.longest_wait) with 12000%Z.
  destruct (RateLimit.Qltb (RateLimit.content l1) (inject_Z 1)) eqn:Hlt.
  2: { intros Hr. injection Hr as <- <- <-. lia. }
  apply Qltb_inv in Hlt. change (inject_Z 1) with 1 in *.
  remember (Qceiling ((1 - RateLimit.content l1)
                      * (inject_Z RateLimit.WINDOW_SIZE_MS
                         / inject_Z RateLimit.ATTEMPTS_PER_MINUTE)))
    as waitMs eqn:Ew.
  assert (Hw : (waitMs <= 12000)%Z).
  { rewrite Ew. rewrite <- (Qceiling_Z 12000). apply Qceiling_resp_le.
    change (inject_Z RateLimit.WINDOW_SIZE_MS
            / inject_Z RateLimit.ATTEMPTS_PER_MINUTE) with (60000 # 5).
    change (inject_Z 12000) with (12000 # 1). lra. }
  rewrite bucket_removeTokens_now.
  { intros Hr. injection Hr as <- <- <-. lia. }
  unfold RateLimit.drip. simpl RateLimit.content. rewrite Hdrip.
  pose proof (Qle_ceiling ((1 - RateLimit.content l1)
                           * (inject_Z RateLimit.WINDOW_SIZE_MS
                              / inject_Z RateLimit.ATTEMPTS_PER_MINUTE)))
    as Hceil.
  rewrite <- Ew in Hceil.
  assert (Hmax : inject_Z waitMs <= inject_Z (Z.max (t + waitMs - t) 0)).
  { rewrite <- Zle_Qle. lia. }
  change (inject_Z RateLimit.WINDOW_SIZE_MS
          / inject_Z RateLimit.ATTEMPTS_PER_MINUTE) with (60000 # 5) in Hceil.
  change (inject_Z RateLimit.ATTEMPTS_PER_MINUTE
          / inject_Z RateLimit.WINDOW_SIZE_MS) with (5 # 60000).
  change (inject_Z RateLimit.ATTEMPTS_PER_MINUTE) with (5 # 1).
  apply Q.min_glb; lra.
Qed.

(** What the limiter answers to a request for one token: [-1] at once and
    unchanged, when the running interval has handed out its tokens; or
    what is left in the bucket, with one more token counted in the running
    interval or as the first of a new one. *)
Lemma removeTokens_inv (retries : nat) (t : Z) (l : RateLimit.RateLimiter)
    (res : result (Q * RateLimit.RateLimiter * Z)) :
  RateLimit.removeTokens retries 1 t l = Some res ->
  (res = Ok (- (1), l, t) /\ RateSpec.exhausted l t)
  \/ (exists r l' s,
         res = Ok (r, l', s) /\ 0 <= r /\ r <= 4
         /\ RateLimit.content l' = r /\ (t <= s)%Z
         /\ ((RateLimit.tokensThisInterval l' = 1%Z
              /\ RateLimit.curIntervalStart l' = t)
             \/ (RateLimit.tokensThisInterval l'
                 = (RateLimit.tokensThisInterval l + 1)%Z
                 /\ (RateLimit.tokensThisInterval l <= 4)%Z
                 /\ RateLimit.curIntervalStart l' = RateLimit.curIntervalStart l))
         /\ (retries <> O -> 0 <= RateLimit.content l ->
             (s <= t + BucketSpec.longest_wait)%Z)).
Proof.
  unfold RateLimit.removeTokens.
  replace (1 >? RateLimit.ATTEMPTS_PER_MINUTE)%Z with false by reflexivity.
  destruct ((t <? RateLimit.curIntervalStart l)
            || (t - RateLimit.curIntervalStart l >=? RateLimit.WINDOW_SIZE_MS))%bool
    eqn:Hreset.
  - simpl RateLimit.tokensThisInterval.
    replace (1 >? RateLimit.ATTEMPTS_PER_MINUTE - 0)%Z with false by reflexivity.
    destruct (RateLimit.bucket_removeTokens retries 1 t _)
      as [[[r l2] s]|] eqn:Hb; [|discriminate].
    intros Hr. injection Hr as <-. right.
    pose proof Hb as Hwait.
    apply bucket_removeTokens_inv in Hb as [H0 [H4 [Hc [Hs [Hu Ht]]]]].
    simpl in Hs, Hu.
    exists r, {| RateLimit.content := RateLimit.content l2;
                 RateLimit.lastDrip := RateLimit.lastDrip l2;
                 RateLimit.curIntervalStart := RateLimit.curIntervalStart l2;
                 RateLimit.tokensThisInterval :=
                   (RateLimit.tokensThisInterval l2 + 1)%Z |}, s.
    simpl. rewrite Hu, Hs. repeat split; try assumption.
    + left. split; reflexivity.
    + intros Hn Hc0. destruct retries as [|n]; [congruence|].
      eapply bucket_removeTokens_wait; [|exact Hwait]. exact Hc0.
  - apply orb_false_iff in Hreset as [Hlo Hhi].
    apply Z.ltb_ge in Hlo. rewrite Z.geb_leb in Hhi. apply Z.leb_gt in Hhi.
    destruct (1 >? RateLimit.ATTEMPTS_PER_MINUTE - RateLimit.tokensThisInterval l)%Z
      eqn:Hused.
    + intros Hr. injection Hr as <-. left. split; [reflexivity|].
      rewrite Z.gtb_ltb in Hused. apply Z.ltb_lt in Hused.
      unfold RateSpec.exhausted. unfold RateLimit.ATTEMPTS_PER_MINUTE in *. lia.
    + rewrite Z.gtb_ltb in Hused. apply Z.ltb_ge in Hused.
      unfold RateLimit.ATTEMPTS_PER_MINUTE in Hused.
      destruct (RateLimit.bucket_removeTokens retries 1 t l)
        as [[[r l2] s]|] eqn:Hb; [|discriminate].
      intros Hr. injection Hr as <-. right.
      pose proof Hb as Hwait.
      apply bucket_removeTokens_inv in Hb as [H0 [H4 [Hc [Hs [Hu Ht]]]]].
      exists r, {| RateLimit.content := RateLimit.content l2;
                   RateLimit.lastDrip := RateLimit.lastDrip l2;
                   RateLimit.curIntervalStart := RateLimit.curIntervalStart l2;
                   RateLimit.tokensThisInterval :=
                     (RateLimit.tokensThisInterval l2 + 1)%Z |}, s.
      simpl. rewrite Hu, Hs. repeat split; try assumption.
      * right. repeat split. lia.
      * intros Hn Hc0. destruct retries as [|n]; [congruence|].
        exact (bucket_removeTokens_wait n t l r l2 s Hc0 Hwait).
Qed.

(** What [checkRateLimit] answers: the 429 response at once, the map as it
    was, for an identifier whose limiter is exhausted; or [null], with the
    limiter of the identifier replaced. *)
Lemma checkRateLimit_inv (retries : nat) (t : Z)
    (m : gmap string RateLimit.RateLimiter) (a : string)
    (checked : result (option Response))
    (m' : gmap string RateLimit.RateLimiter) (settled : Z) :
  RateLimit.checkRateLimit retries t m a = Some (checked, m', settled) ->
  let l := default (RateLimit.new_RateLimiter t) (m !! a) in
  (checked = Ok (Some RateLimit.too_many) /\ m !! a = Some l
   /\ RateSpec.exhausted l t /\ m' = m /\ settled = t)
  \/ (exists l',
         checked = Ok None /\ m' = <[a := l']> m /\ (t <= settled)%Z
         /\ 0 <= RateLimit.content l' /\ RateLimit.content l' <= 4
         /\ ((RateLimit.tokensThisInterval l' = 1%Z
              /\ RateLimit.curIntervalStart l' = t)
             \/ (RateLimit.tokensThisInterval l'
                 = (RateLimit.tokensThisInterval l + 1)%Z
                 /\ (RateLimit.tokensThisInterval l <= 4)%Z
                 /\ RateLimit.curIntervalStart l' = RateLimit.curIntervalStart l))
         /\ (retries <> O -> 0 <= RateLimit.content l ->
             (settled <= t + BucketSpec.longest_wait)%Z)).
Proof.
  intros Hrun l. unfold RateLimit.checkRateLimit in Hrun.
  assert (Hm1 : (match m !! a with
                 | Some _ => m
                 | None => <[a := RateLimit.new_RateLimiter t]> m
                 end) !! a = Some l).
  { subst l. destruct (m !! a) eqn:Hl; [exact Hl | apply lookup_insert_eq]. }
  rewrite Hm1 in Hrun.
  destruct (RateLimit.removeTokens retries 1 t l) as [res|] eqn:Hrem;
    [|discriminate].
  apply removeTokens_inv in Hrem
    as [[-> Hex]|[r [l' [s [-> [H0 [H4 [Hc [Hs [Hu Hw]]]]]]]]]].
  - rewrite Qltb_true in Hrun by reflexivity.
    injection Hrun as <- <- <-. left.
    destruct (m !! a) as [l0|] eqn:Hl.
    + subst l. simpl in *.
      split; [reflexivity|]. split; [reflexivity|]. split; [exact Hex|].
      split; [apply insert_id; exact Hl | reflexivity].
    + subst l. simpl in Hex. destruct Hex as [_ [_ Hex]].
      unfold RateLimit.ATTEMPTS_PER_MINUTE in Hex. simpl in Hex. lia.
  - rewrite (Qltb_false r 0 H0) in Hrun.
    injection Hrun as <- <- <-. right. exists l'.
    split; [reflexivity|]. split.
    { destruct (m !! a); [reflexivity | apply insert_insert_eq]. }
    rewrite Hc. repeat split; assumption.
Qed.

(** X11. The buckets are independent: a call of [checkRateLimit] for an
    identifier leaves the limiters of all other identifiers as they were,
    and its answer, its settling time and the new limiter of the
    identifier are the same in every map that holds the same limiter for
    the identifier. *)
Theorem buckets_are_independent (retries : nat) (t : Z)
    (m : gmap string RateLimit.RateLimiter) (a : string)
    (checked : result (option Response))
    (m' : gmap string RateLimit.RateLimiter) (settled : Z) :
  RateLimit.checkRateLimit retries t m a = Some (checked, m', settled) ->
  (forall b, b <> a -> m' !! b = m !! b)
  /\ (forall m2, m2 !! a = m !! a ->
        exists m2',
          RateLimit.checkRateLimit retries t m2 a = Some (checked, m2', settled)
          /\ m2' !! a = m' !! a).
Proof.
  intros Hrun. split.
  - intros b Hb. apply checkRateLimit_inv in Hrun.
    destruct Hrun as [[_ [_ [_ [-> _]]]]|[l' [_ [-> _]]]]; [reflexivity|].
    apply lookup_insert_ne. congruence.
  - intros m2 H2. revert Hrun. unfold RateLimit.checkRateLimit. rewrite H2.
    destruct (m !! a) as [l|] eqn:Hl.
    + rewrite H2, Hl.
      destruct (RateLimit.removeTokens retries 1 t l) as [[[[r l'] s]|msg]|];
        [| |discriminate].
      * destruct (RateLimit.Qltb r 0); intros Hr; injection Hr as <- <- <-;
          eexists; (split; [reflexivity|]); now rewrite !lookup_insert_eq.
      * intros Hr; injection Hr as <- <- <-.
        eexists; (split; [reflexivity|]). congruence.
    + rewrite !lookup_insert_eq.
      destruct (RateLimit.removeTokens retries 1 t _) as [[[[r l'] s]|msg]|];
        [| |discriminate].
      * destruct (RateLimit.Qltb r 0); intros Hr; injection Hr as <- <- <-;
          eexists; (split; [reflexivity|]); now rewrite !lookup_insert_eq.
      * intros Hr; injection Hr as <- <- <-.
        eexists; (split; [reflexivity|]). now rewrite !lookup_insert_eq.
Qed.

(** X12. A denied call changes nothing: when [checkRateLimit] answers with
    a response, the response is the 429 one, it comes at once, the map of
    limiters is as before, and the limiter of the identifier had handed
    out the five tokens of its running interval. *)
Theorem denied_call_changes_nothing (retries : nat) (t : Z)
    (m : gmap string RateLimit.RateLimiter) (a : string) (response : Response)
    (m' : gmap string RateLimit.RateLimiter) (settled : Z) :
  RateLimit.checkRateLimit retries t m a
  = Some (Ok (Some response), m', settled) ->
  response = RateLimit.too_many /\ m' = m /\ settled = t
  /\ exists l, m !! a = Some l /\ RateSpec.exhausted l t.
Proof.
  intros Hrun. apply checkRateLimit_inv in Hrun.
  destruct Hrun as [[Hc [Hl [Hex [-> ->]]]]|[l' [Hc _]]]; [|discriminate Hc].
  injection Hc as ->. eauto 6.
Qed.

(** X13. A lockout ends with the interval: 60 seconds or more after the
    start of the interval of a limiter whose bucket is not negative, the
    next call is allowed, and it settles within the 12 seconds that one
    token takes to drip. *)
Theorem allowed_again_after_window (retries : nat) (t : Z)
    (m : gmap string RateLimit.RateLimiter) (a : string)
    (l : RateLimit.RateLimiter) :
  m !! a = Some l ->
  0 <= RateLimit.content l ->
  (RateLimit.curIntervalStart l + RateLimit.WINDOW_SIZE_MS <= t)%Z ->
  exists m' settled,
    RateLimit.checkRateLimit (S retries) t m a = Some (Ok None, m', settled)
    /\ (t <= settled <= t + BucketSpec.longest_wait)%Z.
Proof.
  intros Hl Hc Ht.
  destruct (checkRateLimit_settles retries t m a) as [[[checked m'] settled] Hrun].
  pose proof (checkRateLimit_inv _ _ _ _ _ _ _ Hrun) as Hinv.
  rewrite Hl in Hinv. simpl in Hinv.
  destruct Hinv as [[_ [_ [[_ [Hhi _]] _]]]|[l' [-> [_ [Hlo [_ [_ [_ Hw]]]]]]]].
  - lia.
  - exists m', settled. split; [exact Hrun|]. split; [exact Hlo|].
    apply Hw; [discriminate | exact Hc].
Qed.

(** X14. The limiters stay within their bounds: when every bucket of the
    map holds between 0 and 5 tokens and every interval count is between
    0 and 5, the same is true after a call of [checkRateLimit]. *)
Theorem checkRateLimit_keeps_bounds (retries : nat) (t : Z)
    (m : gmap string RateLimit.RateLimiter) (a : string)
    (checked : result (option Response))
    (m' : gmap string RateLimit.RateLimiter) (settled : Z) :
  map_Forall (fun _ l => BucketSpec.bounded l) m ->
  RateLimit.checkRateLimit retries t m a = Some (checked, m', settled) ->
  map_Forall (fun _ l => BucketSpec.bounded l) m'.
Proof.
  intros Hm Hrun. apply checkRateLimit_inv in Hrun.
  destruct Hrun as [[_ [_ [_ [-> _]]]]|[l' [_ [-> [_ [H0 [H4 [Hu _]]]]]]]];
    [exact Hm|].
  apply map_Forall_insert_2; [|exact Hm].
  assert (Hl : (0 <= RateLimit.tokensThisInterval
                       (default (RateLimit.new_RateLimiter t) (m !! a)))%Z).
  { destruct (m !! a) as [l|] eqn:El; simpl; [|lia].
    apply (Hm a l El). }
  unfold BucketSpec.bounded.
  change (inject_Z RateLimit.ATTEMPTS_PER_MINUTE) with 5.
  unfold RateLimit.ATTEMPTS_PER_MINUTE.
  split; [exact H0|]. split; [lra|].
  destruct Hu as [[-> _]|[-> [Hle _]]]; lia.
Qed.

End Buckets.

(** The first call of a client in an empty map. *)
Lemma buckets_are_independent_witness :
  (forall b, b <> Cases.client -> Cases.after_first_call !! b
                               = (∅ : gmap string RateLimit.RateLimiter) !! b)
  /\ (forall m2 : gmap string RateLimit.RateLimiter,
        m2 !! Cases.client
        = (∅ : gmap string RateLimit.RateLimiter) !! Cases.client ->
        exists m2',
          RateLimit.checkRateLimit 0 Examples.t0 m2 Cases.client
          = Some (Ok None, m2', Examples.t0)
          /\ m2' !! Cases.client = Cases.after_first_call !! Cases.client).
Proof.
  apply (buckets_are_independent 0 Examples.t0 ∅ Cases.client (Ok None)
           Cases.after_first_call Examples.t0).
  vm_compute. reflexivity.
Defined.

(** A call 900 ms after the interval of a client was used up. *)
Lemma denied_call_changes_nothing_witness :
  RateLimit.checkRateLimit 0 (Examples.t0 + 900) Cases.locked_out Cases.client
  = Some (Ok (Some RateLimit.too_many), Cases.locked_out, Examples.t0 + 900)
  /\ exists l, Cases.locked_out !! Cases.client = Some l
                /\ RateSpec.exhausted l (Examples.t0 + 900).
Proof.
  split; [vm_compute; reflexivity|].
  apply (denied_call_changes_nothing 0 (Examples.t0 + 900) Cases.locked_out
           Cases.client RateLimit.too_many Cases.locked_out (Examples.t0 + 900)).
  vm_compute. reflexivity.
Defined.

(** The same client 60 seconds after the start of its interval. *)
Lemma allowed_again_after_window_witness :
  exists m' settled,
    RateLimit.checkRateLimit 1 (Examples.t0 + 60000) Cases.locked_out
      Cases.client
    = Some (Ok None, m', settled)
    /\ Examples.t0 + 60000 <= settled
       <= Examples.t0 + 60000 + BucketSpec.longest_wait.
Proof.
  apply (allowed_again_after_window 0 (Examples.t0 + 60000) Cases.locked_out
           Cases.client (Cases.spent Examples.t0)).
  - vm_compute. reflexivity.
  - vm_compute. discriminate.
  - vm_compute. discriminate.
Defined.

(** The map after the first call. *)
Lemma checkRateLimit_keeps_bounds_witness :
  map_Forall (fun _ l => BucketSpec.bounded l) Cases.after_first_call.
Proof.
  apply (checkRateLimit_keeps_bounds 0 Examples.t0 ∅ Cases.client (Ok None)
           Cases.after_first_call Examples.t0).
  - apply map_Forall_empty.
  - vm_compute. reflexivity.
Defined.

(** ** More on the login handler *)

Section LoginSessions.
Context `{Platform}.

(** The cases of the handler after the rate check. *)
Lemma authenticate_cases (rt : Runtime) (st : Server) (request : Request) :
  let '(response, st') := Login.authenticate rt st request in
  users st' = users st /\ available st' = available st
  /\ limiters st' = limiters st
  /\ ((LoginCases.named_user st request = None /\ st' = st
       /\ (response = Login.failed
           \/ exists issues, response = json_response (InvalidInput issues) 400))
      \/ exists e p found,
           LoginCases.named_user st request = Some (e, p, found)
           /\ journal st' = (journal st ++ [ByEmail e])%list
           /\ if available st then
                match found with
                | None => response = Login.bad_credentials
                | Some user =>
                    if bcrypt_compare p (hashedPassword user) then
                      match Jwt.createToken rt
                              (TokenSpec.identity (Store.id user) (Store.email user)
                                 (present (Store.name user))) with
                      | Ok token =>
                          response
                          = set_cookie "auth_state" (Login.state_cookie rt)
                              (Cookies.setAuthCookie rt token
                                 (json_response
                                    (LoginOk (Store.id user) (Store.email user)
                                       (Store.name user)) 200))
                      | Throw _ => response = Login.failed
                      end
                    else response = Login.bad_credentials
                end
              else response = Login.failed).
Proof.
  unfold Login.authenticate, LoginCases.named_user.
  destruct (req_json request) as [body|]; [|intuition].
  destruct (Login.loginSchema body) as [issues|[e p]]; [intuition eauto|].
  unfold findUnique, TokenSpec.identity.
  destruct (available st) eqn:Ha; simpl.
  2: { do 3 (split; [reflexivity|]). right. do 3 eexists.
       do 2 (split; [reflexivity|]). reflexivity. }
  destruct (List.find (selects (ByEmail e)) (users st)) as [user|] eqn:Hf.
  2: { do 3 (split; [reflexivity|]). right. do 3 eexists.
       do 2 (split; [reflexivity|]). reflexivity. }
  destruct (bcrypt_compare p (hashedPassword user)) eqn:Hc; simpl.
  2: { do 3 (split; [reflexivity|]). right. do 3 eexists.
       do 2 (split; [reflexivity|]). simpl. rewrite Hc. reflexivity. }
  destruct (Jwt.createToken rt _) as [token|msg] eqn:Ht;
    (do 3 (split; [reflexivity|])); right; do 3 eexists;
    (do 2 (split; [reflexivity|])); simpl; rewrite Hc, Ht; reflexivity.
Qed.

Lemma with_limiters_same (st : Server) : with_limiters st (limiters st) = st.
Proof. now destruct st. Qed.

(** The cases of the handler: the 429 response of the rate check, the
    server as it was; or what the rest of the handler answers at the time
    the rate check settles. *)
Lemma POST_cases (retries : nat) (rt : Runtime) (st st' : Server)
    (request : Request) (response : Response) :
  Login.POST retries rt st request = Some (response, st') ->
  (response = RateLimit.too_many /\ st' = st)
  \/ exists limiters' settled,
       RateLimit.checkRateLimit retries (now rt) (limiters st)
         (LoginSpec.identity request) = Some (Ok None, limiters', settled)
       /\ Login.authenticate {| env := env rt; now := settled |}
            (with_limiters st limiters') request = (response, st').
Proof.
  unfold Login.POST, AuthIndex.checkRateLimit.
  fold (LoginSpec.identity request).
  destruct (RateLimit.checkRateLimit _ _ _ _) as [[[checked limiters'] settled]|]
    eqn:Hcheck; [|discriminate].
  pose proof (checkRateLimit_inv _ _ _ _ _ _ _ Hcheck) as Hinv. simpl in Hinv.
  destruct Hinv as [[-> [_ [_ [-> _]]]]|[l' [-> _]]].
  - intros Hr. injection Hr as <- <-. left.
    split; [reflexivity | apply with_limiters_same].
  - intros Hr. injection Hr as Hr. right. eauto.
Qed.

(** X15. What the login handler answers: the status is 200, 400, 401, 429
    or 500; every response other than a 200 carries no cookie; the users
    are never changed; the store is queried at most once, by the e-mail of
    a body that passes the schema; and a 400 or a 429 comes without a
    query. *)
Theorem login_answers (retries : nat) (rt : Runtime) (st st' : Server)
    (request : Request) (response : Response) :
  Login.POST retries rt st request = Some (response, st') ->
  In (status response) [200; 400; 401; 429; 500]
  /\ (status response <> 200 -> cookies response = ∅)
  /\ users st' = users st
  /\ (journal st' = journal st
      \/ exists e p found,
           LoginCases.named_user st request = Some (e, p, found)
           /\ journal st' = (journal st ++ [ByEmail e])%list)
  /\ (status response = 400 \/ status response = 429 ->
      journal st' = journal st).
Proof.
  intros Hrun. apply POST_cases in Hrun as [[-> ->]|[limiters' [settled [_ Hrun]]]].
  { simpl. intuition (try discriminate; auto). }
  pose proof (authenticate_cases {| env := env rt; now := settled |}
                (with_limiters st limiters') request) as Hc.
  rewrite Hrun in Hc. simpl in Hc.
  destruct Hc as [Hu [_ [_ [[_ [-> Hr]]|[e [p [found [Hn [Hj Hr]]]]]]]]].
  - split.
    { destruct Hr as [->|[issues ->]]; simpl; auto 10. }
    split; [destruct Hr as [->|[issues ->]]; reflexivity|].
    split; [reflexivity|]. split; [now left|]. reflexivity.
  - assert (Hst : In (status response) [200; 401; 500]
                  /\ (status response <> 200 -> cookies response = ∅)).
    { destruct (available st); [|subst response; simpl; auto 10].
      destruct found as [user|]; [|subst response; simpl; auto 10].
      destruct (bcrypt_compare p (hashedPassword user));
        [|subst response; simpl; auto 10].
      destruct (Jwt.createToken _ _); subst response; simpl; [|auto 10].
      split; [auto|congruence]. }
    destruct Hst as [Hs Hk].
    split; [simpl in *; intuition|]. split; [exact Hk|]. split; [exact Hu|].
    split; [right; exists e, p, found; auto|].
    intros Hb. exfalso. simpl in Hs. intuition congruence.
Qed.

(** X16. A session needs the password: a 200 of the login handler means
    that the body passed the schema, that the store holds a user with its
    e-mail, and that [bcrypt.compare] accepted its password for the hash of
    that user; the body names that user, and the [auth_token] cookie holds
    the token that [createToken] made of the user's id, e-mail and
    name. *)
Theorem login_success_needs_the_password (retries : nat) (rt : Runtime)
    (st st' : Server) (request : Request) (response : Response) :
  Login.POST retries rt st request = Some (response, st') ->
  status response = 200 ->
  exists e p user token settled,
    LoginCases.named_user st request = Some (e, p, Some user)
    /\ Store.email user = e
    /\ In user (users st)
    /\ bcrypt_compare p (hashedPassword user) = true
    /\ Jwt.createToken {| env := env rt; now := settled |}
         (TokenSpec.identity (Store.id user) (Store.email user)
            (present (Store.name user))) = Ok token
    /\ body response
       = LoginOk (Store.id user) (Store.email user) (Store.name user)
    /\ cookies response !! "auth_token"
       = Some {| value := token; options := Cookies.COOKIE_OPTIONS rt |}.
Proof.
  intros Hrun Hs.
  apply POST_cases in Hrun as [[-> _]|[limiters' [settled [_ Hrun]]]];
    [discriminate Hs|].
  pose proof (authenticate_cases {| env := env rt; now := settled |}
                (with_limiters st limiters') request) as Hc.
  rewrite Hrun in Hc. simpl in Hc.
  destruct Hc as [_ [_ [_ [[_ [_ Hr]]|[e [p [found [Hn [_ Hr]]]]]]]]].
  { destruct Hr as [->|[issues ->]]; discriminate Hs. }
  destruct (available st); [|subst response; discriminate Hs].
  destruct found as [user|]; [|subst response; discriminate Hs].
  destruct (bcrypt_compare p (hashedPassword user)) eqn:Hp;
    [|subst response; discriminate Hs].
  destruct (Jwt.createToken _ _) as [token|msg] eqn:Ht;
    [|subst response; discriminate Hs].
  exists e, p, user, token, settled.
  assert (Hf : List.find (selects (ByEmail e)) (users st) = Some user).
  { unfold LoginCases.named_user in Hn. simpl in Hn.
    destruct (req_json request) as [b|]; [|discriminate].
    destruct (Login.loginSchema b) as [|[e' p']]; [discriminate|].
    injection Hn as -> -> Hf. exact Hf. }
  apply find_some in Hf as [Hin Hsel]. simpl in Hsel.
  apply String.eqb_eq in Hsel.
  subst response. repeat split; try assumption; try reflexivity.
Qed.

(** X17. An unknown e-mail and a wrong password get the same answer: for
    the same request and the same limiters, a server that has no user with
    the e-mail and a server whose user with the e-mail has another
    password respond alike, with the 429 of the rate check or with the
    401 [Invalid email or password]. *)
Theorem login_failures_are_uniform (retries : nat) (rt : Runtime)
    (st1 st2 : Server) (request : Request) (e p : string) (user : User) :
  limiters st1 = limiters st2 ->
  available st1 = true ->
  available st2 = true ->
  LoginCases.named_user st1 request = Some (e, p, None) ->
  LoginCases.named_user st2 request = Some (e, p, Some user) ->
  bcrypt_compare p (hashedPassword user) = false ->
  option_map fst (Login.POST retries rt st1 request)
  = option_map fst (Login.POST retries rt st2 request)
  /\ forall response st',
       Login.POST retries rt st1 request = Some (response, st') ->
       response = RateLimit.too_many \/ response = Login.bad_credentials.
Proof.
  intros Hl Ha1 Ha2 Hn1 Hn2 Hp.
  assert (Hauth : forall rt0 l,
             fst (Login.authenticate rt0 (with_limiters st1 l) request)
             = Login.bad_credentials
             /\ fst (Login.authenticate rt0 (with_limiters st2 l) request)
                = Login.bad_credentials).
  { intros rt0 l. split.
    - pose proof (authenticate_cases rt0 (with_limiters st1 l) request) as Hc.
      destruct (Login.authenticate rt0 (with_limiters st1 l) request) as [r s].
      simpl in Hc. destruct Hc as [_ [_ [_ [[Hn _]|[e' [p' [f' [Hn [_ Hr]]]]]]]]].
      + change (LoginCases.named_user st1 request = None) in Hn. congruence.
      + change (LoginCases.named_user st1 request = Some (e', p', f')) in Hn.
        rewrite Hn1 in Hn. injection Hn as <- <- <-. rewrite Ha1 in Hr. exact Hr.
    - pose proof (authenticate_cases rt0 (with_limiters st2 l) request) as Hc.
      destruct (Login.authenticate rt0 (with_limiters st2 l) request) as [r s].
      simpl in Hc. destruct Hc as [_ [_ [_ [[Hn _]|[e' [p' [f' [Hn [_ Hr]]]]]]]]].
      + change (LoginCases.named_user st2 request = None) in Hn. congruence.
      + change (LoginCases.named_user st2 request = Some (e', p', f')) in Hn.
        rewrite Hn2 in Hn. injection Hn as <- <- <-.
        rewrite Ha2, Hp in Hr. exact Hr. }
  split.
  - unfold Login.POST. rewrite Hl.
    destruct (AuthIndex.checkRateLimit _ _ _ _) as [[[checked l] settled]|];
      [|reflexivity].
    destruct checked as [[r|]|msg]; try reflexivity.
    simpl. f_equal.
    destruct (Hauth {| env := env rt; now := settled |} l) as [-> ->].
    reflexivity.
  - intros response st' Hrun.
    apply POST_cases in Hrun as [[-> _]|[l [settled [_ Hrun]]]]; [now left|].
    right. destruct (Hauth {| env := env rt; now := settled |} l) as [Hr _].
    rewrite Hrun in Hr. exact Hr.
Qed.

Lemma getAuthCookie_with_cookie (path token : string) :
  is_empty token = false ->
  Cookies.getAuthCookie (Examples.with_cookie path token) = Some token.
Proof.
  intros Hne. unfold Cookies.getAuthCookie, Cookies.TOKEN_NAME,
    Examples.with_cookie. simpl req_cookies.
  rewrite lookup_singleton_eq. unfold present. now rewrite Hne.
Qed.

(** X18. A login session end to end: for the first request of a client,
    with the e-mail and the password of a stored user whose id is not
    empty, the handler answers 200 and sets the [auth_token] cookie; until
    the configured lifetime has run out, [verifyToken] accepts that token,
    the check route answers 200 with the id and the e-mail of the user,
    and the me route answers with the profile of the user.  The platform's
    codec is assumed right on the header and the claims. *)
Theorem login_session_is_verified
    (retries : nat) (rt rt' : Runtime) (st : Server) (request : Request)
    (e p secret : string) (user : User) (span : Z) :
  let issued := clock_seconds rt in
  let claims :=
    Jwt.claims_object
      (TokenSpec.identity (Store.id user) (Store.email user)
         (present (Store.name user))) issued (issued + span) in
  limiters st !! LoginSpec.identity request = None ->
  available st = true ->
  LoginCases.named_user st request = Some (e, p, Some user) ->
  bcrypt_compare p (hashedPassword user) = true ->
  env rt !! "JWT_SECRET" = Some secret ->
  env rt' !! "JWT_SECRET" = Some secret ->
  is_empty secret = false ->
  parseInt (env_or rt "JWT_EXPIRES_IN" "86400") = Some span ->
  clock_seconds rt' < issued + span ->
  TokenSpec.well_encoded Jwt.jose_header claims secret ->
  Store.id user <> EmptyString ->
  List.find (selects (ById (Store.id user))) (users st) = Some user ->
  exists response st' token,
    Login.POST retries rt st request = Some (response, st')
    /\ status response = 200
    /\ body response
       = LoginOk (Store.id user) (Store.email user) (Store.name user)
    /\ cookies response !! "auth_token"
       = Some {| value := token; options := Cookies.COOKIE_OPTIONS rt |}
    /\ Jwt.verifyToken rt' token = Ok (Some claims)
    /\ CheckRoute.GET rt' (Examples.with_cookie "/api/auth/check" token)
       = json_response
           (AuthStatus true (Json (JStr (Store.id user)))
              (Json (JStr (Store.email user)))) 200
    /\ fst (MeRoute.GET rt' st' (Examples.with_cookie "/api/auth/me" token))
       = json_response
           (Profile (Store.id user) (Store.email user) (Store.name user)
              (createdAt user)) 200.
Proof.
  intros issued claims Hfresh Ha Hn Hp Hsecret Hsecret' Hne Hspan Hlife Hcodec
    Hid Hfind.
  destruct (checkRateLimit_first retries (now rt) (limiters st)
              (LoginSpec.identity request) Hfresh)
    as [limiters' [l' [Hcheck _]]].
  set (token := Jwt.jws_sign Jwt.jose_header claims secret).
  assert (Hrt : {| env := env rt; now := now rt |} = rt) by now destruct rt.
  assert (Hcreate : Jwt.createToken rt
                      (TokenSpec.identity (Store.id user) (Store.email user)
                         (present (Store.name user))) = Ok token)
    by (apply createToken_identity; assumption).
  pose proof (authenticate_cases rt (with_limiters st limiters') request) as Hc.
  destruct (Login.authenticate rt (with_limiters st limiters') request)
    as [response st'] eqn:Hauth.
  simpl in Hc. rewrite Ha in Hc.
  destruct Hc as [Hu [Hav [_ [[Hn' _]|[e' [p' [f' [Hn' [_ Hr]]]]]]]]].
  { change (LoginCases.named_user st request = None) in Hn'. congruence. }
  change (LoginCases.named_user st request = Some (e', p', f')) in Hn'.
  rewrite Hn in Hn'. injection Hn' as <- <- <-.
  rewrite Hp, Hcreate in Hr.
  destruct (claims_object_fields
              (TokenSpec.identity (Store.id user) (Store.email user)
                 (present (Store.name user))) issued (issued + span))
    as [fields [Hfields [Hfsub [Hfemail [Hnbf Hfexp]]]]].
  fold claims in Hfields.
  assert (Hverify : Jwt.verifyToken rt' token = Ok (Some claims)).
  { unfold token. rewrite Hfields in *.
    exact (verifyToken_signed rt' secret fields (issued + span)
             Hsecret' Hne Hcodec Hnbf Hfexp Hlife). }
  assert (Htoken : is_empty token = false) by apply is_empty_app_dot.
  assert (Hsubject : get_prop claims "sub" = Ok (Json (JStr (Store.id user)))).
  { rewrite Hfields. simpl. rewrite Hfsub. reflexivity. }
  assert (Htruthy : truthy (Json (JStr (Store.id user))) = true)
    by (apply string_nonempty; exact Hid).
  exists response, st', token.
  split.
  { unfold Login.POST, AuthIndex.checkRateLimit.
    fold (LoginSpec.identity request). rewrite Hcheck, Hrt, Hauth. reflexivity. }
  subst response. do 3 (split; [reflexivity|]).
  split; [exact Hverify|]. split.
  - rewrite (check_route_verified rt' _ token claims); [|
      unfold CheckRoute.token_of;
      now rewrite (getAuthCookie_with_cookie _ token Htoken) | exact Hverify].
    unfold Spec.has_claim. rewrite Hsubject, Htruthy.
    rewrite Hfields. simpl. rewrite Hfemail. reflexivity.
  - unfold MeRoute.GET, MeRoute.token_of.
    rewrite (getAuthCookie_with_cookie _ token Htoken), Hverify, Hsubject, Htruthy.
    rewrite Hfields. simpl truthy. cbn [negb].
    unfold findUnique. rewrite Hav, Hu, Hfind.
    reflexivity.
Qed.

(** X19. A missing secret is a server error: when [JWT_SECRET] is unset or
    empty, the status routes answer 500 to every request that carries a
    token, the login handler answers 500 to right credentials and 401 to
    wrong ones, and the guard works as with any environment. *)
Theorem missing_secret_is_a_server_error (rt : Runtime) :
  present (env rt !! "JWT_SECRET") = None ->
  (forall (request : Request) (token : string),
      CheckRoute.token_of request = Some token ->
      CheckRoute.GET rt request
      = json_response (AuthStatusError "Authentication check failed") 500)
  /\ (forall (st : Server) (request : Request) (token : string),
         MeRoute.token_of request = Some token ->
         MeRoute.GET rt st request
         = (json_response (ErrorBody "Failed to get current user") 500, st))
  /\ (forall (st : Server) (request : Request) (e p : string) (user : User),
         available st = true ->
         LoginCases.named_user st request = Some (e, p, Some user) ->
         fst (Login.authenticate rt st request)
         = if bcrypt_compare p (hashedPassword user)
           then Login.failed else Login.bad_credentials)
  /\ (forall request : Request,
         Middleware.middleware rt request
         = Middleware.middleware {| env := ∅; now := now rt |} request).
Proof.
  intros Hs. destruct (no_secret rt Hs) as [Hc Hv].
  split; [|split; [|split]].
  - intros request token Ht. unfold CheckRoute.GET. rewrite Ht, Hv. reflexivity.
  - intros st request token Ht. unfold MeRoute.GET. rewrite Ht, Hv. reflexivity.
  - intros st request e p user Ha Hn.
    pose proof (authenticate_cases rt st request) as Hcases.
    destruct (Login.authenticate rt st request) as [response st'].
    destruct Hcases as [_ [_ [_ [[Hn' _]|[e' [p' [f' [Hn' [_ Hr]]]]]]]]];
      [congruence|].
    rewrite Hn in Hn'. injection Hn' as <- <- <-.
    rewrite Ha, Hc in Hr. simpl.
    destruct (bcrypt_compare p (hashedPassword user)); exact Hr.
  - intros request. apply middleware_cookie; reflexivity.
Qed.

End LoginSessions.

(** A wrong password for [Scenario.alice]. *)
Lemma login_answers_witness :
  let request := Scenario.bad_login Scenario.from_client in
  let response := fst (Cases.login request) in
  let st' := snd (Cases.login request) in
  response = Login.bad_credentials
  /\ In (status response) [200; 400; 401; 429; 500]
  /\ (status response <> 200 -> cookies response = ∅)
  /\ users st' = users Scenario.fresh
  /\ (journal st' = journal Scenario.fresh
      \/ exists e p found,
           LoginCases.named_user Scenario.fresh request = Some (e, p, found)
           /\ journal st' = (journal Scenario.fresh ++ [ByEmail e])%list)
  /\ (status response = 400 \/ status response = 429 ->
      journal st' = journal Scenario.fresh).
Proof.
  split; [vm_compute; reflexivity|].
  apply (login_answers 0 (Examples.at_time Examples.t0) Scenario.fresh).
  vm_compute. reflexivity.
Defined.

(** The right password for [Scenario.alice]. *)
Lemma login_success_needs_the_password_witness :
  let rt := Examples.at_time Examples.t0 in
  let request := Scenario.good_login Scenario.from_client in
  let response := fst (Cases.login request) in
  exists e p user token settled,
    LoginCases.named_user Scenario.fresh request = Some (e, p, Some user)
    /\ Store.email user = e
    /\ In user (users Scenario.fresh)
    /\ bcrypt_compare p (hashedPassword user) = true
    /\ Jwt.createToken {| env := env rt; now := settled |}
         (TokenSpec.identity (Store.id user) (Store.email user)
            (present (Store.name user))) = Ok token
    /\ body response
       = LoginOk (Store.id user) (Store.email user) (Store.name user)
    /\ cookies response !! "auth_token"
       = Some {| value := token; options := Cookies.COOKIE_OPTIONS rt |}.
Proof.
  apply (login_success_needs_the_password 0 (Examples.at_time Examples.t0)
           Scenario.fresh
           (snd (Cases.login (Scenario.good_login Scenario.from_client)))).
  - vm_compute. reflexivity.
  - vm_compute. reflexivity.
Defined.

(** A server without users and a server with [Scenario.alice]. *)
Lemma login_failures_are_uniform_witness :
  let rt := Examples.at_time Examples.t0 in
  let request := Scenario.bad_login Scenario.from_client in
  option_map fst (Login.POST 0 rt Cases.deserted request)
  = option_map fst (Login.POST 0 rt Scenario.fresh request)
  /\ forall response st',
       Login.POST 0 rt Cases.deserted request = Some (response, st') ->
       response = RateLimit.too_many \/ response = Login.bad_credentials.
Proof.
  apply (login_failures_are_uniform 0 (Examples.at_time Examples.t0)
           Cases.deserted Scenario.fresh
           (Scenario.bad_login Scenario.from_client)
           "alice@example.com" "wrong" Scenario.alice);
    vm_compute; reflexivity.
Defined.

(** The session of [Scenario.alice], looked at an hour later. *)
Lemma login_session_is_verified_witness :
  let rt := Examples.at_time Examples.t0 in
  let rt' := Examples.at_time (Examples.t0 + 3600000) in
  let user := Scenario.alice in
  let claims :=
    Jwt.claims_object
      (TokenSpec.identity (Store.id user) (Store.email user)
         (present (Store.name user)))
      (clock_seconds rt) (clock_seconds rt + 86400) in
  exists response st' token,
    Login.POST 0 rt Scenario.fresh (Scenario.good_login Scenario.from_client)
    = Some (response, st')
    /\ status response = 200
    /\ body response
       = LoginOk (Store.id user) (Store.email user) (Store.name user)
    /\ cookies response !! "auth_token"
       = Some {| value := token; options := Cookies.COOKIE_OPTIONS rt |}
    /\ Jwt.verifyToken rt' token = Ok (Some claims)
    /\ CheckRoute.GET rt' (Examples.with_cookie "/api/auth/check" token)
       = json_response
           (AuthStatus true (Json (JStr (Store.id user)))
              (Json (JStr (Store.email user)))) 200
    /\ fst (MeRoute.GET rt' st' (Examples.with_cookie "/api/auth/me" token))
       = json_response
           (Profile (Store.id user) (Store.email user) (Store.name user)
              (createdAt user)) 200.
Proof.
  apply (login_session_is_verified 0 (Examples.at_time Examples.t0)
           (Examples.at_time (Examples.t0 + 3600000)) Scenario.fresh
           (Scenario.good_login Scenario.from_client)
           "alice@example.com" "correct horse" "s3cret" Scenario.alice 86400).
  - vm_compute. reflexivity.
  - reflexivity.
  - vm_compute. reflexivity.
  - vm_compute. reflexivity.
  - vm_compute. reflexivity.
  - vm_compute. reflexivity.
  - reflexivity.
  - vm_compute. reflexivity.
  - vm_compute. reflexivity.
  - vm_compute. repeat split.
  - discriminate.
  - vm_compute. reflexivity.
Defined.

(** A process without [JWT_SECRET]. *)
Lemma missing_secret_is_a_server_error_witness :
  let rt := Examples.without_secret Examples.t0 in
  (forall (request : Request) (token : string),
      CheckRoute.token_of request = Some token ->
      CheckRoute.GET rt request
      = json_response (AuthStatusError "Authentication check failed") 500)
  /\ (forall (st : Server) (request : Request) (token : string),
         MeRoute.token_of request = Some token ->
         MeRoute.GET rt st request
         = (json_response (ErrorBody "Failed to get current user") 500, st))
  /\ (forall (st : Server) (request : Request) (e p : string) (user : User),
         available st = true ->
         LoginCases.named_user st request = Some (e, p, Some user) ->
         fst (Login.authenticate rt st request)
         = if bcrypt_compare p (hashedPassword user)
           then Login.failed else Login.bad_credentials)
  /\ (forall request : Request,
         Middleware.middleware rt request
         = Middleware.middleware {| env := ∅; now := now rt |} request).
Proof.
  apply (missing_secret_is_a_server_error (Examples.without_secret Examples.t0)).
  reflexivity.
Defined.

(** ** The signup handler *)

Section SignupHandler.
Context `{Platform} `{Password.Bcrypt}.

Lemma find_app_new {A} (f : A -> bool) (l : list A) (u : A) :
  List.find f l = None -> f u = true -> List.find f (l ++ [u]) = Some u.
Proof.
  induction l as [|x l IH]; simpl; intros Hn Hu; [now rewrite Hu|].
  destruct (f x); [discriminate | auto].
Qed.

Lemma find_app_old {A} (f : A -> bool) (l r : list A) (x : A) :
  List.find f l = Some x -> List.find f (l ++ r) = Some x.
Proof.
  induction l as [|y l IH]; simpl; [discriminate|].
  destruct (f y); auto.
Qed.

(** The cases of the signup handler. *)
Lemma signup_cases (rt : Runtime) (draw : Signup.Draw) (st : Server)
    (request : Request) :
  let '(response, st') := Signup.POST rt draw st request in
  limiters st' = limiters st /\ available st' = available st
  /\ ((Signup.applicant request = None /\ st' = st
       /\ Signup.cookies response = ∅
       /\ (Signup.status response = 500 \/ Signup.status response = 400))
      \/ exists e p n,
           Signup.applicant request = Some (e, p, n)
           /\ journal st' = (journal st ++ [ByEmail e])%list
           /\ if available st then
                match List.find (selects (ByEmail e)) (users st) with
                | Some _ => response = Signup.conflict /\ users st' = users st
                | None =>
                    let u := Signup.record draw e p n in
                    if Signup.vacant st u then
                      users st' = (users st ++ [u])%list
                      /\ match Jwt.createToken rt
                                 (TokenSpec.identity (Store.id u) e (present n)) with
                         | Ok token =>
                             response
                             = Signup.setAuthCookie rt token
                                 (Signup.json_response
                                    (Signup.Created (Store.id u) e n) 201)
                         | Throw _ => response = Signup.failed
                         end
                    else response = Signup.failed /\ users st' = users st
                end
              else response = Signup.failed /\ users st' = users st).
Proof.
  unfold Signup.POST, Signup.applicant.
  destruct (req_json request) as [body|]; [|simpl; intuition].
  destruct (Signup.signupSchema body) as [issues|[[e p] n]]; [simpl; intuition|].
  unfold findUnique, Signup.create, Signup.vacant, Signup.record,
    TokenSpec.identity.
  destruct (available st) eqn:Ha; simpl.
  2: { do 2 (split; [reflexivity|]). right. do 3 eexists.
       do 2 (split; [reflexivity|]). split; reflexivity. }
  destruct (List.find (selects (ByEmail e)) (users st)) as [user|] eqn:Hf.
  { do 2 (split; [reflexivity|]). right. do 3 eexists.
    do 2 (split; [reflexivity|]). simpl. rewrite Hf. split; reflexivity. }
  destruct (existsb _ (users st)) eqn:Hex; simpl.
  { do 2 (split; [reflexivity|]). right. do 3 eexists.
    do 2 (split; [reflexivity|]). simpl. rewrite Hf, Hex. split; reflexivity. }
  destruct (Jwt.createToken rt _) as [token|msg] eqn:Ht;
    (do 2 (split; [reflexivity|])); right; do 3 eexists;
    (do 2 (split; [reflexivity|])); simpl; rewrite Hf, Hex; simpl;
    rewrite Ht; split; reflexivity.
Qed.

(** What the schema has checked. *)
Lemma applicant_valid (request : Request) (e p : string) (n : option string) :
  Signup.applicant request = Some (e, p, n) ->
  zod_isEmail e = true /\ (8 <= String.length p)%nat.
Proof.
  unfold Signup.applicant, Signup.signupSchema.
  destruct (req_json request) as [[| | | | |fields]|]; try discriminate.
  unfold Login.email_field, Signup.password_field.
  destruct (assoc_last "email" fields) as [[| | |e'| |]|];
    destruct (assoc_last "password" fields) as [[| | |p'| |]|];
    try destruct (zod_isEmail e') eqn:He;
    try destruct (8 <=? String.length p')%nat eqn:Hp;
    destruct (Signup.name_field (assoc_last "name" fields));
    try discriminate.
  intros Hx. injection Hx as <- <- <-.
  split; [exact He | now apply Nat.leb_le].
Qed.

(** X20. What the signup handler answers: the status is 201, 400, 409 or
    500; every response other than a 201 carries no cookie; no response
    sets the [auth_state] marker; the limiters are never touched; and a
    400 or a 409 leaves the users as they were. *)
Theorem signup_answers (rt : Runtime) (draw : Signup.Draw) (st st' : Server)
    (request : Request) (response : Signup.Response) :
  Signup.POST rt draw st request = (response, st') ->
  In (Signup.status response) [201; 400; 409; 500]
  /\ (Signup.status response <> 201 -> Signup.cookies response = ∅)
  /\ Signup.cookies response !! "auth_state" = None
  /\ limiters st' = limiters st
  /\ (Signup.status response = 400 \/ Signup.status response = 409 ->
      users st' = users st).
Proof.
  intros Hrun. pose proof (signup_cases rt draw st request) as Hc.
  rewrite Hrun in Hc.
  destruct Hc as [Hl [_ [[_ [-> [Hk Hs]]]|[e [p [n [_ [_ Hr]]]]]]]].
  { rewrite Hk. simpl. destruct Hs as [-> | ->]; intuition. }
  assert (Hall : (In (Signup.status response) [201; 400; 409; 500]
                  /\ (Signup.status response <> 201 -> Signup.cookies response = ∅)
                  /\ Signup.cookies response !! "auth_state" = None)
                 /\ (Signup.status response = 400 \/ Signup.status response = 409 ->
                     users st' = users st)).
  { destruct (available st).
    2: { destruct Hr as [-> Hu]. simpl. intuition. }
    destruct (List.find _ _).
    { destruct Hr as [-> Hu]. simpl. intuition. }
    simpl in Hr. destruct (Signup.vacant st _).
    2: { destruct Hr as [-> Hu]. simpl. intuition. }
    destruct Hr as [Hu Hr].
    destruct (Jwt.createToken rt _); subst response; simpl.
    - split; [|intros [Hs|Hs]; discriminate Hs].
      split; [auto|]. split; [congruence|]. reflexivity.
    - split; [|intros [Hs|Hs]; discriminate Hs]. intuition. }
  destruct Hall as [[Hs [Hk Hm]] Hu]. auto.
Qed.

(** X21. A 201 of the signup handler: the body passed the schema, with an
    e-mail that the e-mail test accepts and a password of 8 characters or
    more; no user had the e-mail; the users are the former ones and one
    new record with the e-mail, the name and the hash of the password; and
    the response names the new user and sets exactly one cookie,
    [auth_token], with the token that [createToken] made of the new user. *)
Theorem signup_creates_the_account (rt : Runtime) (draw : Signup.Draw)
    (st st' : Server) (request : Request) (response : Signup.Response) :
  Signup.POST rt draw st request = (response, st') ->
  Signup.status response = 201 ->
  exists e p n token,
    Signup.applicant request = Some (e, p, n)
    /\ zod_isEmail e = true
    /\ (8 <= String.length p)%nat
    /\ List.find (selects (ByEmail e)) (users st) = None
    /\ users st' = (users st ++ [Signup.record draw e p n])%list
    /\ Jwt.createToken rt
         (TokenSpec.identity (Signup.new_id draw) e (present n)) = Ok token
    /\ response
       = {| Signup.status := 201;
            Signup.body := Signup.Created (Signup.new_id draw) e n;
            Signup.cookies :=
              {[ "auth_token" :=
                   {| value := token; options := Cookies.COOKIE_OPTIONS rt |} ]} |}.
Proof.
  intros Hrun Hs. pose proof (signup_cases rt draw st request) as Hc.
  rewrite Hrun in Hc.
  destruct Hc as [_ [_ [[_ [_ [_ Hbad]]]|[e [p [n [Ha [_ Hr]]]]]]]].
  { rewrite Hs in Hbad. destruct Hbad; discriminate. }
  destruct (available st); [|destruct Hr as [-> _]; discriminate Hs].
  destruct (List.find _ _) eqn:Hf; [destruct Hr as [-> _]; discriminate Hs|].
  simpl in Hr. destruct (Signup.vacant st _);
    [|destruct Hr as [-> _]; discriminate Hs].
  destruct Hr as [Hu Hr].
  destruct (Jwt.createToken rt _) as [token|msg] eqn:Ht;
    [|subst response; discriminate Hs].
  destruct (applicant_valid request e p n Ha) as [He Hp].
  exists e, p, n, token. subst response.
  repeat split; try assumption.
Qed.

(** After a 201 the store finds the new record by its e-mail. *)
Lemma signup_created (rt : Runtime) (draw : Signup.Draw)
    (st st' : Server) (request : Request) (response : Signup.Response)
    (e p : string) (n : option string) :
  Signup.POST rt draw st request = (response, st') ->
  Signup.status response = 201 ->
  Signup.applicant request = Some (e, p, n) ->
  available st' = true
  /\ List.find (selects (ByEmail e)) (users st')
     = Some (Signup.record draw e p n).
Proof.
  intros Hrun Hs Ha. pose proof (signup_cases rt draw st request) as Hc.
  rewrite Hrun in Hc.
  destruct Hc as [_ [Hav [[Hn _]|[e' [p' [n' [Ha' [_ Hr]]]]]]]]; [congruence|].
  rewrite Ha in Ha'. injection Ha' as <- <- <-.
  destruct (available st); [|destruct Hr as [-> _]; discriminate Hs].
  split; [exact Hav|].
  destruct (List.find _ _) eqn:Hf; [destruct Hr as [-> _]; discriminate Hs|].
  simpl in Hr. destruct (Signup.vacant st _);
    [|destruct Hr as [-> _]; discriminate Hs].
  destruct Hr as [-> _].
  apply find_app_new; [exact Hf | simpl; apply String.eqb_refl].
Qed.

(** X22. A second signup with the same e-mail is a conflict: after a 201,
    every signup request with that e-mail, whatever its password and
    name, gets the 409 response, which carries no cookie, and the users
    stay as they are. *)
Theorem second_signup_is_a_conflict
    (rt rt2 : Runtime) (draw draw2 : Signup.Draw) (st st' : Server)
    (request request2 : Request) (response : Signup.Response)
    (e p p2 : string) (n n2 : option string) :
  Signup.POST rt draw st request = (response, st') ->
  Signup.status response = 201 ->
  Signup.applicant request = Some (e, p, n) ->
  Signup.applicant request2 = Some (e, p2, n2) ->
  fst (Signup.POST rt2 draw2 st' request2) = Signup.conflict
  /\ users (snd (Signup.POST rt2 draw2 st' request2)) = users st'
  /\ Signup.cookies Signup.conflict = ∅.
Proof.
  intros Hrun Hs Ha Ha2.
  destruct (signup_created rt draw st st' request response e p n Hrun Hs Ha)
    as [Hav Hf].
  pose proof (signup_cases rt2 draw2 st' request2) as Hc.
  destruct (Signup.POST rt2 draw2 st' request2) as [response2 st''].
  destruct Hc as [_ [_ [[Hn _]|[e' [p' [n' [Ha' [_ Hr]]]]]]]]; [congruence|].
  rewrite Ha2 in Ha'. injection Ha' as <- <- <-.
  rewrite Hav, Hf in Hr. destruct Hr as [-> Hu]. simpl. auto.
Qed.

(** The login schema accepts an e-mail that the e-mail test accepts and a
    password that is not empty. *)
Lemma loginSchema_credentials (e p : string) :
  zod_isEmail e = true ->
  (1 <= String.length p)%nat ->
  Login.loginSchema (Scenario.credentials e p) = inr (e, p).
Proof.
  intros He Hp. unfold Login.loginSchema, Scenario.credentials.
  change (assoc_last "email" [("email", JStr e); ("password", JStr p)])
    with (Some (JStr e)).
  change (assoc_last "password" [("email", JStr e); ("password", JStr p)])
    with (Some (JStr p)).
  unfold Login.email_field, Login.password_field. rewrite He.
  apply Nat.leb_le in Hp. rewrite Hp. reflexivity.
Qed.

(** X23. Signup, then login: after a 201, when [bcrypt.compare] accepts the
    password for the hash that [bcrypt.hash] gave it and a secret and a
    lifetime are configured, the login handler (once its rate check has
    let the request through) answers the e-mail and the password of the
    signup with a 200 that names the new user and sets both cookies. *)
Theorem signup_then_login
    (rt rt2 : Runtime) (draw : Signup.Draw) (st st' : Server)
    (request : Request) (response : Signup.Response)
    (e p secret : string) (n : option string) (span : Z)
    (hs : gmap string string) :
  Signup.POST rt draw st request = (response, st') ->
  Signup.status response = 201 ->
  Signup.applicant request = Some (e, p, n) ->
  bcrypt_compare p (Password.hashPassword (Signup.salt draw) p) = true ->
  env rt2 !! "JWT_SECRET" = Some secret ->
  is_empty secret = false ->
  parseInt (env_or rt2 "JWT_EXPIRES_IN" "86400") = Some span ->
  exists token,
    fst (Login.authenticate rt2 st'
           (Scenario.login_request hs (Scenario.credentials e p)))
    = set_cookie "auth_state" (Login.state_cookie rt2)
        (Cookies.setAuthCookie rt2 token
           (json_response (LoginOk (Signup.new_id draw) e n) 200)).
Proof.
  intros Hrun Hs Ha Hp Hsecret Hne Hspan.
  destruct (signup_created rt draw st st' request response e p n Hrun Hs Ha)
    as [Hav Hf].
  destruct (applicant_valid request e p n Ha) as [He Hlen].
  set (login := Scenario.login_request hs (Scenario.credentials e p)).
  assert (Hn : LoginCases.named_user st' login
               = Some (e, p, Some (Signup.record draw e p n))).
  { unfold LoginCases.named_user, login.
    change (req_json (Scenario.login_request hs (Scenario.credentials e p)))
      with (Some (Scenario.credentials e p)).
    cbv beta iota.
    rewrite (loginSchema_credentials e p He) by lia. rewrite Hf. reflexivity. }
  pose proof (authenticate_cases rt2 st' login) as Hc.
  destruct (Login.authenticate rt2 st' login) as [r s].
  destruct Hc as [_ [_ [_ [[Hn' _]|[e' [p' [f' [Hn' [_ Hr]]]]]]]]]; [congruence|].
  rewrite Hn in Hn'. injection Hn' as <- <- <-.
  rewrite Hav in Hr. simpl hashedPassword in Hr. rewrite Hp in Hr.
  simpl Store.id in Hr. simpl Store.email in Hr. simpl Store.name in Hr.
  rewrite (createToken_identity rt2 secret _ _ _ span Hsecret Hne Hspan) in Hr.
  eexists. exact Hr.
Qed.

(** X24. The account is created before the token: when [JWT_SECRET] is
    unset or empty, a signup that passes the schema with a new e-mail is
    answered with the 500 [Failed to create user], yet the store has the
    new record, and the same signup sent again gets the 409 conflict. *)
Theorem account_outlives_a_failed_token
    (rt : Runtime) (draw draw2 : Signup.Draw) (st : Server) (request : Request)
    (e p : string) (n : option string) :
  present (env rt !! "JWT_SECRET") = None ->
  Signup.applicant request = Some (e, p, n) ->
  available st = true ->
  List.find (selects (ByEmail e)) (users st) = None ->
  Signup.vacant st (Signup.record draw e p n) = true ->
  let '(response, st') := Signup.POST rt draw st request in
  response = Signup.failed
  /\ users st' = (users st ++ [Signup.record draw e p n])%list
  /\ fst (Signup.POST rt draw2 st' request) = Signup.conflict.
Proof.
  intros Hs Ha Hav Hf Hv. destruct (no_secret rt Hs) as [Hc _].
  pose proof (signup_cases rt draw st request) as Hcases.
  destruct (Signup.POST rt draw st request) as [response st'].
  destruct Hcases as [_ [Hav' [[Hn _]|[e' [p' [n' [Ha' [_ Hr]]]]]]]]; [congruence|].
  rewrite Ha in Ha'. injection Ha' as <- <- <-.
  rewrite Hav, Hf in Hr. simpl in Hr. rewrite Hv, Hc in Hr.
  destruct Hr as [Hu ->]. split; [reflexivity|]. split; [exact Hu|].
  pose proof (signup_cases rt draw2 st' request) as Hc2.
  destruct (Signup.POST rt draw2 st' request) as [r2 s2].
  destruct Hc2 as [_ [_ [[Hn _]|[e' [p' [n' [Ha' [_ Hr]]]]]]]]; [congruence|].
  rewrite Ha in Ha'. injection Ha' as <- <- <-.
  rewrite Hav', Hav, Hu in Hr.
  rewrite (find_app_new _ _ (Signup.record draw e p n) Hf) in Hr
    by (simpl; apply String.eqb_refl).
  destruct Hr as [-> _]. reflexivity.
Qed.

End SignupHandler.

(** The signup of [Cases.bob]. *)
Lemma signup_answers_witness :
  let response := fst Cases.signup in
  let st' := snd Cases.signup in
  Signup.status response = 201
  /\ In (Signup.status response) [201; 400; 409; 500]
  /\ (Signup.status response <> 201 -> Signup.cookies response = ∅)
  /\ Signup.cookies response !! "auth_state" = None
  /\ limiters st' = limiters Scenario.fresh
  /\ (Signup.status response = 400 \/ Signup.status response = 409 ->
      users st' = users Scenario.fresh).
Proof.
  split; [vm_compute; reflexivity|].
  apply (signup_answers (Examples.at_time Examples.t0) Cases.draw Scenario.fresh
           (snd Cases.signup) Cases.bob (fst Cases.signup)).
  apply surjective_pairing.
Defined.

Lemma signup_creates_the_account_witness :
  let rt := Examples.at_time Examples.t0 in
  exists e p n token,
    Signup.applicant Cases.bob = Some (e, p, n)
    /\ zod_isEmail e = true
    /\ (8 <= String.length p)%nat
    /\ List.find (selects (ByEmail e)) (users Scenario.fresh) = None
    /\ users (snd Cases.signup)
       = (users Scenario.fresh ++ [Signup.record Cases.draw e p n])%list
    /\ Jwt.createToken rt
         (TokenSpec.identity (Signup.new_id Cases.draw) e (present n))
       = Ok token
    /\ fst Cases.signup
       = {| Signup.status := 201;
            Signup.body := Signup.Created (Signup.new_id Cases.draw) e n;
            Signup.cookies :=
              {[ "auth_token" :=
                   {| value := token; options := Cookies.COOKIE_OPTIONS rt |} ]} |}.
Proof.
  apply (signup_creates_the_account (Examples.at_time Examples.t0) Cases.draw
           Scenario.fresh (snd Cases.signup) Cases.bob (fst Cases.signup)).
  - apply surjective_pairing.
  - vm_compute. reflexivity.
Defined.

(** The same e-mail five seconds later, with another password and name. *)
Lemma second_signup_is_a_conflict_witness :
  let rt2 := Examples.at_time (Examples.t0 + 5000) in
  let again :=
    Cases.signup_request "bob@example.com" "another password" "Robert" in
  fst (Signup.POST rt2 Cases.redraw (snd Cases.signup) again) = Signup.conflict
  /\ users (snd (Signup.POST rt2 Cases.redraw (snd Cases.signup) again))
     = users (snd Cases.signup)
  /\ Signup.cookies Signup.conflict = ∅.
Proof.
  apply (second_signup_is_a_conflict (Examples.at_time Examples.t0)
           (Examples.at_time (Examples.t0 + 5000)) Cases.draw Cases.redraw
           Scenario.fresh (snd Cases.signup) Cases.bob
           (Cases.signup_request "bob@example.com" "another password" "Robert")
           (fst Cases.signup) "bob@example.com" "hunter2hunter2"
           "another password" (Some "Bob") (Some "Robert")).
  - apply surjective_pairing.
  - vm_compute. reflexivity.
  - vm_compute. reflexivity.
  - vm_compute. reflexivity.
Defined.

(** [Cases.bob] signs up and logs in. *)
Lemma signup_then_login_witness :
  let rt2 := Examples.at_time (Examples.t0 + 5000) in
  exists token,
    fst (Login.authenticate rt2 (snd Cases.signup)
           (Scenario.login_request Scenario.from_client
              (Scenario.credentials "bob@example.com" "hunter2hunter2")))
    = set_cookie "auth_state" (Login.state_cookie rt2)
        (Cookies.setAuthCookie rt2 token
           (json_response
              (LoginOk (Signup.new_id Cases.draw) "bob@example.com" (Some "Bob"))
              200)).
Proof.
  apply (signup_then_login (Examples.at_time Examples.t0)
           (Examples.at_time (Examples.t0 + 5000)) Cases.draw Scenario.fresh
           (snd Cases.signup) Cases.bob (fst Cases.signup)
           "bob@example.com" "hunter2hunter2" "s3cret" (Some "Bob") 86400
           Scenario.from_client).
  - apply surjective_pairing.
  - vm_compute. reflexivity.
  - vm_compute. reflexivity.
  - vm_compute. reflexivity.
  - vm_compute. reflexivity.
  - reflexivity.
  - vm_compute. reflexivity.
Defined.

(** The signup of [Cases.bob] in a process without [JWT_SECRET]. *)
Lemma account_outlives_a_failed_token_witness :
  let '(response, st') :=
    Signup.POST (Examples.without_secret Examples.t0) Cases.draw Scenario.fresh
      Cases.bob in
  response = Signup.failed
  /\ users st'
     = (users Scenario.fresh
        ++ [Signup.record Cases.draw "bob@example.com" "hunter2hunter2"
              (Some "Bob")])%list
  /\ fst (Signup.POST (Examples.without_secret Examples.t0) Cases.redraw st'
            Cases.bob) = Signup.conflict.
Proof.
  apply (account_outlives_a_failed_token (Examples.without_secret Examples.t0)
           Cases.draw Cases.redraw Scenario.fresh Cases.bob
           "bob@example.com" "hunter2hunter2" (Some "Bob"));
    vm_compute; reflexivity.
Defined.

(** ** Logging out *)

Section LoggingOut.
Context `{Platform} `{Password.Bcrypt}.

(** The signup handler's [setAuthCookie] is that of cookies.ts: on the
    cookies of a response both do the same, whatever the body is. *)
Lemma signup_setAuthCookie_agrees (rt : Runtime) (token : string)
    (response : Signup.Response) (b : Http.Body) :
  Signup.cookies (Signup.setAuthCookie rt token response)
  = Http.cookies
      (Cookies.setAuthCookie rt token
         {| Http.status := Signup.status response;
            Http.body := b;
            Http.cookies := Signup.cookies response |}).
Proof. reflexivity. Qed.

(** The cookies that the login handler sets. *)
Lemma login_cookies (retries : nat) (rt : Runtime) (st st' : Server)
    (request : Request) (response : Http.Response) (n : string) :
  Login.POST retries rt st request = Some (response, st') ->
  is_Some (Http.cookies response !! n) ->
  n = "auth_token" \/ n = "auth_state".
Proof.
  intros Hrun [c Hc].
  apply POST_cases in Hrun as [[-> _]|[limiters' [settled [_ Hrun]]]];
    [discriminate Hc|].
  pose proof (authenticate_cases {| env := env rt; now := settled |}
                (with_limiters st limiters') request) as Hcases.
  rewrite Hrun in Hcases.
  destruct Hcases as [_ [_ [_ [[_ [_ Hr]]|[e' [p [found [_ [_ Hr]]]]]]]]].
  { destruct Hr as [->|[issues ->]]; discriminate Hc. }
  destruct (available (with_limiters st limiters'));
    [|subst response; discriminate Hc].
  destruct found as [user|]; [|subst response; discriminate Hc].
  destruct (bcrypt_compare p (hashedPassword user));
    [|subst response; discriminate Hc].
  destruct (Jwt.createToken _ _); [|subst response; discriminate Hc].
  subst response. simpl in Hc.
  destruct (decide (n = "auth_state")) as [->|Hn]; [now right|].
  rewrite lookup_insert_ne in Hc by congruence.
  destruct (decide (n = "auth_token")) as [->|Ht]; [now left|].
  rewrite lookup_insert_ne in Hc by (unfold Cookies.TOKEN_NAME; congruence).
  discriminate Hc.
Qed.

(** The cookie that the signup handler sets. *)
Lemma signup_cookies (rt : Runtime) (draw : Signup.Draw) (st st' : Server)
    (request : Request) (response : Signup.Response) (n : string) :
  Signup.POST rt draw st request = (response, st') ->
  is_Some (Signup.cookies response !! n) ->
  n = "auth_token".
Proof.
  intros Hrun [c Hc]. pose proof (signup_cases rt draw st request) as Hcases.
  rewrite Hrun in Hcases.
  destruct Hcases as [_ [_ [[_ [_ [Hk _]]]|[e [p [n' [_ [_ Hr]]]]]]]].
  { rewrite Hk in Hc. discriminate Hc. }
  destruct (available st); [|destruct Hr as [-> _]; discriminate Hc].
  destruct (List.find _ _); [destruct Hr as [-> _]; discriminate Hc|].
  simpl in Hr. destruct (Signup.vacant st _);
    [|destruct Hr as [-> _]; discriminate Hc].
  destruct Hr as [_ Hr].
  destruct (Jwt.createToken rt _); subst response; [|discriminate Hc].
  simpl in Hc.
  destruct (decide (n = "auth_token")) as [->|Ht]; [reflexivity|].
  rewrite lookup_insert_ne in Hc by (unfold Cookies.TOKEN_NAME; congruence).
  discriminate Hc.
Qed.

(** X25. Logging out drops the session cookies: the logout handler answers
    200 and tells the browser to drop [auth_token] and [auth_state] and
    nothing else, and these are all the cookies that a response of the
    login handler or of the signup handler can have set. *)
Theorem logout_drops_the_session_cookies :
  Logout.status Logout.POST = 200
  /\ (forall n, Logout.cookies Logout.POST !! n = Some Logout.Expire
                <-> n = "auth_token" \/ n = "auth_state")
  /\ (forall (retries : nat) (rt : Runtime) (st st' : Server)
             (request : Request) (response : Http.Response) (n : string),
         Login.POST retries rt st request = Some (response, st') ->
         is_Some (Http.cookies response !! n) ->
         Logout.cookies Logout.POST !! n = Some Logout.Expire)
  /\ (forall (rt : Runtime) (draw : Signup.Draw) (st st' : Server)
             (request : Request) (response : Signup.Response) (n : string),
         Signup.POST rt draw st request = (response, st') ->
         is_Some (Signup.cookies response !! n) ->
         Logout.cookies Logout.POST !! n = Some Logout.Expire).
Proof.
  assert (Hjar : forall n, Logout.cookies Logout.POST !! n = Some Logout.Expire
                           <-> n = "auth_token" \/ n = "auth_state").
  { intros n. unfold Logout.POST, Logout.deleteAuthCookie, Logout.cookies_delete,
      Cookies.TOKEN_NAME. simpl. split.
    - intros Hn. destruct (decide (n = "auth_state")) as [->|Hs]; [now right|].
      rewrite lookup_insert_ne in Hn by congruence.
      destruct (decide (n = "auth_token")) as [->|Ht]; [now left|].
      rewrite lookup_insert_ne in Hn by congruence. discriminate Hn.
    - intros [-> | ->]; [|apply lookup_insert_eq].
      rewrite lookup_insert_ne by discriminate. apply lookup_insert_eq. }
  split; [reflexivity|]. split; [exact Hjar|]. split.
  - intros retries rt st st' request response n Hrun Hc. apply Hjar.
    exact (login_cookies retries rt st st' request response n Hrun Hc).
  - intros rt draw st st' request response n Hrun Hc. apply Hjar. left.
    exact (signup_cookies rt draw st st' request response n Hrun Hc).
Qed.

End LoggingOut.
